(** * TreeFrog epoll reactor and WebSocket frame worker

    A shallow embedding of [src/tepoll.cpp] (class [TEpoll], the reactor that
    owns the epoll descriptor, the registry [pollingSockets] and the send
    queue [sendRequests]) and of [src/twebsocketworker.cpp]
    ([TWebSocketWorker::run]), with the properties the specification states
    about them.

    Conventions.
    - C++ [int] values are [Z]; pointers are [N] with [NULL = 0]; objects
      reached through pointers live in an explicit heap ([gmap ptr _]), so
      that aliasing between the registry, the event array and local variables
      is visible.
    - [QByteArray] and [QString] are byte strings ([string]).
    - [QMap<QByteArray, TEpollSocket*>] is a [gmap string ptr].
    - Code that runs against the process state is written in a state monad
      with failure; failure ([None]) stands for undefined behaviour
      (dereferencing a pointer with no live object, reading outside an
      array).
    - Everything the two files call but do not define (the kernel, Qt, the
      session store, the dispatcher, the user's endpoint callbacks) is a
      field of the classes [Platform] and [Framework]; theorems hold for
      every instance, and [Demo] supplies one to run the code on. *)

From stdpp Require Import gmap strings pretty list fin_maps sorting.
From Stdlib Require Import ZArith Lia.

Open Scope Z_scope.

(** ** Basic data *)

Abbreviation QByteArray := string (only parsing).
Abbreviation QString := string (only parsing).

Abbreviation ptr := N (only parsing).
Definition NULL : ptr := 0%N.

(** [<sys/epoll.h>] and [<errno.h>] constants (Linux). *)
Definition EPOLLIN : Z := 0x001.
Definition EPOLLOUT : Z := 0x004.
Definition EPOLLET : Z := 0x80000000.
Definition EEXIST : Z := 17.
Definition ENOENT : Z := 2.

Inductive EpollOp := EPOLL_CTL_ADD | EPOLL_CTL_MOD | EPOLL_CTL_DEL.

(** [const int MaxEvents = 128;] *)
Definition MaxEvents : Z := 128.

(** [struct epoll_event]: the event mask and [data.ptr]. *)
Record epoll_event := mk_epoll_event {
  ev_events : Z;
  ev_data_ptr : ptr
}.

(** C's [!x] and the conversion of an [int] to [bool]. *)
Definition lnot (x : Z) : bool := x =? 0.
Definition to_bool (x : Z) : bool := negb (x =? 0).

(** ** Collaborator data *)

(** Modelled from the spec: [THttpRequestHeader] is declared in a header
    that is not part of the sources; it is modelled as what the reactor
    reads from it, the raw header fields and the cookies. *)
Record THttpRequestHeader := mk_header {
  rawHeaders : list (QByteArray * QByteArray);
  cookies : list (QByteArray * QByteArray)
}.

Definition assoc (k : string) (l : list (string * string)) : string :=
  match List.find (fun kv => String.eqb (fst kv) k) l with
  | Some kv => snd kv
  | None => EmptyString
  end.

(** Modelled from the spec: [THttpRequestHeader::rawHeader(key)], the value
    of the field, empty when there is none. *)
Definition rawHeader (h : THttpRequestHeader) (k : QByteArray) : QByteArray :=
  assoc k (rawHeaders h).

(** Modelled from the spec: [THttpRequestHeader::cookie(name)], the value of
    the cookie, empty when there is none. *)
Definition cookie (h : THttpRequestHeader) (k : QByteArray) : QByteArray :=
  assoc k (cookies h).

(** The default-constructed header of [TSendData]'s first constructor. *)
Definition empty_header : THttpRequestHeader := mk_header [] [].

(** Modelled from the spec: [TSession] is declared outside the sources; a
    session has an identifier and its stored data. *)
Record TSession := mk_session {
  session_id : QByteArray;
  session_data : list (string * string)
}.

(** [TSession session;] : a default-constructed session has an empty id. *)
Definition TSession_default : TSession := mk_session EmptyString [].

(** Modelled from the spec: [TSendBuffer] is declared outside the sources;
    a send buffer holds the bytes of a pending write chunk, and the file it
    streams after them (empty when none). *)
Record TSendBuffer := mk_buffer {
  buf_bytes : QByteArray;
  buf_file : string;
  buf_autoRemove : bool
}.

(** Modelled from the spec: [TEpollSocket::createSendBuffer(data)], a
    buffer of the given bytes. *)
Definition createSendBuffer (data : QByteArray) : TSendBuffer :=
  mk_buffer data EmptyString false.

(** ** WebSocket opcodes

    [enum TWebSocketFrame::OpCode] is declared in [twebsocketframe.h], which
    is not part of the sources; the values are those of RFC 6455. *)
Module TWebSocketFrame.
(** Modelled from the spec: the opcode of a continuation frame, which the
    worker also uses as the tag of the opening event. *)
Definition Continuation : Z := 0x0.
(** Modelled from the spec: the opcode of a text frame. *)
Definition TextFrame : Z := 0x1.
(** Modelled from the spec: the opcode of a binary frame. *)
Definition BinaryFrame : Z := 0x2.
(** Modelled from the spec: the opcode of a close frame. *)
Definition Close : Z := 0x8.
(** Modelled from the spec: the opcode of a ping frame. *)
Definition Ping : Z := 0x9.
(** Modelled from the spec: the opcode of a pong frame. *)
Definition Pong : Z := 0xA.
End TWebSocketFrame.

(** ** [class TSendData] (tepoll.cpp, lines 28-49) *)
Module TSendData.
(** [enum Method { Disconnect, Send, SwitchToWebSocket }] *)
Definition Disconnect : Z := 0.
Definition Send : Z := 1.
Definition SwitchToWebSocket : Z := 2.

(** [buffer] is a [TSendBuffer*]; [None] is the null pointer. *)
Record t := mk {
  method : Z;
  uuid : QByteArray;
  buffer : option TSendBuffer;
  header : THttpRequestHeader
}.

(** [TSendData(Method m, const QByteArray &u, TSendBuffer *buf = 0)] *)
Definition new_buf (m : Z) (u : QByteArray) (buf : option TSendBuffer) : t :=
  mk m u buf empty_header.

(** [TSendData(Method m, const QByteArray &u, const THttpRequestHeader &h)] *)
Definition new_header (m : Z) (u : QByteArray) (h : THttpRequestHeader) : t :=
  mk m u None h.
End TSendData.

(** ** [class TWebSocketWorker]: the fields set by its constructors *)
Record TWebSocketWorker := mk_worker {
  socketUuid : QByteArray;
  sessionStore : TSession;
  requestPath : QByteArray;
  opcode : Z;
  requestData : QByteArray
}.

(** [TWebSocketWorker(const QByteArray &socket, const TSession &session, ...)] *)
Definition TWebSocketWorker_opening (socket : QByteArray) (session : TSession)
  : TWebSocketWorker :=
  mk_worker socket session EmptyString TWebSocketFrame.Continuation EmptyString.

(** [TWebSocketWorker(socket, path, opCode, data, ...)] *)
Definition TWebSocketWorker_frame (socket path : QByteArray) (opCode : Z)
    (data : QByteArray) : TWebSocketWorker :=
  mk_worker socket TSession_default path opCode data.

(** ** Sockets *)

(** Modelled from the spec: the protocol mode of a connection; in the code
    it is the subclass, [TEpollHttpSocket] or [TEpollWebSocket]. *)
Inductive Mode := HTTP | WebSocket.

(** Modelled from the spec: [TEpollSocket] and its subclasses are declared
    outside the sources. A connection carries the descriptor, the UUID,
    the peer address, the protocol mode and the outgoing buffer queue; the
    request header is the one a WebSocket connection is constructed with,
    and [deleteLater] only marks the object. *)
Record TEpollSocket := mk_socket {
  sd : Z;
  sock_uuid : QByteArray;
  clientAddr : string;
  mode : Mode;
  sendBuf : list (option TSendBuffer);
  reqHeader : THttpRequestHeader;
  deleteLaterCalled : bool
}.

Definition set_sd (v : Z) (s : TEpollSocket) : TEpollSocket :=
  mk_socket v (sock_uuid s) (clientAddr s) (mode s) (sendBuf s) (reqHeader s)
            (deleteLaterCalled s).
Definition push_sendBuf (b : option TSendBuffer) (s : TEpollSocket) : TEpollSocket :=
  mk_socket (sd s) (sock_uuid s) (clientAddr s) (mode s) (sendBuf s ++ [b])
            (reqHeader s) (deleteLaterCalled s).
Definition mark_deleteLater (s : TEpollSocket) : TEpollSocket :=
  mk_socket (sd s) (sock_uuid s) (clientAddr s) (mode s) (sendBuf s) (reqHeader s)
            true.

(** ** WebSocket endpoints *)

(** Modelled from the spec: the methods of [TWebSocketEndpoint], declared
    outside the sources, with which a callback populates the endpoint's
    [payloadList]: outgoing text frames, binary frames and the control
    directives send-ping, send-pong and close. *)
Inductive Directive :=
| SendText (text : QString)
| SendBinary (binary : QByteArray)
| SendPing
| SendPong
| CloseWebSocket.

(** Modelled from the spec: [TWebSocketEndpoint], with its six callbacks; a
    callback is modelled by the calls of endpoint methods it makes, in
    order. *)
Record TWebSocketEndpoint := mk_endpoint {
  onOpen : TSession -> list Directive;
  onTextReceived : QString -> list Directive;
  onBinaryReceived : QByteArray -> list Directive;
  onClose : list Directive;
  onPing : list Directive;
  onPong : list Directive
}.

(** The entries of [QVariantList payloadList]; [QVOther] is a variant of
    any type other than [String], [ByteArray] and [Int]. *)
Inductive QVariant :=
| QVString (s : QString)
| QVByteArray (b : QByteArray)
| QVInt (n : Z)
| QVOther.

(** Modelled from the spec: what each endpoint method appends to
    [payloadList]; the values are those the worker's drain loop has cases
    for. *)
Definition toVariant (d : Directive) : QVariant :=
  match d with
  | SendText text => QVString text
  | SendBinary binary => QVByteArray binary
  | SendPing => QVInt TWebSocketFrame.Ping
  | SendPong => QVInt TWebSocketFrame.Pong
  | CloseWebSocket => QVInt TWebSocketFrame.Close
  end.

(** A callback invocation, as it is seen from outside the worker. *)
Inductive EndpointCall :=
| OnOpen (session : TSession)
| OnTextReceived (text : QString)
| OnBinaryReceived (data : QByteArray)
| OnClose
| OnPing
| OnPong.

(** ** Observable effects *)
Inductive LogLevel := SystemError | SystemDebug | AppError | AppWarn.

Inductive Effect :=
| Log (lvl : LogLevel) (fmt : string)
| SysEpollCtl (op : EpollOp) (fd : Z) (ev : option epoll_event) (ret err : Z)
| SysEpollWait (timeout ret err : Z)
| SysClose (fd : Z)
| DeleteLater (p : ptr)
| DeleteBuffer (b : TSendBuffer)
| DeleteSendData (d : TSendData.t)
| StartWorker (w : TWebSocketWorker)
| Invoke (c : EndpointCall).

Definition is_error (e : Effect) : bool :=
  match e with
  | Log SystemError _ | Log AppError _ => true
  | _ => false
  end.

Definition is_close (e : Effect) : bool :=
  match e with SysClose _ => true | _ => false end.

Definition is_invoke (e : Effect) : bool :=
  match e with Invoke _ => true | _ => false end.

(** ** The operating system *)
Class Platform := {
  Kernel : Type;
  (* tf_epoll_ctl(epfd, op, fd, ev): the result, errno, the new kernel *)
  tf_epoll_ctl : Kernel -> Z -> EpollOp -> Z -> option epoll_event -> Z * Z * Kernel;
  (* tf_epoll_wait(epfd, events, maxevents, timeout): the result, errno,
     the entries written at the front of the array, the new kernel *)
  tf_epoll_wait : Kernel -> Z -> Z -> Z -> Z * Z * list epoll_event * Kernel;
  (* TF_CLOSE(fd) *)
  tf_close : Kernel -> Z -> Kernel;
  (* epoll_wait(2) returns at most maxevents events and writes as many *)
  tf_epoll_wait_bound : forall k epfd maxevents timeout,
    0 < maxevents ->
    match tf_epoll_wait k epfd maxevents timeout with
    | (n, _, evs, _) =>
        n <= maxevents /\ Z.of_nat (length evs) = Z.max n 0
    end
}.

(** ** The framework around the two files *)
Class Framework := {
  (* QUuid::createUuid().toByteArray(), by the number of UUIDs issued *)
  createUuid : nat -> QByteArray;
  (* TEpollWebSocket::handshakeResponse().toByteArray(), a function of the
     request header the socket was constructed with *)
  handshakeResponse : THttpRequestHeader -> QByteArray;
  (* TSession::sessionName() *)
  sessionName : QByteArray;
  (* TSessionManager::instance().findSession(id) *)
  findSession : QByteArray -> TSession;
  (* TUrlRoute::splitPath, QString::toLower, QString::fromUtf8, QString::toUtf8 *)
  splitPath : QString -> list QString;
  toLower : QString -> QString;
  fromUtf8 : QByteArray -> QString;
  toUtf8 : QString -> QByteArray;
  (* TDispatcher<TWebSocketEndpoint>(name).object(); None is the null pointer *)
  dispatcherObject : QString -> option TWebSocketEndpoint;
  (* the bytes of a WebSocket frame with an opcode and a payload *)
  frameBytes : Z -> QByteArray -> QByteArray
}.

(** ** [class TEpoll]: the reactor object

    The fields are those the constructor initialises (lines 53-56) and
    [sendRequests]. The type of [sendRequests] is declared outside the
    sources; it is the ordered send queue of the specification, a list in
    enqueue order. *)
Record TEpoll := mk_TEpoll {
  epollFd : Z;
  events : list epoll_event;
  polling : bool;
  numEvents : Z;
  eventIterator : Z;
  pollingSockets : gmap string N;
  sendRequests : list TSendData.t
}.

Definition set_events (v : list epoll_event) (e : TEpoll) : TEpoll :=
  mk_TEpoll (epollFd e) v (polling e) (numEvents e) (eventIterator e)
            (pollingSockets e) (sendRequests e).
Definition set_polling (v : bool) (e : TEpoll) : TEpoll :=
  mk_TEpoll (epollFd e) (events e) v (numEvents e) (eventIterator e)
            (pollingSockets e) (sendRequests e).
Definition set_numEvents (v : Z) (e : TEpoll) : TEpoll :=
  mk_TEpoll (epollFd e) (events e) (polling e) v (eventIterator e)
            (pollingSockets e) (sendRequests e).
Definition set_eventIterator (v : Z) (e : TEpoll) : TEpoll :=
  mk_TEpoll (epollFd e) (events e) (polling e) (numEvents e) v
            (pollingSockets e) (sendRequests e).
Definition set_pollingSockets (v : gmap string N) (e : TEpoll) : TEpoll :=
  mk_TEpoll (epollFd e) (events e) (polling e) (numEvents e) (eventIterator e)
            v (sendRequests e).
Definition set_sendRequests (v : list TSendData.t) (e : TEpoll) : TEpoll :=
  mk_TEpoll (epollFd e) (events e) (polling e) (numEvents e) (eventIterator e)
            (pollingSockets e) v.

(** *** The [const] queries (lines 94-109)

    [events[i]] is read with [!!]: an index outside the array gives [None]. *)
Definition canReceive (e : TEpoll) : option bool :=
  if eventIterator e <=? 0 then Some false
  else ev ← events e !! Z.to_nat (eventIterator e - 1);
       Some (to_bool (Z.land (ev_events ev) EPOLLIN)).

Definition canSend (e : TEpoll) : option bool :=
  if eventIterator e <=? 0 then Some false
  else ev ← events e !! Z.to_nat (eventIterator e - 1);
       Some (to_bool (Z.land (ev_events ev) EPOLLOUT)).

(** [TEpoll::next()] (lines 89-92). An index below zero is outside the
    array like one past its end. *)
Definition next (e : TEpoll) : option (N * TEpoll) :=
  if eventIterator e <? numEvents e then
    if eventIterator e <? 0 then None
    else
      ev ← events e !! Z.to_nat (eventIterator e);
      Some (ev_data_ptr ev, set_eventIterator (eventIterator e + 1) e)
  else Some (NULL, e).

(** ** The process state and the monad of the reactor thread *)
Section Reactor.
Context {P : Platform} {F : Framework}.

Record World := mk_World {
  reactor : TEpoll;
  heap : gmap N TEpollSocket;
  kernel : Kernel;
  trace : list Effect;
  uuidsIssued : nat
}.

Definition set_reactor (v : TEpoll) (w : World) : World :=
  mk_World v (heap w) (kernel w) (trace w) (uuidsIssued w).
Definition set_heap (v : gmap N TEpollSocket) (w : World) : World :=
  mk_World (reactor w) v (kernel w) (trace w) (uuidsIssued w).
Definition set_kernel (v : Kernel) (w : World) : World :=
  mk_World (reactor w) (heap w) v (trace w) (uuidsIssued w).
Definition set_trace (v : list Effect) (w : World) : World :=
  mk_World (reactor w) (heap w) (kernel w) v (uuidsIssued w).
Definition set_uuidsIssued (v : nat) (w : World) : World :=
  mk_World (reactor w) (heap w) (kernel w) (trace w) v.

Definition M (A : Type) : Type := World -> option (A * World).

Definition ret {A} (a : A) : M A := fun w => Some (a, w).
Definition bind {A B} (m : M A) (k : A -> M B) : M B :=
  fun w => match m w with
           | Some (a, w') => k a w'
           | None => None
           end.
#[global] Instance M_ret : MRet M := @ret.
#[global] Instance M_bind : MBind M := fun A B k m => bind m k.

Definition get : M World := fun w => Some (w, w).
Definition modify (f : World -> World) : M unit := fun w => Some (tt, f w).
Definition when (b : bool) (m : M unit) : M unit := if b then m else ret tt.

Definition emit (e : Effect) : M unit :=
  modify (fun w => set_trace (trace w ++ [e]) w).
Definition tSystemError (fmt : string) : M unit := emit (Log SystemError fmt).
Definition tSystemDebug (fmt : string) : M unit := emit (Log SystemDebug fmt).

(** [*p] : the object a pointer refers to. *)
Definition deref (p : N) : M TEpollSocket :=
  fun w => match heap w !! p with
           | Some s => Some (s, w)
           | None => None
           end.
Definition update (p : N) (f : TEpollSocket -> TEpollSocket) : M unit :=
  s ← deref p; modify (fun w => set_heap (<[p := f s]> (heap w)) w).

Definition getReactor : M TEpoll := fun w => Some (reactor w, w).
Definition modifyReactor (f : TEpoll -> TEpoll) : M unit :=
  modify (fun w => set_reactor (f (reactor w)) w).

(** The system call, recorded in the trace. *)
Definition epoll_ctl (op : EpollOp) (fd : Z) (ev : option epoll_event) : M (Z * Z) :=
  fun w =>
    match tf_epoll_ctl (kernel w) (epollFd (reactor w)) op fd ev with
    | (r, err, k) =>
        Some ((r, err),
              set_trace (trace w ++ [SysEpollCtl op fd ev r err]) (set_kernel k w))
    end.

(** [TEpoll::wait(int timeout)] (lines 73-86) *)
Definition wait (timeout : Z) : M Z :=
  modifyReactor (set_eventIterator 0) ;;
  modifyReactor (set_polling true) ;;
  w ← get;
  match tf_epoll_wait (kernel w) (epollFd (reactor w)) MaxEvents timeout with
  | (n, err, evs, k) =>
      modify (set_kernel k) ;;
      emit (SysEpollWait timeout n err) ;;
      modifyReactor (fun e =>
        set_numEvents n (set_events (evs ++ drop (length evs) (events e)) e)) ;;
      modifyReactor (set_polling false) ;;
      when (n <? 0) (tSystemError "Failed epoll_wait() : errno:%d") ;;
      ret n
  end.

(** [TEpoll::addPoll(TEpollSocket *socket, int events)] (lines 133-154).
    [evmask] is the mask as the kernel receives it in the 32-bit field
    [ev.events], which is what the callers' [EPOLLIN | EPOLLOUT | EPOLLET]
    denotes; the passage of that value through the [int] parameter is not
    modelled. *)
Definition addPoll (socket : N) (evmask : Z) : M bool :=
  if lnot evmask then ret false
  else
    s ← deref socket;
    '(r, err) ← epoll_ctl EPOLL_CTL_ADD (sd s)
                   (Some (mk_epoll_event evmask socket));
    (if r <? 0 then
       when (negb (err =? EEXIST))
            (tSystemError "Failed epoll_ctl (EPOLL_CTL_ADD)  sd:%d errno:%d")
     else
       tSystemDebug "OK epoll_ctl (EPOLL_CTL_ADD) (events:%u)  sd:%d" ;;
       modifyReactor (fun e =>
         set_pollingSockets (<[sock_uuid s := socket]> (pollingSockets e)) e)) ;;
    ret (lnot r).

(** [TEpoll::modifyPoll(TEpollSocket *socket, int events)] (lines 157-175),
    with [evmask] read as in [addPoll]. *)
Definition modifyPoll (socket : N) (evmask : Z) : M bool :=
  if lnot evmask then ret false
  else
    s ← deref socket;
    '(r, err) ← epoll_ctl EPOLL_CTL_MOD (sd s)
                   (Some (mk_epoll_event evmask socket));
    (if r <? 0 then
       tSystemError "Failed epoll_ctl (EPOLL_CTL_MOD)  sd:%d errno:%d ev:0x%x"
     else
       tSystemDebug "OK epoll_ctl (EPOLL_CTL_MOD)  sd:%d") ;;
    ret (lnot r).

(** [TEpoll::deletePoll(TEpollSocket *socket)] (lines 178-194).
    [QMap::remove] returns the number of entries removed. *)
Definition deletePoll (socket : N) : M bool :=
  s ← deref socket;
  e ← getReactor;
  match pollingSockets e !! sock_uuid s with
  | None => ret false
  | Some _ =>
      modifyReactor (fun e =>
        set_pollingSockets (delete (sock_uuid s) (pollingSockets e)) e) ;;
      '(r, err) ← epoll_ctl EPOLL_CTL_DEL (sd s) None;
      (if (r <? 0) && negb (err =? ENOENT) then
         tSystemError "Failed epoll_ctl (EPOLL_CTL_DEL)  sd:%d errno:%d"
       else
         tSystemDebug "OK epoll_ctl (EPOLL_CTL_DEL)  sd:%d") ;;
      ret (lnot r)
  end.

(** *** Producers of the send queue (lines 275-310) *)

(** Modelled from the spec: [sendRequests.enqueue(action)] appends to the
    tail of the send queue. *)
Definition enqueue (d : TSendData.t) : M unit :=
  modifyReactor (fun e => set_sendRequests (sendRequests e ++ [d]) e).

(** [QIODevice *body]: null, a [QBuffer] or a [QFile]. *)
Inductive QIODevice := QBuffer (data : QByteArray) | QFile (path : string).

(** [setSendData(uuid, header, body, autoRemove, accessLogger)] *)
Definition setSendData_response (uuid header : QByteArray) (body : option QIODevice)
    (autoRemove : bool) : M unit :=
  let '(response, fi) :=
    match body with
    | Some (QBuffer data) => (header +:+ data, EmptyString)
    | Some (QFile path) => (header, path)
    | None => (header, EmptyString)
    end in
  enqueue (TSendData.new_buf TSendData.Send uuid
             (Some (mk_buffer response fi autoRemove))).

(** [setSendData(uuid, data)] *)
Definition setSendData (uuid data : QByteArray) : M unit :=
  enqueue (TSendData.new_buf TSendData.Send uuid (Some (createSendBuffer data))).

Definition setDisconnect (uuid : QByteArray) : M unit :=
  enqueue (TSendData.new_buf TSendData.Disconnect uuid None).

Definition setSwitchToWebSocket (uuid : QByteArray) (header : THttpRequestHeader)
  : M unit :=
  enqueue (TSendData.new_header TSendData.SwitchToWebSocket uuid header).

(** Modelled from the spec: [sendRequests.dequeue()] removes and returns
    everything queued, in enqueue order. *)
Definition dequeue : M (list TSendData.t) :=
  e ← getReactor;
  modifyReactor (set_sendRequests []) ;;
  ret (sendRequests e).

(** *** Socket methods used by the reactor *)

(** Modelled from the spec: [TEpollSocket::enqueueSendData(buffer)] appends
    to the connection's outgoing buffer queue. *)
Definition enqueueSendData (sock : N) (b : option TSendBuffer) : M unit :=
  update sock (push_sendBuf b).

(** Modelled from the spec: [TEpollSocket::close()] closes the descriptor,
    if the connection has one, and clears the field. *)
Definition close (sock : N) : M unit :=
  s ← deref sock;
  when (0 <? sd s)
       (modify (fun w => set_kernel (tf_close (kernel w) (sd s)) w) ;;
        emit (SysClose (sd s))) ;;
  update sock (set_sd 0).

(** Modelled from the spec: [TEpollSocket::setSocketDescpriter(sd)] sets
    the descriptor field. *)
Definition setSocketDescpriter (sock : N) (v : Z) : M unit :=
  update sock (set_sd v).

(** Modelled from the spec: [QObject::deleteLater()] schedules the object
    for deferred destruction; the object stays on the heap, marked. *)
Definition deleteLater (sock : N) : M unit :=
  update sock mark_deleteLater ;; emit (DeleteLater sock).

(** Modelled from the spec: [new TEpollWebSocket(sd, address, header)]
    constructs, at an address not in use, a connection in WebSocket mode
    on the given descriptor, with a UUID of its own and an empty outgoing
    buffer queue. *)
Definition new_TEpollWebSocket (socketDescriptor : Z) (address : string)
    (header : THttpRequestHeader) : M N :=
  w ← get;
  let p := fresh ({[NULL]} ∪ dom (heap w)) in
  let u := createUuid (uuidsIssued w) in
  modify (set_uuidsIssued (S (uuidsIssued w))) ;;
  modify (fun w => set_heap
    (<[p := mk_socket socketDescriptor u address WebSocket [] header false]>
       (heap w)) w) ;;
  ret p.

(** Modelled from the spec: [TEpollWebSocket::startWorkerForOpening(session)]
    delivers the opening event to a new frame worker, built with the
    (socket, session) constructor. *)
Definition startWorkerForOpening (ws : N) (session : TSession) : M unit :=
  s ← deref ws;
  emit (StartWorker (TWebSocketWorker_opening (sock_uuid s) session)).

(** [pollingSockets[uuid]]: the non-const [QMap::operator[]] inserts a
    default-constructed value (the null pointer) when the key is absent. *)
Definition pollingSockets_index (uuid : QByteArray) : M N :=
  e ← getReactor;
  match pollingSockets e !! uuid with
  | Some p => ret p
  | None =>
      modifyReactor (set_pollingSockets (<[uuid := NULL]> (pollingSockets e))) ;;
      ret NULL
  end.

(** [(EPOLLIN | EPOLLOUT | EPOLLET)], the mask of every re-arm. *)
Definition EPOLL_RESET : Z := Z.lor (Z.lor EPOLLIN EPOLLOUT) EPOLLET.

(** *** [TEpoll::dispatchSendData()] (lines 203-262)

    [applySendData] is the [switch] on the method, [dispatchOne] the loop
    body around it, [dispatchList] the loop. [Q_ASSERT(sd->buffer == NULL)]
    compiles to nothing in a release build and is left out. *)
Definition applySendData (sd_ : TSendData.t) (sock : N) : M unit :=
  if TSendData.method sd_ =? TSendData.Send then
    enqueueSendData sock (TSendData.buffer sd_) ;;
    modifyPoll sock EPOLL_RESET ;;
    ret tt
  else if TSendData.method sd_ =? TSendData.Disconnect then
    deletePoll sock ;;
    close sock ;;
    deleteLater sock
  else if TSendData.method sd_ =? TSendData.SwitchToWebSocket then
    tSystemDebug "Switch to WebSocket" ;;
    let secKey := rawHeader (TSendData.header sd_) "Sec-WebSocket-Key" in
    tSystemDebug "secKey: %s" ;;
    s ← deref sock;
    ws ← new_TEpollWebSocket (sd s) (clientAddr s) (TSendData.header sd_);
    deletePoll sock ;;
    setSocketDescpriter sock 0 ;;
    deleteLater sock ;;
    wsock ← deref ws;
    let response := handshakeResponse (reqHeader wsock) in
    enqueueSendData ws (Some (createSendBuffer response)) ;;
    addPoll ws EPOLL_RESET ;;
    let sessionId := cookie (TSendData.header sd_) sessionName in
    let session :=
      if negb (String.eqb sessionId EmptyString) then findSession sessionId
      else TSession_default in
    startWorkerForOpening ws session
  else
    tSystemError "Logic error [%s:%d]" ;;
    match TSendData.buffer sd_ with
    | Some b => emit (DeleteBuffer b)
    | None => ret tt
    end.

Definition dispatchOne (sd_ : TSendData.t) : M unit :=
  sock ← pollingSockets_index (TSendData.uuid sd_);
  live ← (if N.eqb sock NULL then ret false
          else s ← deref sock; ret (0 <? sd s));
  when live (applySendData sd_ sock) ;;
  emit (DeleteSendData sd_).

Fixpoint dispatchList (dataList : list TSendData.t) : M unit :=
  match dataList with
  | [] => ret tt
  | sd_ :: rest => dispatchOne sd_ ;; dispatchList rest
  end.

Definition dispatchSendData : M unit :=
  dataList ← dequeue;
  dispatchList dataList.

End Reactor.

(** ** [TWebSocketWorker::run()] (twebsocketworker.cpp, lines 38-125)

    The worker is written in the same monad: what it does to the process
    state is to log, to invoke callbacks and to enqueue on the send queue. *)
Section Worker.
Context {P : Platform} {F : Framework}.

Definition tError (fmt : string) : M unit := emit (Log AppError fmt).
Definition tWarn (fmt : string) : M unit := emit (Log AppWarn fmt).

(** Modelled from the spec: [TEpollWebSocket::sendText(uuid, text)], not
    part of the sources, enqueues a Send of a text frame. *)
Definition sendText (uuid : QByteArray) (text : QString) : M unit :=
  setSendData uuid (frameBytes TWebSocketFrame.TextFrame (toUtf8 text)).

(** Modelled from the spec: [TEpollWebSocket::sendBinary(uuid, binary)]
    enqueues a Send of a binary frame. *)
Definition sendBinary (uuid binary : QByteArray) : M unit :=
  setSendData uuid (frameBytes TWebSocketFrame.BinaryFrame binary).

(** Modelled from the spec: [TEpollWebSocket::sendPing(uuid)] enqueues a
    Send of a ping frame. *)
Definition sendPing (uuid : QByteArray) : M unit :=
  setSendData uuid (frameBytes TWebSocketFrame.Ping EmptyString).

(** Modelled from the spec: [TEpollWebSocket::sendPong(uuid)] enqueues a
    Send of a pong frame. *)
Definition sendPong (uuid : QByteArray) : M unit :=
  setSendData uuid (frameBytes TWebSocketFrame.Pong EmptyString).

(** Modelled from the spec: [TEpollWebSocket::disconnect(uuid)] enqueues a
    Disconnect. *)
Definition disconnect (uuid : QByteArray) : M unit :=
  setDisconnect uuid.

(** Modelled from the spec: a callback of the endpoint runs; the call is
    recorded and what the callback sends is appended to the endpoint's
    [payloadList]. *)
Definition invoke (c : EndpointCall) (out : list Directive)
    (payloadList : list QVariant) : M (list QVariant) :=
  emit (Invoke c) ;; ret (payloadList ++ map toVariant out).

(** Modelled from the spec: the worker's own calls of the endpoint methods
    [closeWebSocket()] and [sendPong()], which append the directive. *)
Definition endpointSend (d : Directive) (payloadList : list QVariant)
  : M (list QVariant) :=
  ret (payloadList ++ [toVariant d]).

(** The first [switch] (lines 48-82), on a freshly constructed endpoint;
    the result is the endpoint's [payloadList] after it. *)
Definition handleOpcode (w : TWebSocketWorker) (endpoint : TWebSocketEndpoint)
  : M (list QVariant) :=
  let op := opcode w in
  if op =? TWebSocketFrame.Continuation then
    if String.eqb (session_id (sessionStore w)) EmptyString then
      invoke (OnOpen (sessionStore w)) (onOpen endpoint (sessionStore w)) []
    else
      tError "Invalid logic  [%s:%d]" ;; ret []
  else if op =? TWebSocketFrame.TextFrame then
    let text := fromUtf8 (requestData w) in
    invoke (OnTextReceived text) (onTextReceived endpoint text) []
  else if op =? TWebSocketFrame.BinaryFrame then
    invoke (OnBinaryReceived (requestData w))
           (onBinaryReceived endpoint (requestData w)) []
  else if op =? TWebSocketFrame.Close then
    l ← invoke OnClose (onClose endpoint) [];
    endpointSend CloseWebSocket l
  else if op =? TWebSocketFrame.Ping then
    l ← invoke OnPing (onPing endpoint) [];
    endpointSend SendPong l
  else if op =? TWebSocketFrame.Pong then
    invoke OnPong (onPong endpoint) []
  else
    tWarn "Invalid opcode: 0x%x  [%s:%d]" ;; ret [].

(** The body of the loop over [payloadList] (lines 85-123). *)
Definition sendPayload (uuid : QByteArray) (var : QVariant) : M unit :=
  match var with
  | QVString s => sendText uuid s
  | QVByteArray b => sendBinary uuid b
  | QVInt op =>
      if op =? TWebSocketFrame.Close then disconnect uuid
      else if op =? TWebSocketFrame.Ping then sendPing uuid
      else if op =? TWebSocketFrame.Pong then sendPong uuid
      else tError "Invalid logic  [%s:%d]"
  | QVOther => tError "Invalid logic  [%s:%d]"
  end.

Fixpoint sendPayloads (uuid : QByteArray) (payloadList : list QVariant) : M unit :=
  match payloadList with
  | [] => ret tt
  | var :: rest => sendPayload uuid var ;; sendPayloads uuid rest
  end.

Definition endpointName (w : TWebSocketWorker) : QString :=
  toLower (nth 0 (splitPath (requestPath w)) EmptyString) +:+ "endpoint".

Definition run (w : TWebSocketWorker) : M unit :=
  match dispatcherObject (endpointName w) with
  | Some endpoint =>
      tSystemDebug "Found endpoint: %s" ;;
      tSystemDebug "TWebSocketWorker opcode: %d" ;;
      payloadList ← handleOpcode w endpoint;
      sendPayloads (socketUuid w) payloadList
  | None => ret tt
  end.

End Worker.

(** * Specification vocabulary *)

(** The reactor object's array invariant: the array has [MaxEvents]
    entries and the iterator stays within the events of the last [wait]. *)
Definition iterator_ok (e : TEpoll) : Prop :=
  length (events e) = Z.to_nat MaxEvents /\
  0 <= eventIterator e /\
  eventIterator e <= Z.max (numEvents e) 0 /\
  numEvents e <= MaxEvents.

Section Vocabulary.
Context {P : Platform} {F : Framework}.

(** Total correctness: from [w] the computation returns, and the result
    and the final state satisfy [Q]. *)
Definition wp {A} (m : M A) (Q : A -> World -> Prop) (w : World) : Prop :=
  exists a w', m w = Some (a, w') /\ Q a w'.

(** The registry invariant: no object lives at the null pointer, and every
    entry of the registry is null or points to a live socket filed under
    its own UUID. *)
Definition wf_of (h : gmap N TEpollSocket) (reg : gmap string N) : Prop :=
  h !! NULL = None /\
  forall k p, reg !! k = Some p ->
    p = NULL \/ exists s, h !! p = Some s /\ sock_uuid s = k.

Definition wf (w : World) : Prop :=
  wf_of (heap w) (pollingSockets (reactor w)).

(** The queue entries the reactor has consumed, read off the trace: an
    entry is freed ([delete sd]) at the end of the loop iteration that
    applied or discarded it. *)
Definition consumed (tr : list Effect) : list TSendData.t :=
  omap (fun e => match e with DeleteSendData d => Some d | _ => None end) tr.

Definition for_uuid (u : QByteArray) (d : TSendData.t) : bool :=
  String.eqb (TSendData.uuid d) u.

(** Workers enqueueing a sequence of actions, one after the other. *)
Fixpoint enqueueAll (acts : list TSendData.t) : M unit :=
  match acts with
  | [] => ret tt
  | d :: rest => enqueue d ;; enqueueAll rest
  end.

(** Effects of the poll operations: the system call and the log. *)
Definition benign (e : Effect) : bool :=
  match e with
  | SysEpollCtl _ _ _ _ _ | Log _ _ => true
  | _ => false
  end.

(** What a poll operation leaves alone: the heap, the UUID supply and the
    send queue; the trace grows by system calls and log lines only. *)
Definition poll_step (w w' : World) : Prop :=
  heap w' = heap w /\
  uuidsIssued w' = uuidsIssued w /\
  sendRequests (reactor w') = sendRequests (reactor w) /\
  exists tr, trace w' = trace w ++ tr /\ Forall (fun e => benign e = true) tr.

(** The session handed to the opening worker (lines 242-247). *)
Definition openingSession (header : THttpRequestHeader) : TSession :=
  if negb (String.eqb (cookie header sessionName) EmptyString)
  then findSession (cookie header sessionName)
  else TSession_default.

(** The WebSocket connection an upgrade constructs on descriptor [fd], once
    the handshake response is in its outgoing buffer queue. *)
Definition upgraded (fd : Z) (u : QByteArray) (addr : string)
    (header : THttpRequestHeader) : TEpollSocket :=
  mk_socket fd u addr WebSocket
            [Some (createSendBuffer (handshakeResponse header))] header false.

(** What a lookup in the registry yields: the pointer filed under the key,
    null when there is none. *)
Definition sockOf (reg : gmap string N) (u : QByteArray) : N :=
  default NULL (reg !! u).

(** The registration contract as the specification words it: when the
    kernel answers [EEXIST], [addPoll] reports success and logs no failure. *)
Definition addPoll_EEXIST_is_success (w : World) (p : N) (evmask : Z) : Prop :=
  forall s r k,
    heap w !! p = Some s ->
    tf_epoll_ctl (kernel w) (epollFd (reactor w)) EPOLL_CTL_ADD (sd s)
      (Some (mk_epoll_event evmask p)) = (r, EEXIST, k) ->
    r < 0 ->
    exists w', addPoll p evmask w = Some (true, w') /\
               Forall (fun e => is_error e = false) (trace w').

(** The unregistration order as the specification words it: the first
    thing [deletePoll] does is to remove the descriptor from the kernel's
    interest list, whatever the registry holds. *)
Definition deletePoll_OS_first (w : World) (p : N) : Prop :=
  forall s,
    heap w !! p = Some s ->
    exists res w' r err tr,
      deletePoll p w = Some (res, w') /\
      trace w' = trace w ++ SysEpollCtl EPOLL_CTL_DEL (sd s) None r err :: tr.

(** The queued actions the worker's senders build. *)
Definition sendAction (uuid : QByteArray) (op : Z) (payload : QByteArray)
  : TSendData.t :=
  TSendData.new_buf TSendData.Send uuid
    (Some (createSendBuffer (frameBytes op payload))).

Definition disconnectAction (uuid : QByteArray) : TSendData.t :=
  TSendData.new_buf TSendData.Disconnect uuid None.

(** The translation of an output-list entry into a queued action, in the
    words of the specification: a text payload into a Send of a text frame,
    a binary payload into a Send of a binary frame, a close directive into
    a Disconnect, ping and pong directives into Sends of the corresponding
    control frames. *)
Inductive translates (uuid : QByteArray) : QVariant -> TSendData.t -> Prop :=
| translates_text (text : QString) :
    translates uuid (QVString text)
               (sendAction uuid TWebSocketFrame.TextFrame (toUtf8 text))
| translates_binary (binary : QByteArray) :
    translates uuid (QVByteArray binary)
               (sendAction uuid TWebSocketFrame.BinaryFrame binary)
| translates_close :
    translates uuid (QVInt TWebSocketFrame.Close) (disconnectAction uuid)
| translates_ping :
    translates uuid (QVInt TWebSocketFrame.Ping)
               (sendAction uuid TWebSocketFrame.Ping EmptyString)
| translates_pong :
    translates uuid (QVInt TWebSocketFrame.Pong)
               (sendAction uuid TWebSocketFrame.Pong EmptyString).

(** The action the drain loop enqueues for what an endpoint method put on
    the list. *)
Definition actionOf (uuid : QByteArray) (d : Directive) : TSendData.t :=
  match d with
  | SendText text => sendAction uuid TWebSocketFrame.TextFrame (toUtf8 text)
  | SendBinary binary => sendAction uuid TWebSocketFrame.BinaryFrame binary
  | SendPing => sendAction uuid TWebSocketFrame.Ping EmptyString
  | SendPong => sendAction uuid TWebSocketFrame.Pong EmptyString
  | CloseWebSocket => disconnectAction uuid
  end.

(** The world after a worker has enqueued [acts]. *)
Definition enqueued (acts : list TSendData.t) (w : World) : World :=
  set_reactor (set_sendRequests (sendRequests (reactor w) ++ acts) (reactor w)) w.

(** The two debug lines of a worker whose endpoint resolves (lines 45-46). *)
Definition found_endpoint : list Effect :=
  [Log SystemDebug "Found endpoint: %s";
   Log SystemDebug "TWebSocketWorker opcode: %d"].

(** The opcodes the worker's first switch has a case for. *)
Definition known_opcode (op : Z) : Prop :=
  op = TWebSocketFrame.Continuation \/ op = TWebSocketFrame.TextFrame \/
  op = TWebSocketFrame.BinaryFrame \/ op = TWebSocketFrame.Close \/
  op = TWebSocketFrame.Ping \/ op = TWebSocketFrame.Pong.

(** The handling of an unknown opcode as the specification words it, for
    every frame: the worker logs it. *)
Definition unknown_opcode_is_logged (w : World) (wk : TWebSocketWorker) : Prop :=
  ~ known_opcode (opcode wk) ->
  exists w' tr lvl fmt,
    run wk w = Some (tt, w') /\ trace w' = trace w ++ tr /\ Log lvl fmt ∈ tr.

End Vocabulary.

(** ** A concrete platform and framework, to run the code on *)
Module Demo.

(** The kernel's epoll instance as its interest list; epoll_ctl(2):
    [EPOLL_CTL_ADD] of a registered descriptor fails with [EEXIST],
    [EPOLL_CTL_MOD] and [EPOLL_CTL_DEL] of one that is not registered fail
    with [ENOENT]. Nothing is ever ready: epoll_wait(2) times out. *)
Definition linux_epoll_ctl (k : gmap Z epoll_event) (epfd : Z) (op : EpollOp)
    (fd : Z) (ev : option epoll_event) : Z * Z * gmap Z epoll_event :=
  match op, k !! fd with
  | EPOLL_CTL_ADD, Some _ => (-1, EEXIST, k)
  | EPOLL_CTL_ADD, None =>
      (0, 0, <[fd := default (mk_epoll_event 0 NULL) ev]> k)
  | EPOLL_CTL_MOD, Some _ =>
      (0, 0, <[fd := default (mk_epoll_event 0 NULL) ev]> k)
  | EPOLL_CTL_MOD, None => (-1, ENOENT, k)
  | EPOLL_CTL_DEL, Some _ => (0, 0, delete fd k)
  | EPOLL_CTL_DEL, None => (-1, ENOENT, k)
  end.

#[global] Instance linux : Platform := {|
  Kernel := gmap Z epoll_event;
  tf_epoll_ctl := linux_epoll_ctl;
  tf_epoll_wait := fun k _ _ _ => (0, 0, [], k);
  tf_close := fun k fd => delete fd k;
  tf_epoll_wait_bound := fun _ _ maxevents _ Hpos =>
    conj (Z.lt_le_incl 0 maxevents Hpos) eq_refl
|}.

Definition echo : TWebSocketEndpoint := {|
  onOpen := fun _ => [SendText "welcome"];
  onTextReceived := fun t => [SendText t];
  onBinaryReceived := fun b => [SendBinary b];
  onClose := [];
  onPing := [];
  onPong := []
|}.

#[global] Instance framework : Framework := {|
  createUuid := fun n => "ws-" +:+ pretty n;
  handshakeResponse := fun h =>
    "HTTP/1.1 101 Switching Protocols " +:+ rawHeader h "Sec-WebSocket-Key";
  sessionName := "TFSESSION";
  findSession := fun id => mk_session id [];
  splitPath := fun s => [s];
  toLower := fun s => s;
  fromUtf8 := fun b => b;
  toUtf8 := fun s => s;
  dispatcherObject := fun es =>
    if String.eqb es "chatendpoint" || String.eqb es "endpoint"
    then Some echo else None;
  frameBytes := fun op payload => pretty op +:+ ":" +:+ payload
|}.

(** An HTTP connection on descriptor 7, at address 1 of the heap. *)
Definition http7 : TEpollSocket :=
  mk_socket 7 "conn-a" "10.0.0.1" HTTP [] empty_header false.

Definition reactor0 : TEpoll :=
  mk_TEpoll 3 (replicate (Z.to_nat MaxEvents) (mk_epoll_event 0 NULL))
            false 0 0 ∅ [].

(** A frame with the reserved opcode 3, for a path no endpoint is bound to. *)
Definition stray_frame : TWebSocketWorker :=
  TWebSocketWorker_frame "conn-a" "nosuch" 3 "payload".

(** The same frame for the path of the [echo] endpoint. *)
Definition reserved_frame : TWebSocketWorker :=
  TWebSocketWorker_frame "conn-a" "chat" 3 "payload".

Definition ping_frame : TWebSocketWorker :=
  TWebSocketWorker_frame "conn-a" "chat" TWebSocketFrame.Ping "".

Definition close_frame : TWebSocketWorker :=
  TWebSocketWorker_frame "conn-a" "chat" TWebSocketFrame.Close "".

Definition text_frame : TWebSocketWorker :=
  TWebSocketWorker_frame "conn-a" "chat" TWebSocketFrame.TextFrame "hi".

(** [http7] registered with the kernel and in the registry. *)
Definition world1 : World :=
  mk_World (set_pollingSockets {[ "conn-a" := 1%N ]} reactor0)
           {[ 1%N := http7 ]}
           {[ 7 := mk_epoll_event EPOLL_RESET 1%N ]}
           [] 0.

(** [http7] known to the kernel but not (or no longer) in the registry. *)
Definition world_unregistered : World :=
  mk_World reactor0 {[ 1%N := http7 ]}
           ({[ 7 := mk_epoll_event EPOLL_RESET 1%N ]} : gmap Z epoll_event) [] 0.

Definition upgrade_header : THttpRequestHeader :=
  mk_header [("Sec-WebSocket-Key", "dGhlIHNhbXBsZSBub25jZQ==")]
            [("TFSESSION", "s-42")].

(** The worker that the upgrade of [http7] with [upgrade_header] starts:
    the session found for the cookie has the id of the cookie. *)
Definition opening_worker : TWebSocketWorker :=
  TWebSocketWorker_opening "ws-0" (openingSession upgrade_header).

(** Two sends and a disconnect for the one connection. *)
Definition send_send_disconnect : list TSendData.t :=
  [TSendData.new_buf TSendData.Send "conn-a" (Some (createSendBuffer "b1"));
   TSendData.new_buf TSendData.Send "conn-a" (Some (createSendBuffer "b2"));
   TSendData.new_buf TSendData.Disconnect "conn-a" None].

End Demo.

(** * The rest of the reactor (tepoll.cpp) *)
Section ReactorRest.
Context {P : Platform} {F : Framework}.

(** [TEpoll::TEpoll()] (lines 53-61). [created] is what [epoll_create(1)]
    returned and [arr] the contents of the freshly allocated event array;
    the second component is what the constructor logs. *)
Definition TEpoll_new (created : Z) (arr : list epoll_event)
  : TEpoll * list Effect :=
  (mk_TEpoll created arr false 0 0 ∅ [],
   if created <? 0 then [Log SystemError "Failed epoll_create()"] else []).

(** [TEpoll::next()] (lines 89-92), against the process state. *)
Definition nextM : M N :=
  fun w => match next (reactor w) with
           | Some (p, e) => Some (p, set_reactor e w)
           | None => None
           end.

(** [n] successive calls of [next()]. *)
Fixpoint nextTimes (n : nat) : M (list N) :=
  match n with
  | O => ret []
  | S n' => p ← nextM; ps ← nextTimes n'; ret (p :: ps)
  end.

(** The entries of the registry in the order a [QMapIterator] visits them:
    ascending keys, [QByteArray]s compared byte by byte. *)
Definition key_le (a b : string * N) : Prop := String.leb a.1 b.1 = true.

#[global] Instance key_le_dec : RelDecision key_le :=
  fun a b => decide (String.leb a.1 b.1 = true).

Definition registryEntries (reg : gmap string N) : list (string * N) :=
  merge_sort key_le (map_to_list reg).

(** [TEpoll::releaseAllPollingSockets()] (lines 265-272) *)
Fixpoint deleteLaterEach (entries : list (string * N)) : M unit :=
  match entries with
  | [] => ret tt
  | it :: rest => deleteLater it.2 ;; deleteLaterEach rest
  end.

Definition releaseAllPollingSockets : M unit :=
  e ← getReactor;
  deleteLaterEach (registryEntries (pollingSockets e)) ;;
  modifyReactor (set_pollingSockets ∅).

(** A registry with no null entry. *)
Definition no_null_entry (reg : gmap string N) : Prop :=
  forall k p, reg !! k = Some p -> p <> NULL.

(** A socket is registered when some key of the registry points to it. *)
Definition registered (reg : gmap string N) (p : N) : Prop :=
  exists k, reg !! k = Some p.

(** A connection after the buffers [bs] have been appended to its outgoing
    buffer queue, in order. *)
Definition pushAll (bs : list (option TSendBuffer)) (s : TEpollSocket)
  : TEpollSocket :=
  mk_socket (sd s) (sock_uuid s) (clientAddr s) (mode s) (sendBuf s ++ bs)
            (reqHeader s) (deleteLaterCalled s).

(** A connection retired by the reactor: the descriptor field cleared and
    the object scheduled for deletion. *)
Definition retired (s : TEpollSocket) : TEpollSocket :=
  mark_deleteLater (set_sd 0 s).

(** The two lines of [modifyPoll] and [deletePoll] after the system call:
    which log line follows a result. *)
Definition modifyPoll_log (r : Z) : Effect :=
  if r <? 0
  then Log SystemError "Failed epoll_ctl (EPOLL_CTL_MOD)  sd:%d errno:%d ev:0x%x"
  else Log SystemDebug "OK epoll_ctl (EPOLL_CTL_MOD)  sd:%d".

(** The connection [p], once filed under [u], is out of the registry: a
    lookup of [u] yields null and no key points to [p]. *)
Definition unregistered (w : World) (u : QByteArray) (p : N) : Prop :=
  sockOf (pollingSockets (reactor w)) u = NULL /\
  forall k, pollingSockets (reactor w) !! k <> Some p.

(** What applying, in enqueue order, the entries queued for one connection
    leaves of it. [sends] are the [Send] entries ahead of the first entry
    of another method and [stop] is the rest, [s] is the connection before
    the drain, [w] and [w'] the states before and after. With no other
    entry, the buffers of [sends] have been appended, in order, and the
    connection is still registered. With a [Disconnect] next, the buffers
    were appended first, then the connection was unregistered, its
    descriptor closed and the object retired. With an upgrade next, the
    same without the close. What follows in [stop] has no effect on the
    connection. *)
Definition connection_after (w w' : World) (u : QByteArray) (p : N)
    (s : TEpollSocket) (sends stop : list TSendData.t) : Prop :=
  let s' := pushAll (map TSendData.buffer sends) s in
  match stop with
  | [] =>
      heap w' !! p = Some s' /\ pollingSockets (reactor w') !! u = Some p
  | d :: _ =>
      (TSendData.method d = TSendData.Disconnect ->
       heap w' !! p = Some (retired s') /\ unregistered w' u p /\
       exists tr, trace w' = trace w ++ tr /\ SysClose (sd s) ∈ tr) /\
      (TSendData.method d = TSendData.SwitchToWebSocket ->
       heap w' !! p = Some (retired s') /\ unregistered w' u p)
  end.

(** What one iteration of the drain loop on the entry [d] leaves alone:
    every object the entry is not addressed to; every key of the registry
    but the entry's own and the one issued to a new connection; the fact
    that an object is in no entry of the registry; the fact that the
    entry's UUID yields null; and the trace so far. *)
Definition untouched (d : TSendData.t) (w w' : World) : Prop :=
  (forall q sq, heap w !! q = Some sq ->
     pollingSockets (reactor w) !! TSendData.uuid d <> Some q ->
     heap w' !! q = Some sq) /\
  (forall k, k <> TSendData.uuid d -> k <> createUuid (uuidsIssued w) ->
     pollingSockets (reactor w') !! k = pollingSockets (reactor w) !! k) /\
  (forall q, is_Some (heap w !! q) ->
     (forall k, pollingSockets (reactor w) !! k <> Some q) ->
     forall k, pollingSockets (reactor w') !! k <> Some q) /\
  (sockOf (pollingSockets (reactor w)) (TSendData.uuid d) = NULL ->
   sockOf (pollingSockets (reactor w')) (TSendData.uuid d) = NULL) /\
  (exists tr, trace w' = trace w ++ tr).

End ReactorRest.

(** * The drain loop of the worker on any list (twebsocketworker.cpp) *)
Section WorkerRest.
Context {P : Platform} {F : Framework}.

(** The action the loop over [payloadList] (lines 85-123) enqueues for an
    entry, [None] for an entry that falls to one of the two [default]
    branches. *)
Definition variantAction (uuid : QByteArray) (var : QVariant)
  : option TSendData.t :=
  match var with
  | QVString s => Some (sendAction uuid TWebSocketFrame.TextFrame (toUtf8 s))
  | QVByteArray b => Some (sendAction uuid TWebSocketFrame.BinaryFrame b)
  | QVInt op =>
      if op =? TWebSocketFrame.Close then Some (disconnectAction uuid)
      else if op =? TWebSocketFrame.Ping
      then Some (sendAction uuid TWebSocketFrame.Ping EmptyString)
      else if op =? TWebSocketFrame.Pong
      then Some (sendAction uuid TWebSocketFrame.Pong EmptyString)
      else None
  | QVOther => None
  end.

(** The line the loop logs for an entry, [None] when it logs nothing. *)
Definition variantError (uuid : QByteArray) (var : QVariant) : option Effect :=
  match variantAction uuid var with
  | Some _ => None
  | None => Some (Log AppError "Invalid logic  [%s:%d]")
  end.

(** An action a worker may enqueue: for its own socket, a Send or a
    Disconnect. *)
Definition own_action (wk : TWebSocketWorker) (d : TSendData.t) : Prop :=
  TSendData.uuid d = socketUuid wk /\
  (TSendData.method d = TSendData.Send \/
   TSendData.method d = TSendData.Disconnect).

End WorkerRest.

(** States of the process that the public interface of the event loop
    reaches: construction with an array of [MaxEvents] entries, then
    [wait], [next], and anything that leaves the event array, the event
    count and the iterator alone. *)
Inductive loop_reachable {P : Platform} : World -> Prop :=
| reach_new created arr h k tr n :
    length arr = Z.to_nat MaxEvents ->
    loop_reachable (mk_World (TEpoll_new created arr).1 h k tr n)
| reach_wait w timeout m w' :
    loop_reachable w -> wait timeout w = Some (m, w') -> loop_reachable w'
| reach_next w p w' :
    loop_reachable w -> nextM w = Some (p, w') -> loop_reachable w'
| reach_other w w' :
    loop_reachable w ->
    events (reactor w') = events (reactor w) ->
    numEvents (reactor w') = numEvents (reactor w) ->
    eventIterator (reactor w') = eventIterator (reactor w) ->
    loop_reachable w'.

(** ** More concrete platforms and states *)
Module Scenario.

(** A kernel that reports every registered descriptor as ready, with the
    event it was registered with, up to [maxevents]. *)
Definition ready_wait (k : gmap Z epoll_event) (epfd maxevents timeout : Z)
  : Z * Z * list epoll_event * gmap Z epoll_event :=
  let evs := take (Z.to_nat maxevents) (map snd (map_to_list k)) in
  (Z.of_nat (length evs), 0, evs, k).

Definition ready : Platform := {|
  Kernel := gmap Z epoll_event;
  tf_epoll_ctl := Demo.linux_epoll_ctl;
  tf_epoll_wait := ready_wait;
  tf_close := fun k fd => delete fd k;
  tf_epoll_wait_bound :=
    ltac:(intros k epfd maxevents timeout Hpos; unfold ready_wait;
          cbv zeta; rewrite length_take; lia)
|}.

(** A kernel out of resources: every call fails. *)
Definition failing : Platform := {|
  Kernel := unit;
  tf_epoll_ctl := fun k _ _ _ _ => (-1, 12, k);
  tf_epoll_wait := fun k _ _ _ => (-1, 9, [], k);
  tf_close := fun k _ => k;
  tf_epoll_wait_bound :=
    ltac:(intros k epfd maxevents timeout Hpos; simpl; split;
          [lia | reflexivity])
|}.

Definition ws9 : TEpollSocket :=
  mk_socket 9 "conn-b" "10.0.0.2" WebSocket [] empty_header false.

(** Two registered connections, both ready. *)
Definition ready_world : @World ready :=
  @mk_World ready
    (set_pollingSockets {[ "conn-a" := 1%N; "conn-b" := 2%N ]} Demo.reactor0)
    {[ 1%N := Demo.http7; 2%N := ws9 ]}
    {[ 7 := mk_epoll_event EPOLLIN 1%N;
       9 := mk_epoll_event (Z.lor EPOLLIN EPOLLOUT) 2%N ]}
    [] 0.

(** The same two connections on the kernel of [Demo.linux]. *)
Definition two_world : @World Demo.linux :=
  @mk_World Demo.linux
    (set_pollingSockets {[ "conn-a" := 1%N; "conn-b" := 2%N ]} Demo.reactor0)
    {[ 1%N := Demo.http7; 2%N := ws9 ]}
    {[ 7 := mk_epoll_event EPOLLIN 1%N;
       9 := mk_epoll_event (Z.lor EPOLLIN EPOLLOUT) 2%N ]}
    [] 0.

(** The reactor object after a [wait] in [ready_world]: two events. *)
Definition after_wait : TEpoll :=
  mk_TEpoll 3
    ([mk_epoll_event EPOLLIN 1%N; mk_epoll_event (Z.lor EPOLLIN EPOLLOUT) 2%N]
     ++ replicate 126 (mk_epoll_event 0 NULL))
    false 2 0 ∅ [].

(** A freshly constructed reactor beside the heap and the kernel of
    [ready_world], and the state one [wait] leads to from there. *)
Definition new_world : @World ready :=
  @mk_World ready (TEpoll_new 3 (replicate 128 (mk_epoll_event 0 NULL))).1
            (heap ready_world) (kernel ready_world) [] 0.

Definition waited_world : @World ready :=
  @mk_World ready after_wait (heap ready_world) (kernel ready_world)
            [SysEpollWait 0 2 0] 0.

(** [Demo.http7] on the heap, known neither to the kernel nor to the
    registry yet. *)
Definition fresh_world : @World Demo.linux :=
  @mk_World Demo.linux Demo.reactor0 {[ 1%N := Demo.http7 ]} ∅ [] 0.

(** A registered connection whose descriptor field is already cleared. *)
Definition closed0 : TEpollSocket :=
  mk_socket 0 "conn-a" "10.0.0.1" HTTP [] empty_header false.

Definition closed_world : @World Demo.linux :=
  @mk_World Demo.linux
    (set_pollingSockets {[ "conn-a" := 1%N ]} Demo.reactor0)
    {[ 1%N := closed0 ]} ∅ [] 0.

(** Entries for [Demo.http7]: two sends, and what may follow a disconnect. *)
Definition two_sends : list TSendData.t :=
  [TSendData.new_buf TSendData.Send "conn-a" (Some (createSendBuffer "b1"));
   TSendData.new_buf TSendData.Send "conn-a" (Some (createSendBuffer "b2"))].

Definition afterwards : list TSendData.t :=
  [TSendData.new_buf TSendData.Send "conn-a" (Some (createSendBuffer "late"));
   TSendData.new_buf TSendData.Disconnect "conn-a" None].

(** Entries of two connections interleaved: for ["conn-a"] two sends, a
    disconnect and a late send, with entries for ["conn-b"] in between. *)
Definition interleaved : list TSendData.t :=
  [TSendData.new_buf TSendData.Send "conn-a" (Some (createSendBuffer "b1"));
   TSendData.new_buf TSendData.Send "conn-b" (Some (createSendBuffer "x"));
   TSendData.new_buf TSendData.Send "conn-a" (Some (createSendBuffer "b2"));
   TSendData.new_buf TSendData.Disconnect "conn-b" None;
   TSendData.new_buf TSendData.Disconnect "conn-a" None;
   TSendData.new_buf TSendData.Send "conn-a" (Some (createSendBuffer "late"))].

(** A disconnect for ["conn-a"] and a send for it that lost the race. *)
Definition disconnect_a : TSendData.t :=
  TSendData.new_buf TSendData.Disconnect "conn-a" None.

Definition late_send_a : TSendData.t :=
  TSendData.new_buf TSendData.Send "conn-a"
    (Some (createSendBuffer "late bytes")).

(** One connection on the heap, and a kernel that refuses every call. *)
Definition failing_world : @World failing :=
  @mk_World failing Demo.reactor0 {[ 1%N := Demo.http7 ]} tt [] 0.

End Scenario.

(** * Loading the application libraries (tapplicationserverbase.cpp) *)
Module TApplicationServerBase.

(** The platforms the preprocessor distinguishes at lines 46-54. *)
Inductive OS := Q_OS_WIN | Q_OS_LINUX | Q_OS_DARWIN | Q_OS_OTHER.

(** What [loadLibraries] does to the outside, in program order. *)
Inductive Event :=
| Logged (lvl : LogLevel) (fmt : string)
| SetCurrent (dir : QString)
| LibraryLoad (name : QString) (loaded : bool)
| UrlRouteInstantiate
| SqlDatabasePoolInstantiate
| KvsDatabasePoolInstantiate.

(** What one call finds outside the program: the build's platform, the two
    paths of the application, which directories exist
    ([QDir(path).exists()]) and whether a library of a given name loads
    ([QLibrary(name).load()]). *)
Record Env := mk_Env {
  os : OS;
  libPath : QString;
  webRootPath : QString;
  dirExists : QString -> bool;
  load : QString -> bool
}.

(** The static flag [libLoaded] (line 26) and the events so far. *)
Record Process := mk_Process {
  libLoaded : bool;
  events : list Event
}.

Definition note (es : list Event) (st : Process) : Process :=
  mk_Process (libLoaded st) (events st ++ es).

Definition set_libLoaded (b : bool) (st : Process) : Process :=
  mk_Process b (events st).

(** Lines 45-54. *)
Definition libs (o : OS) : list QString :=
  match o with
  | Q_OS_WIN => ["controller"; "view"]
  | Q_OS_LINUX => ["libcontroller.so"; "libview.so"]
  | Q_OS_DARWIN => ["libcontroller.dylib"; "libview.dylib"]
  | Q_OS_OTHER => ["libcontroller"; "libview"]
  end.

(** The loop at lines 56-64. *)
Fixpoint loadEach (env : Env) (names : list QString) (st : Process) : Process :=
  match names with
  | [] => st
  | name :: rest =>
      loadEach env rest
        (if load env name
         then set_libLoaded true
                (note [LibraryLoad name true;
                       Logged SystemDebug "Library loaded: %s"] st)
         else note [LibraryLoad name false; Logged SystemError "%s"] st)
  end.

(** Lines 69-74, the part every successful call ends with. *)
Definition enterWebRoot (env : Env) : list Event :=
  [SetCurrent (webRootPath env); UrlRouteInstantiate;
   SqlDatabasePoolInstantiate; KvsDatabasePoolInstantiate].

(** [TApplicationServerBase::loadLibraries()] (lines 29-75). The result of
    [QDir::setCurrent] is ignored by the code, so the change of directory
    is an event and nothing more; the trace macro of line 31 and the query
    of the available controllers (line 66) have no event of their own, the
    log line that follows the query has. *)
Definition loadLibraries (env : Env) (st : Process) : bool * Process :=
  if negb (libLoaded st) then
    if dirExists env (libPath env) then
      let st1 := note [SetCurrent (libPath env)] st in
      let st2 := loadEach env (libs (os env)) st1 in
      let st3 := note [Logged SystemDebug "Available controllers: %s"] st2 in
      (true, note (enterWebRoot env) st3)
    else
      (false, note [Logged SystemError "lib directory not found"] st)
  else (true, note (enterWebRoot env) st).

(** One call after the other, each in the environment it finds. *)
Fixpoint loadLibrariesEach (envs : list Env) (st : Process)
  : list bool * Process :=
  match envs with
  | [] => ([], st)
  | env :: rest =>
      let '(r, st1) := loadLibraries env st in
      let '(rs, st2) := loadLibrariesEach rest st1 in
      (r :: rs, st2)
  end.

(** The load attempts among some events. *)
Definition attempts (es : list Event) : list (QString * bool) :=
  omap (fun e => match e with
                 | LibraryLoad name ok => Some (name, ok)
                 | _ => None
                 end) es.

(** A build for Linux whose lib directory holds a controller library only. *)
Definition controller_only : Env :=
  mk_Env Q_OS_LINUX "/srv/app/lib" "/srv/app"
         (fun d => String.eqb d "/srv/app/lib" || String.eqb d "/srv/app")
         (fun n => String.eqb n "libcontroller.so").

(** The same application once the view library is in place. *)
Definition complete : Env :=
  mk_Env Q_OS_LINUX "/srv/app/lib" "/srv/app"
         (fun d => String.eqb d "/srv/app/lib" || String.eqb d "/srv/app")
         (fun _ => true).

(** An application without a lib directory. *)
Definition no_lib_dir : Env :=
  mk_Env Q_OS_LINUX "/srv/app/lib" "/srv/app"
         (fun d => String.eqb d "/srv/app") (fun _ => true).

Definition start : Process := mk_Process false [].

End TApplicationServerBase.

(** * Properties *)

(** ** The event iterator (lines 89-109) *)

Lemma canReceive_guard (e : TEpoll) :
  eventIterator e <= 0 -> canReceive e = Some false.
Proof.
  intros Hle. unfold canReceive.
  destruct (Z.leb_spec (eventIterator e) 0) as [_ | Hgt]; [reflexivity | lia].
Qed.

Lemma canSend_guard (e : TEpoll) :
  eventIterator e <= 0 -> canSend e = Some false.
Proof.
  intros Hle. unfold canSend.
  destruct (Z.leb_spec (eventIterator e) 0) as [_ | Hgt]; [reflexivity | lia].
Qed.

(** C10. While [next()] has not been called since the last [wait()] (the
    event iterator is at or below zero), [canReceive()] and [canSend()]
    return [false], whatever the event array holds, also an array with no
    entry at all: the array is not read, and no access is out of bounds. *)
Theorem canReceive_canSend_before_next (e : TEpoll) (arr : list epoll_event) :
  eventIterator e <= 0 ->
  canReceive (set_events arr e) = Some false /\
  canSend (set_events arr e) = Some false.
Proof.
  intros Hle. split.
  - apply canReceive_guard. exact Hle.
  - apply canSend_guard. exact Hle.
Qed.

Lemma canReceive_canSend_before_next_witness :
  eventIterator Demo.reactor0 <= 0 /\
  canReceive (set_events [] Demo.reactor0) = Some false /\
  canSend (set_events [] Demo.reactor0) = Some false.
Proof.
  split; [simpl; lia |].
  apply (canReceive_canSend_before_next Demo.reactor0 []). simpl. lia.
Defined.

(** [next] from an index that is not negative. *)
Lemma next_nonneg (e : TEpoll) :
  0 <= eventIterator e ->
  next e =
    if eventIterator e <? numEvents e then
      ev ← events e !! Z.to_nat (eventIterator e);
      Some (ev_data_ptr ev, set_eventIterator (eventIterator e + 1) e)
    else Some (NULL, e).
Proof.
  intros H0. unfold next.
  destruct (Z.ltb_spec (eventIterator e) 0); [lia | reflexivity].
Qed.

(** Under the array invariant the queries never read out of bounds, and
    [next] keeps the invariant. *)
Lemma canReceive_in_bounds (e : TEpoll) :
  iterator_ok e -> is_Some (canReceive e) /\ is_Some (canSend e).
Proof.
  intros (Hlen & H0 & Hit & Hn). unfold canReceive, canSend.
  destruct (Z.leb_spec (eventIterator e) 0) as [_ | Hgt]; [split; eauto |].
  destruct (lookup_lt_is_Some_2 (events e) (Z.to_nat (eventIterator e - 1)))
    as [ev Hev].
  { rewrite Hlen. unfold MaxEvents in *. lia. }
  rewrite Hev. simpl. split; eauto.
Qed.

Lemma next_iterator_ok (e : TEpoll) :
  iterator_ok e ->
  exists p e', next e = Some (p, e') /\ iterator_ok e'.
Proof.
  intros (Hlen & H0 & Hit & Hn). rewrite (next_nonneg e H0).
  destruct (Z.ltb_spec (eventIterator e) (numEvents e)) as [Hlt | Hge].
  - destruct (lookup_lt_is_Some_2 (events e) (Z.to_nat (eventIterator e)))
      as [ev Hev].
    { rewrite Hlen. unfold MaxEvents in *. lia. }
    rewrite Hev. simpl. eexists _, _. split; [reflexivity |].
    unfold iterator_ok. simpl. repeat split; try assumption; lia.
  - eexists _, _. split; [reflexivity |].
    unfold iterator_ok. repeat split; assumption.
Qed.

(** ** Reasoning rules for the monad *)
Section Rules.
Context {P : Platform} {F : Framework}.
Implicit Types (w : World) (e : Effect).

Lemma wp_ret {A} (a : A) (Q : A -> World -> Prop) w :
  Q a w -> wp (ret a) Q w.
Proof. intros HQ. exists a, w. split; [reflexivity | exact HQ]. Qed.

Lemma wp_bind {A B} (m : M A) (k : A -> M B) (Q : B -> World -> Prop) w :
  wp m (fun a w' => wp (k a) Q w') w -> wp (m ≫= k) Q w.
Proof.
  intros (a & w' & Hm & b & w'' & Hk & HQ).
  exists b, w''. split; [| exact HQ].
  unfold mbind, M_bind, bind. rewrite Hm. exact Hk.
Qed.

Lemma wp_mono {A} (m : M A) (Q Q' : A -> World -> Prop) w :
  wp m Q w -> (forall a w', Q a w' -> Q' a w') -> wp m Q' w.
Proof. intros (a & w' & Hm & HQ) Himp. exists a, w'. auto. Qed.

Lemma wp_and {A} (m : M A) (Q1 Q2 : A -> World -> Prop) w :
  wp m Q1 w -> wp m Q2 w -> wp m (fun a w' => Q1 a w' /\ Q2 a w') w.
Proof.
  intros (a & w1 & H1 & HQ1) (b & w2 & H2 & HQ2).
  rewrite H1 in H2. injection H2 as <- <-. exists a, w1. auto.
Qed.

Lemma wp_modify (f : World -> World) (Q : unit -> World -> Prop) w :
  Q tt (f w) -> wp (modify f) Q w.
Proof. intros HQ. exists tt, (f w). split; [reflexivity | exact HQ]. Qed.

Lemma wp_get (Q : World -> World -> Prop) w :
  Q w w -> wp get Q w.
Proof. intros HQ. exists w, w. split; [reflexivity | exact HQ]. Qed.

Lemma wp_getReactor (Q : TEpoll -> World -> Prop) w :
  Q (reactor w) w -> wp getReactor Q w.
Proof. intros HQ. exists (reactor w), w. split; [reflexivity | exact HQ]. Qed.

Lemma wp_modifyReactor (f : TEpoll -> TEpoll) (Q : unit -> World -> Prop) w :
  Q tt (set_reactor (f (reactor w)) w) -> wp (modifyReactor f) Q w.
Proof. intros HQ. apply wp_modify. exact HQ. Qed.

Lemma wp_emit e (Q : unit -> World -> Prop) w :
  Q tt (set_trace (trace w ++ [e]) w) -> wp (emit e) Q w.
Proof. intros HQ. apply wp_modify. exact HQ. Qed.

Lemma wp_when (b : bool) (m : M unit) (Q : unit -> World -> Prop) w :
  (b = true -> wp m Q w) -> (b = false -> Q tt w) -> wp (when b m) Q w.
Proof.
  intros Ht Hf. destruct b; simpl.
  - apply Ht. reflexivity.
  - apply wp_ret. apply Hf. reflexivity.
Qed.

Lemma wp_deref (p : N) (s : TEpollSocket) (Q : TEpollSocket -> World -> Prop) w :
  heap w !! p = Some s -> Q s w -> wp (deref p) Q w.
Proof.
  intros Hp HQ. exists s, w. split; [| exact HQ].
  unfold deref. rewrite Hp. reflexivity.
Qed.

Lemma wp_update (p : N) (f : TEpollSocket -> TEpollSocket) (s : TEpollSocket)
    (Q : unit -> World -> Prop) w :
  heap w !! p = Some s ->
  Q tt (set_heap (<[p := f s]> (heap w)) w) ->
  wp (update p f) Q w.
Proof.
  intros Hp HQ. unfold update. apply wp_bind.
  apply (wp_deref p s); [exact Hp |]. apply wp_modify. exact HQ.
Qed.

Lemma wp_epoll_ctl (op : EpollOp) (fd : Z) (ev : option epoll_event)
    (Q : Z * Z -> World -> Prop) w :
  (forall r err k,
     tf_epoll_ctl (kernel w) (epollFd (reactor w)) op fd ev = (r, err, k) ->
     Q (r, err)
       (set_trace (trace w ++ [SysEpollCtl op fd ev r err]) (set_kernel k w))) ->
  wp (epoll_ctl op fd ev) Q w.
Proof.
  intros HQ. unfold wp, epoll_ctl.
  destruct (tf_epoll_ctl (kernel w) (epollFd (reactor w)) op fd ev)
    as [[r err] k] eqn:Hctl.
  eexists _, _. split; [reflexivity |]. apply HQ. reflexivity.
Qed.

Lemma poll_step_refl w : poll_step w w.
Proof.
  repeat split. exists []. split; [by rewrite app_nil_r | constructor].
Qed.

Lemma poll_step_trans w1 w2 w3 :
  poll_step w1 w2 -> poll_step w2 w3 -> poll_step w1 w3.
Proof.
  intros (Hh & Hu & Hq & tr & Ht & Hb) (Hh' & Hu' & Hq' & tr' & Ht' & Hb').
  repeat split; try congruence.
  exists (tr ++ tr'). split.
  - rewrite Ht', Ht. by rewrite app_assoc.
  - apply Forall_app. split; assumption.
Qed.

End Rules.

(** ** [wait] establishes the array invariant *)
Section EventLoop.
Context {P : Platform} {F : Framework}.

Lemma wait_iterator_ok (w : World) (timeout : Z) :
  length (events (reactor w)) = Z.to_nat MaxEvents ->
  wp (wait timeout)
     (fun n w' =>
        iterator_ok (reactor w') /\
        eventIterator (reactor w') = 0 /\
        numEvents (reactor w') = n) w.
Proof.
  intros Hlen. unfold wait.
  apply wp_bind, wp_modifyReactor, wp_bind, wp_modifyReactor, wp_bind, wp_get.
  simpl.
  pose proof (tf_epoll_wait_bound (kernel w) (epollFd (reactor w)) MaxEvents
                timeout) as Hbound.
  destruct (tf_epoll_wait (kernel w) (epollFd (reactor w)) MaxEvents timeout)
    as [[[n err] evs] k].
  destruct Hbound as [Hn Hevs]; [reflexivity |].
  apply wp_bind, wp_modify, wp_bind, wp_emit, wp_bind, wp_modifyReactor.
  apply wp_bind, wp_modifyReactor, wp_bind.
  assert (Hok :
            iterator_ok
              (set_polling false
                 (set_numEvents n
                    (set_events (evs ++ drop (length evs) (events (reactor w)))
                       (set_polling true (set_eventIterator 0 (reactor w))))))).
  { unfold iterator_ok. simpl.
    rewrite length_app, length_drop, Hlen. unfold MaxEvents in *.
    repeat split; lia. }
  apply wp_when; intros _.
  - apply wp_emit, wp_ret. simpl. split; [exact Hok | auto].
  - apply wp_ret. simpl. split; [exact Hok | auto].
Qed.

End EventLoop.

(** ** The poll operations *)
Section PollOperations.
Context {P : Platform} {F : Framework}.
Implicit Types (w : World) (p : N) (s : TEpollSocket).

(** A poll operation that made one system call and wrote one log line, or
    made the system call alone. *)
Ltac call_and_log :=
  repeat split; eexists [_; _]; simpl;
  (split; [by rewrite <- app_assoc | repeat constructor]).
Ltac call_alone :=
  repeat split; eexists [_]; simpl;
  (split; [reflexivity | repeat constructor]).

Lemma modifyPoll_spec w p s (evmask : Z) :
  heap w !! p = Some s ->
  wp (modifyPoll p evmask)
     (fun _ w' => poll_step w w' /\
                  pollingSockets (reactor w') = pollingSockets (reactor w)) w.
Proof.
  intros Hp. unfold modifyPoll.
  destruct (lnot evmask).
  { apply wp_ret. split; [apply poll_step_refl | reflexivity]. }
  apply wp_bind, (wp_deref p s); [exact Hp |].
  apply wp_bind, wp_epoll_ctl. intros r err k _.
  apply wp_bind.
  destruct (r <? 0); apply wp_emit, wp_ret; simpl;
    (split; [call_and_log | reflexivity]).
Qed.

Lemma deletePoll_spec w p s :
  heap w !! p = Some s ->
  wp (deletePoll p)
     (fun _ w' =>
        poll_step w w' /\
        pollingSockets (reactor w') =
          delete (sock_uuid s) (pollingSockets (reactor w)) /\
        (is_Some (pollingSockets (reactor w) !! sock_uuid s) ->
         exists r err tr,
           trace w' = trace w ++ SysEpollCtl EPOLL_CTL_DEL (sd s) None r err :: tr))
     w.
Proof.
  intros Hp. unfold deletePoll.
  apply wp_bind, (wp_deref p s); [exact Hp |].
  apply wp_bind, wp_getReactor.
  destruct (pollingSockets (reactor w) !! sock_uuid s) as [q |] eqn:Hreg.
  - apply wp_bind, wp_modifyReactor.
    apply wp_bind, wp_epoll_ctl. intros r err k _.
    apply wp_bind.
    destruct ((r <? 0) && negb (err =? ENOENT)); apply wp_emit, wp_ret; simpl;
      (split; [call_and_log | split; [reflexivity |]]);
      intros _; eexists r, err, [_]; by rewrite <- app_assoc.
  - apply wp_ret. split; [apply poll_step_refl |].
    split; [by rewrite delete_id |].
    intros [? ?]. congruence.
Qed.

Lemma addPoll_spec w p s (evmask : Z) :
  heap w !! p = Some s ->
  wp (addPoll p evmask)
     (fun _ w' =>
        poll_step w w' /\
        (pollingSockets (reactor w') = pollingSockets (reactor w) \/
         pollingSockets (reactor w') =
           <[sock_uuid s := p]> (pollingSockets (reactor w)))) w.
Proof.
  intros Hp. unfold addPoll.
  destruct (lnot evmask).
  { apply wp_ret. split; [apply poll_step_refl | by left]. }
  apply wp_bind, (wp_deref p s); [exact Hp |].
  apply wp_bind, wp_epoll_ctl. intros r err k _.
  apply wp_bind.
  destruct (r <? 0).
  - apply wp_when; intros _.
    + apply wp_emit, wp_ret. simpl. split; [call_and_log | by left].
    + apply wp_ret. simpl. split; [call_alone | by left].
  - apply wp_bind, wp_emit, wp_modifyReactor, wp_ret. simpl.
    split; [call_and_log | by right].
Qed.

Lemma EPOLL_RESET_nonzero : EPOLL_RESET <> 0.
Proof. vm_compute. discriminate. Qed.

(** [addPoll] with the kernel's answer in hand: the system call is the
    first thing added to the trace, the result is [!ret], and the socket
    is filed in the registry exactly when [ret >= 0]. *)
Lemma addPoll_outcome w p s (evmask : Z) :
  heap w !! p = Some s ->
  evmask <> 0 ->
  wp (addPoll p evmask)
     (fun res w' =>
        poll_step w w' /\
        exists r err lg,
          trace w' = trace w ++
            SysEpollCtl EPOLL_CTL_ADD (sd s) (Some (mk_epoll_event evmask p))
                        r err :: lg /\
          res = lnot r /\
          pollingSockets (reactor w') =
            if r <? 0 then pollingSockets (reactor w)
            else <[sock_uuid s := p]> (pollingSockets (reactor w))) w.
Proof.
  intros Hp Hmask. unfold addPoll.
  destruct (lnot evmask) eqn:Hz; [apply Z.eqb_eq in Hz; done |].
  apply wp_bind, (wp_deref p s); [exact Hp |].
  apply wp_bind, wp_epoll_ctl. intros r err k _.
  apply wp_bind.
  destruct (r <? 0) eqn:Hr.
  - apply wp_when; intros _.
    + apply wp_emit, wp_ret. simpl. split.
      * repeat split; eexists [_; _]; simpl;
          (split; [by rewrite <- app_assoc | repeat constructor]).
      * eexists r, err, [_]. rewrite Hr, <- app_assoc. auto.
    + apply wp_ret. simpl. split.
      * repeat split; eexists [_]; simpl;
          (split; [reflexivity | repeat constructor]).
      * exists r, err, []. rewrite Hr. auto.
  - apply wp_bind, wp_emit, wp_modifyReactor, wp_ret. simpl. split.
    + repeat split; eexists [_; _]; simpl;
        (split; [by rewrite <- app_assoc | repeat constructor]).
    + eexists r, err, [_]. rewrite Hr, <- app_assoc. auto.
Qed.

End PollOperations.

(** ** Registration and unregistration (lines 133-194) *)
Section Registration.
Context {P : Platform} {F : Framework}.
Implicit Types (w : World) (p : N) (s : TEpollSocket).

(** C4, as amended. When the kernel reports that the descriptor is already
    registered ([EEXIST]), [addPoll] logs nothing (the trace grows by the
    system call alone), but it returns [false] and leaves the registry and
    the heap as they were: the outcome is not logged as a failure, and it
    is not reported as success either. *)
Theorem addPoll_EEXIST_quiet_but_false w p s (evmask r : Z) (k : Kernel) :
  evmask <> 0 ->
  heap w !! p = Some s ->
  tf_epoll_ctl (kernel w) (epollFd (reactor w)) EPOLL_CTL_ADD (sd s)
    (Some (mk_epoll_event evmask p)) = (r, EEXIST, k) ->
  r < 0 ->
  exists w',
    addPoll p evmask w = Some (false, w') /\
    reactor w' = reactor w /\
    heap w' = heap w /\
    kernel w' = k /\
    trace w' = trace w ++
      [SysEpollCtl EPOLL_CTL_ADD (sd s) (Some (mk_epoll_event evmask p)) r EEXIST].
Proof.
  intros Hev Hp Hctl Hr.
  unfold addPoll, lnot.
  destruct (Z.eqb_spec evmask 0) as [-> | _]; [done |].
  unfold mbind, M_bind, bind, deref, epoll_ctl. rewrite Hp, Hctl.
  destruct (Z.ltb_spec r 0) as [_ | Hge]; [| lia].
  simpl. destruct (Z.eqb_spec r 0) as [-> | _]; [lia |].
  eexists. split; [reflexivity |]. simpl. auto.
Qed.

(** C5, as amended. [deletePoll] goes to the registry first: when the
    registry has no entry for the socket it returns [false] and nothing
    else happens, no system call and no log line. When it has one, the
    entry is removed and [EPOLL_CTL_DEL] is issued next; the result is
    [!ret], and the one log line is an error exactly when the call failed
    with something other than [ENOENT]. *)
Theorem deletePoll_registry_then_OS w p s :
  heap w !! p = Some s ->
  (pollingSockets (reactor w) !! sock_uuid s = None ->
   deletePoll p w = Some (false, w)) /\
  (forall q r err k,
     pollingSockets (reactor w) !! sock_uuid s = Some q ->
     tf_epoll_ctl (kernel w) (epollFd (reactor w)) EPOLL_CTL_DEL (sd s) None
       = (r, err, k) ->
     exists w' lvl fmt,
       deletePoll p w = Some (lnot r, w') /\
       pollingSockets (reactor w') =
         delete (sock_uuid s) (pollingSockets (reactor w)) /\
       heap w' = heap w /\
       kernel w' = k /\
       trace w' = trace w ++
         [SysEpollCtl EPOLL_CTL_DEL (sd s) None r err; Log lvl fmt] /\
       (lvl = SystemError <-> r < 0 /\ err <> ENOENT)).
Proof.
  intros Hp. split.
  - intros Hreg. unfold deletePoll, mbind, M_bind, bind, deref, getReactor.
    rewrite Hp, Hreg. reflexivity.
  - intros q r err k Hreg Hctl.
    unfold deletePoll, mbind, M_bind, bind, deref, getReactor.
    rewrite Hp, Hreg. simpl. unfold epoll_ctl. simpl. rewrite Hctl.
    destruct (Z.ltb_spec r 0) as [Hlt | Hge];
      destruct (Z.eqb_spec err ENOENT) as [He | He]; simpl;
      eexists _, _, _; (split; [reflexivity |]); simpl;
      rewrite <- app_assoc; simpl;
      repeat (split; [reflexivity |]);
      split; try discriminate; try reflexivity; intros; lia || tauto.
Qed.

End Registration.

(** The kernel already lists descriptor 7 in [Demo.world1]: registering the
    socket again is answered with [EEXIST]. *)
Lemma addPoll_EEXIST_quiet_but_false_witness :
  EPOLL_RESET <> 0 /\
  heap Demo.world1 !! 1%N = Some Demo.http7 /\
  tf_epoll_ctl (kernel Demo.world1) (epollFd (reactor Demo.world1))
    EPOLL_CTL_ADD 7 (Some (mk_epoll_event EPOLL_RESET 1%N))
    = (-1, EEXIST, kernel Demo.world1) /\
  exists w',
    addPoll 1%N EPOLL_RESET Demo.world1 = Some (false, w') /\
    reactor w' = reactor Demo.world1 /\
    heap w' = heap Demo.world1 /\
    kernel w' = kernel Demo.world1 /\
    trace w' = trace Demo.world1 ++
      [SysEpollCtl EPOLL_CTL_ADD 7 (Some (mk_epoll_event EPOLL_RESET 1%N))
         (-1) EEXIST].
Proof.
  assert (H1 : EPOLL_RESET <> 0) by (vm_compute; discriminate).
  assert (H2 : heap Demo.world1 !! 1%N = Some Demo.http7) by reflexivity.
  assert (H3 : tf_epoll_ctl (kernel Demo.world1) (epollFd (reactor Demo.world1))
                 EPOLL_CTL_ADD (sd Demo.http7)
                 (Some (mk_epoll_event EPOLL_RESET 1%N))
               = (-1, EEXIST, kernel Demo.world1)) by reflexivity.
  repeat split; try assumption.
  apply (addPoll_EEXIST_quiet_but_false Demo.world1 1%N Demo.http7 EPOLL_RESET
           (-1) (kernel Demo.world1) H1 H2 H3).
  lia.
Defined.

(** C4 as stated fails: on [EEXIST] the call returns [false]. *)
Lemma addPoll_EEXIST_counterexample :
  ~ addPoll_EEXIST_is_success Demo.world1 1%N EPOLL_RESET.
Proof.
  intros Hclaim.
  destruct (Hclaim Demo.http7 (-1) (kernel Demo.world1))
    as (w' & Hrun & _); [reflexivity | reflexivity | lia |].
  vm_compute in Hrun. discriminate Hrun.
Qed.

Lemma deletePoll_registry_then_OS_witness :
  heap Demo.world_unregistered !! 1%N = Some Demo.http7 /\
  deletePoll 1%N Demo.world_unregistered = Some (false, Demo.world_unregistered) /\
  exists w' lvl fmt,
    deletePoll 1%N Demo.world1 = Some (lnot 0, w') /\
    pollingSockets (reactor w') =
      delete "conn-a" (pollingSockets (reactor Demo.world1)) /\
    heap w' = heap Demo.world1 /\
    kernel w' = delete 7 (kernel Demo.world1) /\
    trace w' = trace Demo.world1 ++
      [SysEpollCtl EPOLL_CTL_DEL 7 None 0 0; Log lvl fmt] /\
    (lvl = SystemError <-> 0 < 0 /\ 0 <> ENOENT).
Proof.
  assert (H1 : heap Demo.world_unregistered !! 1%N = Some Demo.http7)
    by reflexivity.
  assert (H2 : heap Demo.world1 !! 1%N = Some Demo.http7) by reflexivity.
  split; [exact H1 |]. split.
  - apply (proj1 (deletePoll_registry_then_OS Demo.world_unregistered 1%N
                    Demo.http7 H1)).
    reflexivity.
  - apply (proj2 (deletePoll_registry_then_OS Demo.world1 1%N Demo.http7 H2)
             1%N 0 0 (delete 7 (kernel Demo.world1))); reflexivity.
Defined.

(** C5 as stated fails: for a socket the registry does not hold,
    [deletePoll] returns before any [EPOLL_CTL_DEL] is issued, and the
    descriptor stays in the kernel's interest list. *)
Lemma deletePoll_OS_first_counterexample :
  ~ deletePoll_OS_first Demo.world_unregistered 1%N.
Proof.
  intros Hclaim.
  destruct (Hclaim Demo.http7) as (res & w' & r & err & tr & Hrun & Htr);
    [reflexivity |].
  vm_compute in Hrun. injection Hrun as <- <-.
  simpl in Htr. discriminate Htr.
Qed.

(** ** The registry invariant *)
Section RegistryInvariant.
Implicit Types (h : gmap N TEpollSocket) (reg : gmap string N).

Lemma wf_of_delete h reg k : wf_of h reg -> wf_of h (delete k reg).
Proof.
  intros [Hnull Hreg]. split; [exact Hnull |].
  intros k' p Hk. apply lookup_delete_Some in Hk as [_ Hk]. eauto.
Qed.

Lemma wf_of_insert_null h reg k : wf_of h reg -> wf_of h (<[k := NULL]> reg).
Proof.
  intros [Hnull Hreg]. split; [exact Hnull |].
  intros k' p Hk. apply lookup_insert_Some in Hk as [[_ <-] | [_ Hk]]; eauto.
Qed.

Lemma wf_of_insert h reg p s :
  wf_of h reg -> h !! p = Some s -> wf_of h (<[sock_uuid s := p]> reg).
Proof.
  intros [Hnull Hreg] Hp. split; [exact Hnull |].
  intros k' q Hk. apply lookup_insert_Some in Hk as [[<- <-] | [_ Hk]]; eauto.
Qed.

Lemma wf_of_update h reg p s s' :
  wf_of h reg -> h !! p = Some s -> sock_uuid s' = sock_uuid s ->
  wf_of (<[p := s']> h) reg.
Proof.
  intros [Hnull Hreg] Hp Hu. split.
  - rewrite lookup_insert_ne; [exact Hnull |]. intros ->. congruence.
  - intros k q Hk. destruct (Hreg k q Hk) as [-> | (t & Hq & Ht)]; [by left |].
    right. destruct (decide (p = q)) as [-> | Hne].
    + exists s'. rewrite lookup_insert_eq. split; [reflexivity | congruence].
    + exists t. by rewrite lookup_insert_ne.
Qed.

Lemma wf_of_alloc h reg p s :
  wf_of h reg -> h !! p = None -> p <> NULL -> wf_of (<[p := s]> h) reg.
Proof.
  intros [Hnull Hreg] Hp Hne. split.
  - by rewrite lookup_insert_ne.
  - intros k q Hk. destruct (Hreg k q Hk) as [-> | (t & Hq & Ht)]; [by left |].
    right. exists t. split; [| exact Ht].
    rewrite lookup_insert_ne; [exact Hq |]. intros ->. congruence.
Qed.

(** Under the invariant a socket is filed under no key but its own UUID. *)
Lemma wf_of_delete_gone h reg p s :
  wf_of h reg -> h !! p = Some s -> p <> NULL ->
  forall k, delete (sock_uuid s) reg !! k <> Some p.
Proof.
  intros [Hnull Hreg] Hp Hne k Hk.
  apply lookup_delete_Some in Hk as [Hneq Hk].
  destruct (Hreg k p Hk) as [-> | (t & Ht & Hu)]; [done |].
  congruence.
Qed.

End RegistryInvariant.

(** ** Draining the send queue (lines 203-262) *)
Section Dispatch.
Context {P : Platform} {F : Framework}.
Implicit Types (w : World) (p : N) (s : TEpollSocket) (d : TSendData.t).

(** The registry starts empty, and registration and unregistration keep
    the invariant. *)
Lemma wf_of_empty : wf_of ∅ ∅.
Proof. split; [apply lookup_empty |]. intros k p Hk. by rewrite lookup_empty in Hk. Qed.

Lemma addPoll_preserves_wf w p s (evmask : Z) :
  wf w -> heap w !! p = Some s ->
  wp (addPoll p evmask) (fun _ w' => wf w') w.
Proof.
  intros Hwf Hp.
  eapply wp_mono; [apply (addPoll_spec w p s evmask Hp) |].
  intros _ w' [(Hh & _) [Hreg | Hreg]]; unfold wf; rewrite Hh, Hreg.
  - exact Hwf.
  - by apply wf_of_insert.
Qed.

Lemma deletePoll_preserves_wf w p s :
  wf w -> heap w !! p = Some s ->
  wp (deletePoll p) (fun _ w' => wf w') w.
Proof.
  intros Hwf Hp.
  eapply wp_mono; [apply (deletePoll_spec w p s Hp) |].
  intros _ w' ((Hh & _) & Hreg & _). unfold wf. rewrite Hh, Hreg.
  by apply wf_of_delete.
Qed.

(** The loop body on an entry whose socket is registered and open. *)
Lemma dispatchOne_live w d p s :
  pollingSockets (reactor w) !! TSendData.uuid d = Some p ->
  p <> NULL ->
  heap w !! p = Some s ->
  0 < sd s ->
  dispatchOne d w = (applySendData d p ;; emit (DeleteSendData d)) w.
Proof.
  intros Hreg Hne Hp Hsd.
  unfold dispatchOne, pollingSockets_index, mbind, M_bind, bind, getReactor.
  rewrite Hreg. simpl.
  destruct (N.eqb_spec p NULL) as [-> | _]; [done |].
  unfold deref. rewrite Hp. simpl.
  destruct (Z.ltb_spec 0 (sd s)) as [_ | Hle]; [reflexivity | lia].
Qed.

(** The loop body on an entry whose UUID the registry does not hold. *)
Lemma dispatchOne_absent w d :
  pollingSockets (reactor w) !! TSendData.uuid d = None ->
  dispatchOne d w =
    Some (tt, set_trace (trace w ++ [DeleteSendData d])
                (set_reactor
                   (set_pollingSockets
                      (<[TSendData.uuid d := NULL]> (pollingSockets (reactor w)))
                      (reactor w)) w)).
Proof.
  intros Hreg.
  unfold dispatchOne, pollingSockets_index, mbind, M_bind, bind, getReactor.
  rewrite Hreg. reflexivity.
Qed.

Lemma sockOf_insert_null (reg : gmap string N) (u u' : string) :
  reg !! u = None ->
  sockOf (<[u := NULL]> reg) u' = sockOf reg u'.
Proof.
  intros Hreg. unfold sockOf.
  destruct (decide (u = u')) as [<- | Hne].
  - rewrite lookup_insert_eq, Hreg. reflexivity.
  - by rewrite lookup_insert_ne.
Qed.

(** The loop body on an entry whose UUID the registry files under the null
    pointer. *)
Lemma dispatchOne_null w d :
  pollingSockets (reactor w) !! TSendData.uuid d = Some NULL ->
  dispatchOne d w = Some (tt, set_trace (trace w ++ [DeleteSendData d]) w).
Proof.
  intros Hreg.
  unfold dispatchOne, pollingSockets_index, mbind, M_bind, bind, getReactor.
  rewrite Hreg. reflexivity.
Qed.

(** The loop body on an entry whose socket has no open descriptor. *)
Lemma dispatchOne_closed w d p s :
  pollingSockets (reactor w) !! TSendData.uuid d = Some p ->
  heap w !! p = Some s ->
  sd s <= 0 ->
  dispatchOne d w = Some (tt, set_trace (trace w ++ [DeleteSendData d]) w).
Proof.
  intros Hreg Hp Hsd.
  unfold dispatchOne, pollingSockets_index, mbind, M_bind, bind, getReactor.
  rewrite Hreg. simpl.
  destruct (N.eqb_spec p NULL) as [-> | _]; [reflexivity |].
  unfold deref. rewrite Hp. simpl.
  destruct (Z.ltb_spec 0 (sd s)) as [Hopen | _]; [lia | reflexivity].
Qed.

(** What does hold of a discarded [Send]. A [Send] entry whose UUID yields
    null in the registry (the registry has no entry for it, or only the
    null pointer an earlier lookup left) is discarded: the loop body
    returns, the heap, the kernel's interest list and the send queue are
    the same, every lookup in the registry yields what it yielded before,
    and the trace grows by the freeing of the entry alone. The registry
    itself is not the same when it had no entry for the UUID
    ([dispatchOne_absent]). *)
Lemma send_to_absent_uuid_is_discarded w (u : QByteArray)
    (buf : option TSendBuffer) :
  sockOf (pollingSockets (reactor w)) u = NULL ->
  let d := TSendData.new_buf TSendData.Send u buf in
  exists w',
    dispatchOne d w = Some (tt, w') /\
    heap w' = heap w /\
    kernel w' = kernel w /\
    sendRequests (reactor w') = sendRequests (reactor w) /\
    (forall u', sockOf (pollingSockets (reactor w')) u' =
                sockOf (pollingSockets (reactor w)) u') /\
    trace w' = trace w ++ [DeleteSendData d].
Proof.
  intros Habsent d. unfold sockOf in Habsent.
  destruct (pollingSockets (reactor w) !! u) as [p |] eqn:Hreg.
  - simpl in Habsent. subst p.
    eexists. split; [apply dispatchOne_null; exact Hreg |].
    simpl. auto.
  - eexists. split; [apply dispatchOne_absent; exact Hreg |].
    simpl. repeat split; try reflexivity.
    intros u'. apply sockOf_insert_null. exact Hreg.
Qed.

(** *** The three actions on a live socket *)

Lemma applySend_spec w d p s :
  heap w !! p = Some s ->
  TSendData.method d = TSendData.Send ->
  wp (applySendData d p)
     (fun _ w' =>
        heap w' = <[p := push_sendBuf (TSendData.buffer d) s]> (heap w) /\
        pollingSockets (reactor w') = pollingSockets (reactor w) /\
        uuidsIssued w' = uuidsIssued w /\
        sendRequests (reactor w') = sendRequests (reactor w) /\
        exists tr, trace w' = trace w ++ tr /\
                   Forall (fun e => benign e = true) tr) w.
Proof.
  intros Hp Hm. unfold applySendData. rewrite Hm. simpl.
  apply wp_bind. unfold enqueueSendData. apply (wp_update p _ s); [exact Hp |].
  apply wp_bind.
  eapply wp_mono.
  { apply (modifyPoll_spec _ p (push_sendBuf (TSendData.buffer d) s)).
    simpl. apply lookup_insert_eq. }
  intros _ w' [(Hh & Hu & Hq & Htr) Hreg]. apply wp_ret.
  simpl in *. auto.
Qed.

Lemma applyDisconnect_spec w d p s :
  heap w !! p = Some s ->
  TSendData.method d = TSendData.Disconnect ->
  wp (applySendData d p)
     (fun _ w' =>
        heap w' = <[p := mark_deleteLater (set_sd 0 s)]> (heap w) /\
        pollingSockets (reactor w') =
          delete (sock_uuid s) (pollingSockets (reactor w)) /\
        uuidsIssued w' = uuidsIssued w /\
        sendRequests (reactor w') = sendRequests (reactor w) /\
        exists tr, trace w' =
                     trace w ++ tr ++
                     (if 0 <? sd s then [SysClose (sd s)] else []) ++
                     [DeleteLater p] /\
                   Forall (fun e => benign e = true) tr) w.
Proof.
  intros Hp Hm. unfold applySendData. rewrite Hm. simpl.
  apply wp_bind.
  eapply wp_mono; [apply (deletePoll_spec _ p s); exact Hp |].
  intros _ w1 ((Hh & Hu & Hq & tr & Htr & Hben) & Hreg & _).
  assert (Hp1 : heap w1 !! p = Some s) by (rewrite Hh; exact Hp).
  apply wp_bind. unfold close.
  apply wp_bind, (wp_deref p s); [exact Hp1 |].
  apply wp_bind, wp_when.
  - intros Hopen. apply wp_bind, wp_modify, wp_emit.
    apply (wp_update p _ s); [exact Hp1 |].
    unfold deleteLater. apply wp_bind.
    apply (wp_update p _ (set_sd 0 s)); [simpl; apply lookup_insert_eq |].
    apply wp_emit. simpl. rewrite Hopen, Hh, Htr, insert_insert_eq.
    repeat split; try assumption.
    exists tr. split; [| exact Hben].
    by rewrite <- !app_assoc.
  - intros Hclosed.
    apply (wp_update p _ s); [exact Hp1 |].
    unfold deleteLater. apply wp_bind.
    apply (wp_update p _ (set_sd 0 s)); [simpl; apply lookup_insert_eq |].
    apply wp_emit. simpl. rewrite Hclosed, Hh, Htr, insert_insert_eq.
    repeat split; try assumption.
    exists tr. split; [| exact Hben].
    by rewrite <- !app_assoc.
Qed.

Lemma new_TEpollWebSocket_spec w (fd : Z) (addr : string)
    (hdr : THttpRequestHeader) :
  wp (new_TEpollWebSocket fd addr hdr)
     (fun ws w' =>
        ws <> NULL /\ heap w !! ws = None /\
        w' = set_heap
               (<[ws := mk_socket fd (createUuid (uuidsIssued w)) addr WebSocket
                          [] hdr false]> (heap w))
               (set_uuidsIssued (S (uuidsIssued w)) w)) w.
Proof.
  unfold new_TEpollWebSocket.
  apply wp_bind, wp_get, wp_bind, wp_modify, wp_bind, wp_modify, wp_ret.
  pose proof (is_fresh ({[NULL]} ∪ dom (heap w))) as Hfresh.
  split; [| split; [| reflexivity]].
  - intros Heq. apply Hfresh. rewrite Heq. set_solver.
  - apply not_elem_of_dom. set_solver.
Qed.

Lemma applySwitch_spec w d p s :
  heap w !! p = Some s ->
  TSendData.method d = TSendData.SwitchToWebSocket ->
  wp (applySendData d p)
     (fun _ w' =>
        exists ws tr1 tr2,
          let wsock := upgraded (sd s) (createUuid (uuidsIssued w))
                                (clientAddr s) (TSendData.header d) in
          ws <> NULL /\ heap w !! ws = None /\
          heap w' = <[ws := wsock]>
                      (<[p := mark_deleteLater (set_sd 0 s)]> (heap w)) /\
          (pollingSockets (reactor w') =
             delete (sock_uuid s) (pollingSockets (reactor w)) \/
           pollingSockets (reactor w') =
             <[sock_uuid wsock := ws]>
               (delete (sock_uuid s) (pollingSockets (reactor w)))) /\
          uuidsIssued w' = S (uuidsIssued w) /\
          sendRequests (reactor w') = sendRequests (reactor w) /\
          trace w' =
            trace w ++
            [Log SystemDebug "Switch to WebSocket"; Log SystemDebug "secKey: %s"]
            ++ tr1 ++ [DeleteLater p] ++ tr2 ++
            [StartWorker (TWebSocketWorker_opening (sock_uuid wsock)
                            (openingSession (TSendData.header d)))] /\
          Forall (fun e => benign e = true) tr1 /\
          Forall (fun e => benign e = true) tr2 /\
          (is_Some (pollingSockets (reactor w) !! sock_uuid s) ->
           exists r err, SysEpollCtl EPOLL_CTL_DEL (sd s) None r err ∈ tr1) /\
          (exists r err lg,
             tr2 = SysEpollCtl EPOLL_CTL_ADD (sd s)
                     (Some (mk_epoll_event EPOLL_RESET ws)) r err :: lg /\
             pollingSockets (reactor w') =
               if r <? 0
               then delete (sock_uuid s) (pollingSockets (reactor w))
               else <[sock_uuid wsock := ws]>
                      (delete (sock_uuid s) (pollingSockets (reactor w))))) w.
Proof.
  intros Hp Hm. unfold applySendData. rewrite Hm. simpl.
  apply wp_bind, wp_emit, wp_bind, wp_emit.
  apply wp_bind, (wp_deref p s); [exact Hp |].
  apply wp_bind.
  eapply wp_mono; [apply new_TEpollWebSocket_spec |].
  intros ws w1 (Hws & Hfresh & ->).
  assert (Hne : ws <> p) by (intros ->; simpl in Hfresh; congruence).
  apply wp_bind.
  eapply wp_mono.
  { apply (deletePoll_spec _ p s). simpl. by rewrite lookup_insert_ne. }
  intros _ w2 ((Hh2 & Hu2 & Hq2 & tr1 & Htr1 & Hben1) & Hreg2 & Hdel2).
  simpl in *.
  assert (Hp2 : heap w2 !! p = Some s)
    by (rewrite Hh2; by rewrite lookup_insert_ne).
  apply wp_bind. unfold setSocketDescpriter.
  apply (wp_update p _ s); [exact Hp2 |].
  apply wp_bind. unfold deleteLater. apply wp_bind.
  apply (wp_update p _ (set_sd 0 s)); [simpl; apply lookup_insert_eq |].
  apply wp_emit. simpl.
  set (ws0 := mk_socket (sd s) (createUuid (uuidsIssued w)) (clientAddr s)
                        WebSocket [] (TSendData.header d) false).
  assert (Hws0 : <[p := mark_deleteLater (set_sd 0 s)]>
                   (<[p := set_sd 0 s]> (heap w2)) !! ws = Some ws0).
  { rewrite !lookup_insert_ne by congruence. rewrite Hh2.
    apply lookup_insert_eq. }
  apply wp_bind, (wp_deref ws ws0); [exact Hws0 |].
  apply wp_bind. unfold enqueueSendData.
  apply (wp_update ws _ ws0); [exact Hws0 |].
  apply wp_bind.
  eapply wp_mono.
  { apply (addPoll_outcome _ ws
             (push_sendBuf
                (Some (createSendBuffer (handshakeResponse (reqHeader ws0)))) ws0)).
    - simpl. apply lookup_insert_eq.
    - apply EPOLL_RESET_nonzero. }
  intros _ w3 [(Hh3 & Hu3 & Hq3 & tr2 & Htr2 & Hben2)
                 (r2 & err2 & lg & Hadd & _ & Hreg3')]. simpl in *.
  assert (Hreg3 : pollingSockets (reactor w3) = pollingSockets (reactor w2) \/
                  pollingSockets (reactor w3) =
                    <[createUuid (uuidsIssued w) := ws]>
                      (pollingSockets (reactor w2)))
    by (rewrite Hreg3'; destruct (r2 <? 0); auto).
  unfold startWorkerForOpening.
  apply wp_bind, (wp_deref ws (upgraded (sd s) (createUuid (uuidsIssued w))
                                 (clientAddr s) (TSendData.header d))).
  { rewrite Hh3. apply lookup_insert_eq. }
  apply wp_emit. simpl.
  exists ws, tr1, tr2. simpl.
  split; [exact Hws |]. split; [exact Hfresh |]. split.
  { rewrite Hh3, Hh2, insert_insert_eq.
    rewrite (insert_insert_ne _ p ws) by congruence.
    rewrite insert_insert_eq. reflexivity. }
  split.
  { destruct Hreg3 as [-> | ->]; [left | right]; by rewrite Hreg2. }
  split; [congruence |]. split; [congruence |].
  split; [rewrite Htr2, Htr1; by rewrite <- !app_assoc |].
  split; [exact Hben1 |]. split; [exact Hben2 |].
  split.
  { intros Hsome. destruct (Hdel2 Hsome) as (r & err & tr & Heq).
    rewrite Htr1 in Heq. apply app_inv_head in Heq. subst tr1.
    exists r, err. apply list_elem_of_here. }
  exists r2, err2, lg. split.
  - rewrite Htr2 in Hadd. by apply app_inv_head in Hadd.
  - rewrite Hreg3', Hreg2. reflexivity.
Qed.

(** *** The loop keeps the invariant and consumes the queue in order *)

Lemma consumed_app (tr1 tr2 : list Effect) :
  consumed (tr1 ++ tr2) = consumed tr1 ++ consumed tr2.
Proof. apply omap_app. Qed.

Lemma consumed_benign (tr : list Effect) :
  Forall (fun e => benign e = true) tr -> consumed tr = [].
Proof.
  induction 1 as [| e tr He _ IH]; [reflexivity |].
  change (e :: tr) with ([e] ++ tr).
  rewrite consumed_app, IH. destruct e; simpl in *; congruence.
Qed.

Lemma applySendData_keeps w d p s :
  wf w ->
  heap w !! p = Some s ->
  wp (applySendData d p)
     (fun _ w' =>
        wf w' /\
        sendRequests (reactor w') = sendRequests (reactor w) /\
        consumed (trace w') = consumed (trace w)) w.
Proof.
  intros Hwf Hp.
  destruct (decide (TSendData.method d = TSendData.Send)) as [Hs | Hns].
  { eapply wp_mono; [apply (applySend_spec w d p s Hp Hs) |].
    intros _ w' (Hh & Hreg & _ & Hq & tr & Htr & Hben).
    split; [| split; [exact Hq |]].
    - unfold wf. rewrite Hh, Hreg. by eapply wf_of_update.
    - rewrite Htr, consumed_app, (consumed_benign tr Hben). apply app_nil_r. }
  destruct (decide (TSendData.method d = TSendData.Disconnect)) as [Hd | Hnd].
  { eapply wp_mono; [apply (applyDisconnect_spec w d p s Hp Hd) |].
    intros _ w' (Hh & Hreg & _ & Hq & tr & Htr & Hben).
    split; [| split; [exact Hq |]].
    - unfold wf. rewrite Hh, Hreg. apply wf_of_delete. by eapply wf_of_update.
    - rewrite Htr, !consumed_app, (consumed_benign tr Hben).
      destruct (0 <? sd s); simpl; apply app_nil_r. }
  destruct (decide (TSendData.method d = TSendData.SwitchToWebSocket))
    as [Hu | Hnu].
  { eapply wp_mono; [apply (applySwitch_spec w d p s Hp Hu) |].
    intros _ w' (ws & tr1 & tr2 & Hws & Hfresh & Hh & Hreg & _ & Hq & Htr
                 & Hben1 & Hben2 & _).
    assert (Hne : ws <> p) by (intros ->; congruence).
    assert (Hwf' : wf_of (heap w')
                     (delete (sock_uuid s) (pollingSockets (reactor w)))).
    { rewrite Hh. apply wf_of_alloc; [| by rewrite lookup_insert_ne | exact Hws].
      apply wf_of_delete. by eapply wf_of_update. }
    split; [| split; [exact Hq |]].
    - unfold wf. destruct Hreg as [-> | ->]; [exact Hwf' |].
      apply (wf_of_insert _ _ ws
               (upgraded (sd s) (createUuid (uuidsIssued w)) (clientAddr s)
                         (TSendData.header d))); [exact Hwf' |].
      rewrite Hh. apply lookup_insert_eq.
    - rewrite Htr, !consumed_app, (consumed_benign tr1 Hben1),
        (consumed_benign tr2 Hben2). simpl. apply app_nil_r. }
  unfold applySendData.
  apply Z.eqb_neq in Hns, Hnd, Hnu. rewrite Hns, Hnd, Hnu.
  apply wp_bind, wp_emit.
  destruct (TSendData.buffer d) as [b |]; [apply wp_emit | apply wp_ret];
    simpl; (split; [exact Hwf |]); (split; [reflexivity |]);
    rewrite ?consumed_app; simpl; by rewrite ?app_nil_r.
Qed.

Lemma dispatchOne_spec w d :
  wf w ->
  wp (dispatchOne d)
     (fun _ w' =>
        wf w' /\
        sendRequests (reactor w') = sendRequests (reactor w) /\
        consumed (trace w') = consumed (trace w) ++ [d]) w.
Proof.
  intros Hwf.
  destruct (pollingSockets (reactor w) !! TSendData.uuid d) as [p |] eqn:Hreg.
  - destruct (proj2 Hwf _ _ Hreg) as [-> | (s & Hp & Hu)].
    + unfold wp. rewrite (dispatchOne_null w d Hreg).
      eexists _, _. split; [reflexivity |]. simpl.
      split; [exact Hwf |]. split; [reflexivity |].
      by rewrite consumed_app.
    + assert (Hne : p <> NULL) by (intros ->; destruct Hwf; congruence).
      destruct (Z.ltb_spec 0 (sd s)) as [Hopen | Hclosed].
      * unfold wp. rewrite (dispatchOne_live w d p s Hreg Hne Hp Hopen).
        apply wp_bind.
        eapply wp_mono; [apply (applySendData_keeps w d p s Hwf Hp) |].
        intros _ w' (Hwf' & Hq & Hc). apply wp_emit. simpl.
        split; [exact Hwf' |]. split; [exact Hq |].
        by rewrite consumed_app, Hc.
      * unfold wp, dispatchOne, pollingSockets_index, mbind, M_bind, bind,
          getReactor.
        rewrite Hreg. simpl.
        destruct (N.eqb_spec p NULL) as [-> | _]; [done |].
        unfold deref. rewrite Hp. simpl.
        destruct (Z.ltb_spec 0 (sd s)) as [Hopen | _]; [lia |].
        simpl. eexists _, _. split; [reflexivity |]. simpl.
        split; [exact Hwf |]. split; [reflexivity |].
        by rewrite consumed_app.
  - unfold wp. rewrite (dispatchOne_absent w d Hreg).
    eexists _, _. split; [reflexivity |]. simpl.
    split; [| split; [reflexivity | by rewrite consumed_app]].
    unfold wf. simpl. by apply wf_of_insert_null.
Qed.

Lemma dispatchList_spec (l : list TSendData.t) w :
  wf w ->
  wp (dispatchList l)
     (fun _ w' =>
        wf w' /\
        sendRequests (reactor w') = sendRequests (reactor w) /\
        consumed (trace w') = consumed (trace w) ++ l) w.
Proof.
  revert w. induction l as [| d l IH]; intros w Hwf; simpl.
  - apply wp_ret. split; [exact Hwf |]. split; [reflexivity |].
    by rewrite app_nil_r.
  - apply wp_bind.
    eapply wp_mono; [apply (dispatchOne_spec w d Hwf) |].
    intros _ w1 (Hwf1 & Hq1 & Hc1).
    eapply wp_mono; [apply (IH w1 Hwf1) |].
    intros _ w2 (Hwf2 & Hq2 & Hc2).
    split; [exact Hwf2 |]. split; [congruence |].
    rewrite Hc2, Hc1, <- app_assoc. reflexivity.
Qed.

Lemma enqueueAll_spec (acts : list TSendData.t) w :
  wp (enqueueAll acts)
     (fun _ w' =>
        w' = set_reactor
               (set_sendRequests (sendRequests (reactor w) ++ acts) (reactor w))
               w) w.
Proof.
  revert w. induction acts as [| d acts IH]; intros w; simpl.
  - apply wp_ret. rewrite app_nil_r. by destruct w as [[] ? ? ? ?].
  - apply wp_bind. unfold enqueue. apply wp_modifyReactor.
    eapply wp_mono; [apply IH |].
    intros _ w' ->. simpl. by rewrite <- app_assoc.
Qed.

Lemma dispatchList_app (l1 l2 : list TSendData.t) w :
  dispatchList (l1 ++ l2) w = (dispatchList l1 ;; dispatchList l2) w.
Proof.
  revert w. induction l1 as [| d l1 IH]; intros w; simpl; [reflexivity |].
  unfold mbind, M_bind, bind in *.
  destruct (dispatchOne d w) as [[[] w1] |]; [apply IH | reflexivity].
Qed.

(** *** One connection among the entries of all *)

Lemma pushAll_nil s : pushAll [] s = s.
Proof. unfold pushAll. rewrite app_nil_r. by destruct s. Qed.

Lemma pushAll_push (b : option TSendBuffer) (bs : list (option TSendBuffer)) s :
  pushAll bs (push_sendBuf b s) = pushAll (b :: bs) s.
Proof. unfold pushAll, push_sendBuf. simpl. by rewrite <- app_assoc. Qed.

(** A discarded entry leaves everything alone. *)
Lemma untouched_by_discard w d :
  untouched d w (set_trace (trace w ++ [DeleteSendData d]) w).
Proof. repeat split; simpl; eauto. Qed.

Lemma untouched_then_discard d w w' :
  untouched d w w' ->
  untouched d w (set_trace (trace w' ++ [DeleteSendData d]) w').
Proof.
  intros (H1 & H2 & H3 & H4 & tr & Htr). repeat split; simpl; auto.
  rewrite Htr, <- app_assoc. eauto.
Qed.

(** An applied entry leaves alone what it is not addressed to. *)
Lemma applySendData_untouched w d p s :
  wf w ->
  heap w !! p = Some s ->
  pollingSockets (reactor w) !! TSendData.uuid d = Some p ->
  wp (applySendData d p) (fun _ w' => wf w' /\ untouched d w w') w.
Proof.
  intros Hwf Hp Hreg.
  assert (Hne : p <> NULL) by (intros ->; destruct Hwf; congruence).
  assert (Hu : sock_uuid s = TSendData.uuid d).
  { destruct (proj2 Hwf _ _ Hreg) as [-> | (t & Ht & Hu)]; [done | congruence]. }
  assert (Hlive : sockOf (pollingSockets (reactor w)) (TSendData.uuid d) <> NULL)
    by (unfold sockOf; rewrite Hreg; exact Hne).
  destruct (decide (TSendData.method d = TSendData.Send)) as [Hs | Hns].
  { eapply wp_mono; [apply (applySend_spec w d p s Hp Hs) |].
    intros _ w' (Hh & Hr & _ & _ & tr & Htr & _).
    split; [unfold wf; rewrite Hh, Hr; by eapply wf_of_update |].
    split; [| split; [| split; [| split]]].
    - intros q sq Hq Hnq. rewrite Hh, lookup_insert_ne; [exact Hq | congruence].
    - intros k _ _. by rewrite Hr.
    - intros q _ Hfree k. rewrite Hr. apply Hfree.
    - done.
    - eauto. }
  destruct (decide (TSendData.method d = TSendData.Disconnect)) as [Hd | Hnd].
  { eapply wp_mono; [apply (applyDisconnect_spec w d p s Hp Hd) |].
    intros _ w' (Hh & Hr & _ & _ & tr & Htr & _).
    split.
    { unfold wf. rewrite Hh, Hr. apply wf_of_delete. by eapply wf_of_update. }
    split; [| split; [| split; [| split]]].
    - intros q sq Hq Hnq. rewrite Hh, lookup_insert_ne; [exact Hq | congruence].
    - intros k Hk _. rewrite Hr, Hu. by rewrite lookup_delete_ne.
    - intros q _ Hfree k. rewrite Hr. intros Hk.
      apply lookup_delete_Some in Hk as [_ Hk]. by apply (Hfree k).
    - done.
    - eauto. }
  destruct (decide (TSendData.method d = TSendData.SwitchToWebSocket))
    as [Hsw | Hnsw].
  { eapply wp_mono; [apply (applySwitch_spec w d p s Hp Hsw) |].
    intros _ w' (ws & tr1 & tr2 & Hws & Hfresh & Hh & Hr & _ & _ & Htr & _).
    assert (Hwsp : ws <> p) by (intros ->; congruence).
    assert (Hwf' : wf_of (heap w')
                     (delete (sock_uuid s) (pollingSockets (reactor w)))).
    { rewrite Hh. apply wf_of_alloc; [| by rewrite lookup_insert_ne | exact Hws].
      apply wf_of_delete. by eapply wf_of_update. }
    split.
    { unfold wf. destruct Hr as [-> | ->]; [exact Hwf' |].
      apply (wf_of_insert _ _ ws
               (upgraded (sd s) (createUuid (uuidsIssued w)) (clientAddr s)
                         (TSendData.header d))); [exact Hwf' |].
      rewrite Hh. apply lookup_insert_eq. }
    split; [| split; [| split; [| split]]].
    - intros q sq Hq Hnq. rewrite Hh.
      rewrite !lookup_insert_ne; [exact Hq | congruence | congruence].
    - intros k Hk Hk'. destruct Hr as [-> | ->].
      + rewrite Hu. by rewrite lookup_delete_ne.
      + simpl. rewrite lookup_insert_ne by congruence.
        rewrite Hu. by rewrite lookup_delete_ne.
    - intros q [sq Hq] Hfree k Hk.
      assert (Hold : delete (sock_uuid s) (pollingSockets (reactor w)) !! k
                     <> Some q).
      { intros Hk'. apply lookup_delete_Some in Hk' as [_ Hk'].
        by apply (Hfree k). }
      destruct Hr as [Hr | Hr]; rewrite Hr in Hk; [done |].
      apply lookup_insert_Some in Hk as [[_ <-] | [_ Hk]]; [congruence | done].
    - done.
    - rewrite Htr. eauto. }
  unfold applySendData.
  apply Z.eqb_neq in Hns, Hnd, Hnsw. rewrite Hns, Hnd, Hnsw.
  apply wp_bind, wp_emit.
  destruct (TSendData.buffer d) as [b |]; [apply wp_emit | apply wp_ret];
    (split; [exact Hwf |]); repeat split; simpl; eauto;
    rewrite <- ?app_assoc; eauto.
Qed.

Lemma dispatchOne_untouched w d :
  wf w ->
  wp (dispatchOne d) (fun _ w' => wf w' /\ untouched d w w') w.
Proof.
  intros Hwf.
  destruct (pollingSockets (reactor w) !! TSendData.uuid d) as [p |] eqn:Hreg.
  - destruct (proj2 Hwf _ _ Hreg) as [-> | (s & Hp & Hu)].
    + unfold wp. rewrite (dispatchOne_null w d Hreg).
      eexists _, _. split; [reflexivity |].
      split; [exact Hwf | apply untouched_by_discard].
    + assert (Hne : p <> NULL) by (intros ->; destruct Hwf; congruence).
      destruct (Z.ltb_spec 0 (sd s)) as [Hopen | Hclosed].
      * unfold wp. rewrite (dispatchOne_live w d p s Hreg Hne Hp Hopen).
        apply wp_bind.
        eapply wp_mono; [apply (applySendData_untouched w d p s Hwf Hp Hreg) |].
        intros _ w' (Hwf' & Hun). apply wp_emit.
        split; [exact Hwf' | by apply untouched_then_discard].
      * unfold wp. rewrite (dispatchOne_closed w d p s Hreg Hp Hclosed).
        eexists _, _. split; [reflexivity |].
        split; [exact Hwf | apply untouched_by_discard].
  - unfold wp. rewrite (dispatchOne_absent w d Hreg).
    eexists _, _. split; [reflexivity |]. split.
    { unfold wf. simpl. by apply wf_of_insert_null. }
    split; [| split; [| split; [| split]]]; simpl.
    + auto.
    + intros k Hk _. by rewrite lookup_insert_ne.
    + intros q [sq Hq] Hfree k Hk.
      apply lookup_insert_Some in Hk as [[_ <-] | [_ Hk]].
      * destruct Hwf. congruence.
      * by apply (Hfree k).
    + intros _. unfold sockOf. by rewrite lookup_insert_eq.
    + eauto.
Qed.

(** Once a connection is retired and out of the registry, nothing the
    loop applies later reaches it. *)
Lemma dispatchList_retired (l : list TSendData.t) (u : QByteArray) p sf w w' :
  wf w ->
  (forall n, createUuid n <> u) ->
  heap w !! p = Some sf ->
  unregistered w u p ->
  dispatchList l w = Some (tt, w') ->
  heap w' !! p = Some sf /\ unregistered w' u p /\
  exists tr, trace w' = trace w ++ tr.
Proof.
  intros Hwf Hfresh. revert w Hwf.
  induction l as [| d l IH]; intros w Hwf Hp [Hu Hfree] Hrun; simpl in Hrun.
  - injection Hrun as <-. repeat split; auto. exists []. by rewrite app_nil_r.
  - destruct (dispatchOne_untouched w d Hwf)
      as ([] & w1 & Hone & Hwf1 & H1 & H2 & H3 & H4 & tr1 & Htr1).
    unfold mbind, M_bind, bind in Hrun. rewrite Hone in Hrun.
    assert (Hp1 : heap w1 !! p = Some sf) by (apply H1; [exact Hp | apply Hfree]).
    assert (Hun1 : unregistered w1 u p).
    { split; [| apply H3; [by rewrite Hp | exact Hfree]].
      destruct (decide (u = TSendData.uuid d)) as [-> | Hne].
      - by apply H4.
      - unfold sockOf in *. rewrite H2; [exact Hu | exact Hne | apply not_eq_sym, Hfresh]. }
    destruct (IH w1 Hwf1 Hp1 Hun1 Hrun) as (Hp' & Hun' & tr & Htr).
    split; [exact Hp' |]. split; [exact Hun' |].
    exists (tr1 ++ tr). by rewrite Htr, Htr1, <- app_assoc.
Qed.

(** The loop body on an entry for a registered, open connection. *)
Lemma dispatchOne_applied w d p s :
  wf w ->
  pollingSockets (reactor w) !! TSendData.uuid d = Some p ->
  heap w !! p = Some s ->
  0 < sd s ->
  exists w1 tr,
    dispatchOne d w = Some (tt, w1) /\ wf w1 /\ trace w1 = trace w ++ tr /\
    (TSendData.method d = TSendData.Send ->
     heap w1 !! p = Some (push_sendBuf (TSendData.buffer d) s) /\
     pollingSockets (reactor w1) !! TSendData.uuid d = Some p) /\
    (TSendData.method d = TSendData.Disconnect ->
     heap w1 !! p = Some (retired s) /\
     unregistered w1 (TSendData.uuid d) p /\
     SysClose (sd s) ∈ tr) /\
    (TSendData.method d = TSendData.SwitchToWebSocket ->
     createUuid (uuidsIssued w) <> TSendData.uuid d ->
     heap w1 !! p = Some (retired s) /\
     unregistered w1 (TSendData.uuid d) p).
Proof.
  intros Hwf Hreg Hp Hopen.
  assert (Hne : p <> NULL) by (intros ->; destruct Hwf; congruence).
  assert (Hu : sock_uuid s = TSendData.uuid d).
  { destruct (proj2 Hwf _ _ Hreg) as [-> | (t & Ht & Hu)]; [done | congruence]. }
  assert (Hgone : forall k, delete (TSendData.uuid d)
                              (pollingSockets (reactor w)) !! k <> Some p).
  { rewrite <- Hu. by apply (wf_of_delete_gone (heap w)). }
  destruct (dispatchOne_untouched w d Hwf)
    as ([] & w1 & Hone & Hwf1 & _ & _ & _ & _ & tr & Htr).
  exists w1, tr. split; [exact Hone |]. split; [exact Hwf1 |].
  split; [exact Htr |].
  rewrite (dispatchOne_live w d p s Hreg Hne Hp Hopen) in Hone.
  unfold mbind, M_bind, bind in Hone.
  split; [| split].
  - intros Hm.
    destruct (applySend_spec w d p s Hp Hm)
      as ([] & w2 & Hrun & Hh & Hr & _).
    rewrite Hrun in Hone. injection Hone as <-. simpl.
    rewrite Hh, Hr. split; [apply lookup_insert_eq | exact Hreg].
  - intros Hm.
    destruct (applyDisconnect_spec w d p s Hp Hm)
      as ([] & w2 & Hrun & Hh & Hr & _ & _ & tr2 & Htr2 & _).
    rewrite Hrun in Hone. injection Hone as <-.
    unfold unregistered, retired. simpl in *.
    rewrite Hh, Hr, Hu. split; [apply lookup_insert_eq |]. split.
    + split; [| exact Hgone].
      unfold sockOf. by rewrite lookup_delete_eq.
    + rewrite Htr2, <- !app_assoc in Htr. apply app_inv_head in Htr.
      subst tr. destruct (Z.ltb_spec 0 (sd s)) as [_ | Hle]; [| lia].
      rewrite !elem_of_app. right. left. apply list_elem_of_here.
  - intros Hm Hfresh.
    destruct (applySwitch_spec w d p s Hp Hm)
      as ([] & w2 & Hrun & ws & tr1 & tr2 & Hws & Hnew & Hh & Hr & _).
    rewrite Hrun in Hone. injection Hone as <-.
    unfold unregistered, retired. simpl in *.
    assert (Hwsp : ws <> p) by (intros ->; congruence).
    rewrite Hh. split.
    { rewrite lookup_insert_ne by exact Hwsp. apply lookup_insert_eq. }
    rewrite Hu in Hr.
    destruct Hr as [-> | ->]; split.
    + unfold sockOf. by rewrite lookup_delete_eq.
    + exact Hgone.
    + unfold sockOf. rewrite lookup_insert_ne by exact Hfresh.
      by rewrite lookup_delete_eq.
    + intros k Hk. apply lookup_insert_Some in Hk as [[_ Hk] | [_ Hk]];
        [congruence | by apply (Hgone k)].
Qed.

(** The same outcome seen from an earlier state of the drain. *)
Lemma connection_after_rebase w w1 w' (u : QByteArray) p s s1
    (sends sends1 stop : list TSendData.t) (tr1 : list Effect) :
  trace w1 = trace w ++ tr1 ->
  sd s1 = sd s ->
  pushAll (map TSendData.buffer sends1) s1
    = pushAll (map TSendData.buffer sends) s ->
  connection_after w1 w' u p s1 sends1 stop ->
  connection_after w w' u p s sends stop.
Proof.
  intros Htr Hsd Heq. unfold connection_after. rewrite Heq, Hsd.
  destruct stop as [| d stop]; [done |].
  intros [Hd Hsw]. split; [| exact Hsw].
  intros Hm. destruct (Hd Hm) as (Hp & Hun & tr & Htr' & Hin).
  split; [exact Hp |]. split; [exact Hun |].
  exists (tr1 ++ tr). split.
  - by rewrite Htr', Htr, <- app_assoc.
  - rewrite elem_of_app. by right.
Qed.

(** The entries of one connection among all the entries of a queue. *)
Lemma dispatchList_connection (l : list TSendData.t) (u : QByteArray) p :
  (forall n, createUuid n <> u) ->
  forall w w' s (sends stop : list TSendData.t),
    wf w ->
    pollingSockets (reactor w) !! u = Some p ->
    heap w !! p = Some s ->
    0 < sd s ->
    filter (fun d => for_uuid u d = true) l = sends ++ stop ->
    Forall (fun d => TSendData.method d = TSendData.Send) sends ->
    dispatchList l w = Some (tt, w') ->
    connection_after w w' u p s sends stop.
Proof.
  intros Hfresh.
  induction l as [| d l IH]; intros w w' s sends stop Hwf Hreg Hp Hopen Hf Hs Hrun;
    simpl in Hrun.
  - injection Hrun as <-.
    symmetry in Hf. apply app_eq_nil in Hf as [-> ->].
    unfold connection_after. simpl. rewrite pushAll_nil. auto.
  - unfold mbind, M_bind, bind in Hrun. rewrite filter_cons in Hf.
    destruct (decide (for_uuid u d = true)) as [Hown | Hother].
    + apply String.eqb_eq in Hown.
      destruct (dispatchOne_applied w d p s Hwf) as
        (w1 & tr1 & Hone & Hwf1 & Htr1 & Hsend & Hdisc & Hsw);
        [by rewrite Hown | exact Hp | exact Hopen |].
      rewrite Hone in Hrun. rewrite Hown in *.
      destruct sends as [| d0 sends].
      * simpl in Hf. subst stop. unfold connection_after. simpl.
        rewrite pushAll_nil. split.
        -- intros Hm. destruct (Hdisc Hm) as (Hp1 & Hun1 & Hin).
           destruct (dispatchList_retired l u p (retired s) w1 w'
                       Hwf1 Hfresh Hp1 Hun1 Hrun) as (Hp' & Hun' & tr & Htr).
           split; [exact Hp' |]. split; [exact Hun' |].
           exists (tr1 ++ tr). split; [by rewrite Htr, Htr1, <- app_assoc |].
           rewrite elem_of_app. by left.
        -- intros Hm. destruct (Hsw Hm (Hfresh _)) as (Hp1 & Hun1).
           destruct (dispatchList_retired l u p (retired s) w1 w'
                       Hwf1 Hfresh Hp1 Hun1 Hrun) as (Hp' & Hun' & _).
           auto.
      * simpl in Hf. injection Hf as <- Hf.
        apply Forall_cons in Hs as [Hm Hs].
        destruct (Hsend Hm) as (Hp1 & Hreg1).
        apply (connection_after_rebase w w1 w' u p s
                 (push_sendBuf (TSendData.buffer d) s) (d :: sends) sends stop
                 tr1 Htr1 eq_refl).
        { simpl. apply pushAll_push. }
        apply IH; auto.
    + assert (Hne : TSendData.uuid d <> u).
      { intros Heq. apply Hother. by apply String.eqb_eq. }
      destruct (dispatchOne_untouched w d Hwf)
        as ([] & w1 & Hone & Hwf1 & H1 & H2 & _ & _ & tr1 & Htr1).
      rewrite Hone in Hrun.
      assert (Hsu : sock_uuid s = u).
      { destruct (proj2 Hwf _ _ Hreg) as [-> | (t & Ht & Hu)];
          [destruct Hwf; congruence | congruence]. }
      assert (Hp1 : heap w1 !! p = Some s).
      { apply H1; [exact Hp |]. intros Hd.
        destruct (proj2 Hwf _ _ Hd) as [-> | (t & Ht & Hu)];
          [destruct Hwf; congruence | congruence]. }
      assert (Hreg1 : pollingSockets (reactor w1) !! u = Some p).
      { rewrite H2; [exact Hreg | congruence | apply not_eq_sym, Hfresh]. }
      apply (connection_after_rebase w w1 w' u p s s sends sends stop
               tr1 Htr1 eq_refl eq_refl).
      apply IH; auto.
Qed.

(** C1. Whatever workers have enqueued, in whatever interleaving, one
    drain of the send queue returns and consumes the whole queue, and for
    every UUID the entries for that UUID are consumed in exactly the order
    in which they were enqueued. An entry is consumed (freed, line 260) at
    the end of the loop iteration that applied or discarded it, so the
    effects of an entry lie before its own mark in the trace and after the
    mark of the entry before it. Wherever the queue is cut in two, the
    final state is reached by applying the entries enqueued before the cut
    and then, on the state they leave, those enqueued after it. And the
    entries of one connection take effect on it in their enqueue order,
    whatever is queued for other connections in between: for a registered
    connection with an open descriptor whose UUID is never issued to a new
    connection, when the entries queued for it are the [Send]s [sends]
    followed by [stop], the drain leaves the connection with the buffers
    of [sends] appended to its outgoing queue in the order of [sends];
    when [stop] is empty it is still registered; when [stop] starts with a
    [Disconnect] the connection was unregistered, its descriptor closed
    and the object retired after those buffers were appended; when it
    starts with an upgrade it was unregistered and retired after them; and
    nothing queued behind the head of [stop] reaches the connection. *)
Theorem dispatchSendData_enqueue_order w (acts : list TSendData.t) :
  wf w ->
  exists w',
    (enqueueAll acts ;; dispatchSendData) w = Some (tt, w') /\
    wf w' /\
    sendRequests (reactor w') = [] /\
    (forall u,
       filter (fun d => for_uuid u d = true) (consumed (trace w')) =
       filter (fun d => for_uuid u d = true) (consumed (trace w)) ++
       filter (fun d => for_uuid u d = true) (sendRequests (reactor w) ++ acts)) /\
    (forall l1 l2,
       sendRequests (reactor w) ++ acts = l1 ++ l2 ->
       exists w1,
         dispatchList l1 (set_reactor (set_sendRequests [] (reactor w)) w)
           = Some (tt, w1) /\
         dispatchList l2 w1 = Some (tt, w')) /\
    (forall (u : QByteArray) p s (sends stop : list TSendData.t),
       (forall n, createUuid n <> u) ->
       pollingSockets (reactor w) !! u = Some p ->
       heap w !! p = Some s ->
       0 < sd s ->
       filter (fun d => for_uuid u d = true) (sendRequests (reactor w) ++ acts)
         = sends ++ stop ->
       Forall (fun d => TSendData.method d = TSendData.Send) sends ->
       connection_after w w' u p s sends stop).
Proof.
  intros Hwf.
  set (w0 := set_reactor (set_sendRequests [] (reactor w)) w).
  assert (Hwf0 : wf w0) by exact Hwf.
  destruct (dispatchList_spec (sendRequests (reactor w) ++ acts) w0 Hwf0)
    as ([] & w' & Hloop & Hwf' & Hq & Hc).
  assert (Hrun : (enqueueAll acts ;; dispatchSendData) w = Some (tt, w')).
  { destruct (enqueueAll_spec acts w) as ([] & w1 & Henq & ->).
    unfold mbind, M_bind, bind. rewrite Henq.
    unfold dispatchSendData, dequeue, mbind, M_bind, bind. simpl.
    exact Hloop. }
  exists w'. split; [exact Hrun |]. split; [exact Hwf' |].
  split; [exact Hq |]. split; [| split].
  - intros u. rewrite Hc. apply filter_app.
  - intros l1 l2 Hcut. rewrite Hcut, dispatchList_app in Hloop.
    destruct (dispatchList_spec l1 w0 Hwf0) as ([] & w1 & Hl1 & _).
    exists w1. split; [exact Hl1 |].
    unfold mbind, M_bind, bind in Hloop. rewrite Hl1 in Hloop. exact Hloop.
  - intros u p s sends stop Hfresh Hreg Hp Hopen Hf Hs.
    exact (dispatchList_connection _ u p Hfresh w0 w' s sends stop
             Hwf0 Hreg Hp Hopen Hf Hs Hloop).
Qed.

(** C3. An applied [SwitchToWebSocket] entry for an HTTP connection [p]
    with descriptor [D = sd s]: the loop body returns; a new object [ws],
    distinct from [p], is a connection in WebSocket mode on the same
    descriptor [D], and its outgoing buffer queue holds exactly one buffer,
    the handshake response; the old connection is in no entry of the
    registry, [EPOLL_CTL_DEL] has been issued for it, its descriptor field
    is cleared and it is scheduled for deletion, while no [close] of any
    descriptor occurs; no other object on the heap changes. After the old
    connection is unregistered and retired, the new one is registered:
    [EPOLL_CTL_ADD] is issued for descriptor [D] with the new object and
    the mask [EPOLLIN | EPOLLOUT | EPOLLET], so that the queued handshake
    response is written when the descriptor is writable; the registry is
    the old one without the HTTP connection's key and, when the kernel
    accepts the call, with the new connection filed under its own UUID
    and under no other key; and the opening event of the new connection
    is handed to a worker. *)
Theorem upgrade_preserves_descriptor w (u : QByteArray)
    (header : THttpRequestHeader) p s :
  wf w ->
  pollingSockets (reactor w) !! u = Some p ->
  heap w !! p = Some s ->
  mode s = HTTP ->
  0 < sd s ->
  let d := TSendData.new_header TSendData.SwitchToWebSocket u header in
  exists w' ws wsock tr,
    dispatchOne d w = Some (tt, w') /\
    ws <> p /\ heap w !! ws = None /\
    heap w' !! ws = Some wsock /\
    mode wsock = WebSocket /\
    sd wsock = sd s /\
    sendBuf wsock = [Some (createSendBuffer (handshakeResponse header))] /\
    heap w' !! p = Some (mark_deleteLater (set_sd 0 s)) /\
    (forall k, pollingSockets (reactor w') !! k <> Some p) /\
    (forall q, q <> p -> q <> ws -> heap w' !! q = heap w !! q) /\
    trace w' = trace w ++ tr /\
    Forall (fun e => is_close e = false) tr /\
    (exists r err, SysEpollCtl EPOLL_CTL_DEL (sd s) None r err ∈ tr) /\
    DeleteLater p ∈ tr /\
    (exists r err tr1 tr2,
       tr = tr1 ++
            SysEpollCtl EPOLL_CTL_ADD (sd s)
              (Some (mk_epoll_event EPOLL_RESET ws)) r err :: tr2 /\
       (exists r' err', SysEpollCtl EPOLL_CTL_DEL (sd s) None r' err' ∈ tr1) /\
       DeleteLater p ∈ tr1 /\
       pollingSockets (reactor w') =
         (if r <? 0 then delete u (pollingSockets (reactor w))
          else <[sock_uuid wsock := ws]>
                 (delete u (pollingSockets (reactor w)))) /\
       (0 <= r ->
        pollingSockets (reactor w') !! sock_uuid wsock = Some ws /\
        forall k, pollingSockets (reactor w') !! k = Some ws ->
                  k = sock_uuid wsock)) /\
    StartWorker (TWebSocketWorker_opening (sock_uuid wsock)
                   (openingSession header)) ∈ tr.
Proof.
  intros Hwf Hreg Hp _ Hopen d.
  assert (Hne : p <> NULL) by (intros ->; destruct Hwf; congruence).
  assert (Hu : sock_uuid s = u).
  { destruct (proj2 Hwf _ _ Hreg) as [-> | (t & Ht & Hu)]; [done |].
    congruence. }
  destruct (applySwitch_spec w d p s Hp eq_refl)
    as ([] & w1 & Hrun & ws & tr1 & tr2 & Hws & Hfresh & Hh & Hreg1 & _ & _
        & Htr & Hben1 & Hben2 & Hdel & r & err & lg & Htr2 & Hreg2).
  assert (Hwsp : ws <> p) by (intros ->; congruence).
  exists (set_trace (trace w1 ++ [DeleteSendData d]) w1), ws,
    (upgraded (sd s) (createUuid (uuidsIssued w)) (clientAddr s) header).
  eexists. split.
  { rewrite (dispatchOne_live w d p s Hreg Hne Hp Hopen).
    unfold mbind, M_bind, bind. rewrite Hrun. reflexivity. }
  assert (Hgone := wf_of_delete_gone _ _ p s Hwf Hp Hne).
  assert (Hdel' : exists r' err',
             SysEpollCtl EPOLL_CTL_DEL (sd s) None r' err' ∈ tr1)
    by (apply Hdel; rewrite Hu; eauto).
  simpl. rewrite Hh.
  split; [exact Hwsp |]. split; [exact Hfresh |].
  split; [apply lookup_insert_eq |].
  do 3 (split; [reflexivity |]).
  split; [rewrite lookup_insert_ne by exact Hwsp; apply lookup_insert_eq |].
  split.
  { intros k Hk.
    destruct Hreg1 as [Heq | Heq]; rewrite Heq in Hk; [by apply (Hgone k) |].
    apply lookup_insert_Some in Hk as [[_ Hk] | [_ Hk]]; [done |].
    by apply (Hgone k). }
  split; [intros q Hqp Hqws; by rewrite !lookup_insert_ne |].
  split; [rewrite Htr; rewrite <- !app_assoc; reflexivity |].
  assert (Hquiet : forall tr, Forall (fun e => benign e = true) tr ->
                              Forall (fun e => is_close e = false) tr).
  { intros tr Hb. eapply Forall_impl; [exact Hb |].
    intros [] ?; simpl in *; congruence. }
  split.
  { repeat (apply Forall_app; split); auto; repeat constructor. }
  split.
  { destruct Hdel' as (r' & err' & Hin).
    exists r', err'. rewrite !elem_of_app. auto. }
  split.
  { rewrite !elem_of_app. right. right. left. apply list_elem_of_here. }
  split.
  - exists r, err,
      ([Log SystemDebug "Switch to WebSocket"; Log SystemDebug "secKey: %s"]
       ++ tr1 ++ [DeleteLater p]),
      (lg ++ [StartWorker
                (TWebSocketWorker_opening (createUuid (uuidsIssued w))
                   (openingSession header));
              DeleteSendData d]).
    split; [rewrite Htr2; simpl; rewrite <- !app_assoc; reflexivity |].
    split.
    { destruct Hdel' as (r' & err' & Hin). exists r', err'.
      rewrite !elem_of_app. auto. }
    split.
    { rewrite !elem_of_app. right. right. apply list_elem_of_here. }
    rewrite Hu in Hreg2. split; [exact Hreg2 |].
    intros Hr. destruct (Z.ltb_spec r 0) as [Hlt | _]; [lia |].
    rewrite Hreg2. split; [apply lookup_insert_eq |].
    intros k Hk. apply lookup_insert_Some in Hk as [[<- _] | [_ Hk]]; [done |].
    apply lookup_delete_Some in Hk as [_ Hk].
    destruct (proj2 Hwf _ _ Hk) as [-> | (t & Ht & _)]; congruence.
  - rewrite !elem_of_app. do 4 right. left. apply list_elem_of_here.
Qed.

End Dispatch.

Lemma send_to_absent_uuid_is_discarded_witness :
  sockOf (pollingSockets (reactor Demo.world_unregistered)) "conn-a" = NULL /\
  exists w',
    dispatchOne (TSendData.new_buf TSendData.Send "conn-a"
                   (Some (createSendBuffer "late bytes")))
                Demo.world_unregistered = Some (tt, w') /\
    heap w' = heap Demo.world_unregistered /\
    kernel w' = kernel Demo.world_unregistered /\
    sendRequests (reactor w') = sendRequests (reactor Demo.world_unregistered) /\
    (forall u', sockOf (pollingSockets (reactor w')) u' =
                sockOf (pollingSockets (reactor Demo.world_unregistered)) u') /\
    trace w' = trace Demo.world_unregistered ++
      [DeleteSendData (TSendData.new_buf TSendData.Send "conn-a"
                         (Some (createSendBuffer "late bytes")))].
Proof.
  assert (H : sockOf (pollingSockets (reactor Demo.world_unregistered)) "conn-a"
              = NULL) by reflexivity.
  split; [exact H |].
  exact (send_to_absent_uuid_is_discarded Demo.world_unregistered "conn-a"
           (Some (createSendBuffer "late bytes")) H).
Defined.

(** A [Send] enqueued after an explicit [Disconnect] for the same UUID: the
    connection is closed and retired by the first entry, and the second
    appends nothing to its buffer queue and issues no system call. *)
Example send_after_disconnect_discarded :
  exists w',
    (enqueueAll
       [TSendData.new_buf TSendData.Disconnect "conn-a" None;
        TSendData.new_buf TSendData.Send "conn-a"
          (Some (createSendBuffer "late bytes"))] ;;
     dispatchSendData) Demo.world1 = Some (tt, w') /\
    heap w' !! 1%N =
      Some (mk_socket 0 "conn-a" "10.0.0.1" HTTP [] empty_header true) /\
    sockOf (pollingSockets (reactor w')) "conn-a" = NULL /\
    filter (fun e => negb (benign e) = true) (trace w') =
      [SysClose 7; DeleteLater 1%N;
       DeleteSendData (TSendData.new_buf TSendData.Disconnect "conn-a" None);
       DeleteSendData (TSendData.new_buf TSendData.Send "conn-a"
                         (Some (createSendBuffer "late bytes")))] /\
    omap (fun e => match e with
                   | SysEpollCtl op fd _ r _ => Some (op, fd, r)
                   | _ => None
                   end) (trace w') = [(EPOLL_CTL_DEL, 7, 0)].
Proof.
  eexists. split; [vm_compute; reflexivity |].
  repeat split; vm_compute; reflexivity.
Qed.

(** C2. The discarded [Send] is not a no-op. The specification's own test,
    run: for the registered connection ["conn-a"], a [Disconnect] and then
    a [Send] for the same UUID. The [Disconnect] leaves the registry
    without an entry for ["conn-a"]. The [Send] is then discarded, and as
    the claim lists, the heap and the kernel stay as they were and the
    trace grows by the freeing of the entry alone; but the lookup
    [pollingSockets[sd->uuid]] (line 209) has filed the null pointer under
    ["conn-a"], so the reactor is not as it was. The difference shows
    afterwards: [releaseAllPollingSockets], which returned before the
    [Send], now calls [deleteLater] through the null pointer, and
    [deletePoll] of the retired connection, which made no system call
    before the [Send], now finds an entry to remove and issues
    [EPOLL_CTL_DEL]. *)
Theorem send_after_disconnect_leaves_null_entry :
  exists w1 w2,
    dispatchList [Scenario.disconnect_a] Demo.world1 = Some (tt, w1) /\
    dispatchList [Scenario.disconnect_a; Scenario.late_send_a] Demo.world1
      = Some (tt, w2) /\
    pollingSockets (reactor w1) !! "conn-a" = None /\
    dispatchOne Scenario.late_send_a w1 = Some (tt, w2) /\
    heap w2 = heap w1 /\
    kernel w2 = kernel w1 /\
    trace w2 = trace w1 ++ [DeleteSendData Scenario.late_send_a] /\
    pollingSockets (reactor w2) !! "conn-a" = Some NULL /\
    reactor w2 <> reactor w1 /\
    is_Some (releaseAllPollingSockets w1) /\
    releaseAllPollingSockets w2 = None /\
    (exists w3, deletePoll 1%N w1 = Some (false, w3) /\ trace w3 = trace w1) /\
    (exists w3, deletePoll 1%N w2 = Some (false, w3) /\
                trace w3 = trace w2 ++
                  [SysEpollCtl EPOLL_CTL_DEL 0 None (-1) ENOENT;
                   Log SystemDebug "OK epoll_ctl (EPOLL_CTL_DEL)  sd:%d"]).
Proof.
  eexists _, _.
  do 8 (split; [vm_compute; reflexivity |]).
  split.
  { intros Heq. apply (f_equal (fun e => pollingSockets e !! "conn-a")) in Heq.
    vm_compute in Heq. discriminate Heq. }
  split; [vm_compute; eauto |].
  split; [vm_compute; reflexivity |].
  split; eexists; (split; [vm_compute; reflexivity | vm_compute; reflexivity]).
Qed.

Lemma world1_wf : wf Demo.world1.
Proof.
  split; [reflexivity |].
  intros k p Hk.
  change (({["conn-a" := 1%N]} : gmap string N) !! k = Some p) in Hk.
  apply lookup_singleton_Some in Hk as [<- <-].
  right. exists Demo.http7. split; reflexivity.
Defined.

Lemma two_world_wf : wf Scenario.two_world.
Proof.
  split; [reflexivity |].
  intros k p Hk.
  change (({["conn-a" := 1%N; "conn-b" := 2%N]} : gmap string N) !! k = Some p)
    in Hk.
  apply lookup_insert_Some in Hk as [[<- <-] | [_ Hk]].
  - right. exists Demo.http7. split; reflexivity.
  - apply lookup_singleton_Some in Hk as [<- <-].
    right. exists Scenario.ws9. split; reflexivity.
Defined.

(** The UUIDs [Demo.framework] issues all start with ["ws-"]. *)
Lemma demo_uuid_fresh : forall n, createUuid n <> "conn-a".
Proof. intros n Heq. discriminate Heq. Qed.

Lemma dispatchSendData_enqueue_order_witness :
  wf Scenario.two_world /\
  exists w',
    (enqueueAll Scenario.interleaved ;; dispatchSendData) Scenario.two_world
      = Some (tt, w') /\
    sendRequests (reactor w') = [] /\
    filter (fun d => for_uuid "conn-a" d = true) (consumed (trace w')) =
      Scenario.two_sends ++
      [TSendData.new_buf TSendData.Disconnect "conn-a" None;
       TSendData.new_buf TSendData.Send "conn-a"
         (Some (createSendBuffer "late"))] /\
    heap w' !! 1%N =
      Some (retired (pushAll [Some (createSendBuffer "b1");
                              Some (createSendBuffer "b2")] Demo.http7)) /\
    unregistered w' "conn-a" 1%N /\
    exists tr, trace w' = trace Scenario.two_world ++ tr /\ SysClose 7 ∈ tr.
Proof.
  split; [exact two_world_wf |].
  destruct (dispatchSendData_enqueue_order Scenario.two_world
              Scenario.interleaved two_world_wf)
    as (w' & Hrun & _ & Hq & Hc & _ & Hconn).
  exists w'. split; [exact Hrun |]. split; [exact Hq |].
  split; [exact (Hc "conn-a") |].
  set (stop := [TSendData.new_buf TSendData.Disconnect "conn-a" None;
                TSendData.new_buf TSendData.Send "conn-a"
                  (Some (createSendBuffer "late"))]).
  assert (Hs : Forall (fun d => TSendData.method d = TSendData.Send)
                 Scenario.two_sends)
    by (repeat constructor).
  assert (Hf : filter (fun d => for_uuid "conn-a" d = true)
                 (sendRequests (reactor Scenario.two_world)
                  ++ Scenario.interleaved)
               = Scenario.two_sends ++ stop) by reflexivity.
  assert (Hopen : 0 < sd Demo.http7) by reflexivity.
  destruct (Hconn "conn-a" 1%N Demo.http7 Scenario.two_sends stop
              demo_uuid_fresh eq_refl eq_refl Hopen Hf Hs)
    as [Hdisc _].
  exact (Hdisc eq_refl).
Defined.

(** The drain of [Scenario.interleaved], run: ["conn-a"] is left with
    [b1] then [b2] in its queue, closed and retired, and the late send
    added nothing; ["conn-b"] got its buffer before it was closed; the
    system calls and the closes come in the order of the queue. *)
Example interleaved_run :
  exists w',
    (enqueueAll Scenario.interleaved ;; dispatchSendData) Scenario.two_world
      = Some (tt, w') /\
    heap w' !! 1%N =
      Some (mk_socket 0 "conn-a" "10.0.0.1" HTTP
              [Some (createSendBuffer "b1"); Some (createSendBuffer "b2")]
              empty_header true) /\
    heap w' !! 2%N =
      Some (mk_socket 0 "conn-b" "10.0.0.2" WebSocket
              [Some (createSendBuffer "x")] empty_header true) /\
    omap (fun e => match e with
                   | SysEpollCtl op fd _ _ _ => Some (Some op, fd)
                   | SysClose fd => Some (None, fd)
                   | _ => None
                   end) (trace w') =
      [(Some EPOLL_CTL_MOD, 7); (Some EPOLL_CTL_MOD, 9);
       (Some EPOLL_CTL_MOD, 7); (Some EPOLL_CTL_DEL, 9); (None, 9);
       (Some EPOLL_CTL_DEL, 7); (None, 7)].
Proof.
  eexists. split; [vm_compute; reflexivity |].
  repeat split; vm_compute; reflexivity.
Qed.

(** The drain of [Send b1; Send b2; Disconnect] for one connection: the
    connection's buffer queue receives [b1] then [b2], poll interest is
    re-armed after each, and only then is the connection unregistered and
    its descriptor closed. *)
Example send_send_disconnect_applied_in_order :
  exists w',
    (enqueueAll Demo.send_send_disconnect ;; dispatchSendData) Demo.world1
      = Some (tt, w') /\
    heap w' !! 1%N =
      Some (mk_socket 0 "conn-a" "10.0.0.1" HTTP
              [Some (createSendBuffer "b1"); Some (createSendBuffer "b2")]
              empty_header true) /\
    pollingSockets (reactor w') !! "conn-a" = None /\
    filter (fun e => negb (benign e) = true) (trace w') =
      [DeleteSendData (TSendData.new_buf TSendData.Send "conn-a"
                         (Some (createSendBuffer "b1")));
       DeleteSendData (TSendData.new_buf TSendData.Send "conn-a"
                         (Some (createSendBuffer "b2")));
       SysClose 7; DeleteLater 1%N;
       DeleteSendData (TSendData.new_buf TSendData.Disconnect "conn-a" None)] /\
    omap (fun e => match e with
                   | SysEpollCtl op fd _ r _ => Some (op, fd, r)
                   | _ => None
                   end) (trace w') =
      [(EPOLL_CTL_MOD, 7, 0); (EPOLL_CTL_MOD, 7, 0); (EPOLL_CTL_DEL, 7, 0)].
Proof.
  eexists. split; [vm_compute; reflexivity |].
  repeat split; vm_compute; reflexivity.
Qed.

Lemma upgrade_preserves_descriptor_witness :
  wf Demo.world1 /\
  pollingSockets (reactor Demo.world1) !! "conn-a" = Some 1%N /\
  heap Demo.world1 !! 1%N = Some Demo.http7 /\
  mode Demo.http7 = HTTP /\
  0 < sd Demo.http7 /\
  exists w' ws wsock tr,
    dispatchOne (TSendData.new_header TSendData.SwitchToWebSocket "conn-a"
                   Demo.upgrade_header) Demo.world1 = Some (tt, w') /\
    ws <> 1%N /\ heap Demo.world1 !! ws = None /\
    heap w' !! ws = Some wsock /\
    mode wsock = WebSocket /\
    sd wsock = sd Demo.http7 /\
    sendBuf wsock =
      [Some (createSendBuffer (handshakeResponse Demo.upgrade_header))] /\
    heap w' !! 1%N = Some (mark_deleteLater (set_sd 0 Demo.http7)) /\
    (forall k, pollingSockets (reactor w') !! k <> Some 1%N) /\
    (forall q, q <> 1%N -> q <> ws -> heap w' !! q = heap Demo.world1 !! q) /\
    trace w' = trace Demo.world1 ++ tr /\
    Forall (fun e => is_close e = false) tr /\
    (exists r err, SysEpollCtl EPOLL_CTL_DEL (sd Demo.http7) None r err ∈ tr) /\
    DeleteLater 1%N ∈ tr /\
    (exists r err tr1 tr2,
       tr = tr1 ++
            SysEpollCtl EPOLL_CTL_ADD (sd Demo.http7)
              (Some (mk_epoll_event EPOLL_RESET ws)) r err :: tr2 /\
       (exists r' err',
          SysEpollCtl EPOLL_CTL_DEL (sd Demo.http7) None r' err' ∈ tr1) /\
       DeleteLater 1%N ∈ tr1 /\
       pollingSockets (reactor w') =
         (if r <? 0
          then delete "conn-a" (pollingSockets (reactor Demo.world1))
          else <[sock_uuid wsock := ws]>
                 (delete "conn-a" (pollingSockets (reactor Demo.world1)))) /\
       (0 <= r ->
        pollingSockets (reactor w') !! sock_uuid wsock = Some ws /\
        forall k, pollingSockets (reactor w') !! k = Some ws ->
                  k = sock_uuid wsock)) /\
    StartWorker (TWebSocketWorker_opening (sock_uuid wsock)
                   (openingSession Demo.upgrade_header)) ∈ tr.
Proof.
  assert (H1 : pollingSockets (reactor Demo.world1) !! "conn-a" = Some 1%N)
    by reflexivity.
  assert (H2 : heap Demo.world1 !! 1%N = Some Demo.http7) by reflexivity.
  assert (H3 : mode Demo.http7 = HTTP) by reflexivity.
  assert (H4 : 0 < sd Demo.http7) by (simpl; lia).
  split; [exact world1_wf |].
  do 4 (split; [assumption |]).
  exact (upgrade_preserves_descriptor Demo.world1 "conn-a" Demo.upgrade_header
           1%N Demo.http7 world1_wf H1 H2 H3 H4).
Defined.

(** The upgrade of [Demo.http7], run: the new connection is object 2, and
    the kernel's interest in descriptor 7 now points at it. *)
Example upgrade_run :
  exists w',
    dispatchOne (TSendData.new_header TSendData.SwitchToWebSocket "conn-a"
                   Demo.upgrade_header) Demo.world1 = Some (tt, w') /\
    heap w' !! 2%N =
      Some (upgraded 7 "ws-0" "10.0.0.1" Demo.upgrade_header) /\
    heap w' !! 1%N = Some (mk_socket 0 "conn-a" "10.0.0.1" HTTP [] empty_header true) /\
    map_to_list (pollingSockets (reactor w')) = [("ws-0", 2%N)] /\
    kernel w' !! 7 = Some (mk_epoll_event EPOLL_RESET 2%N) /\
    filter (fun e => negb (benign e) = true) (trace w') =
      [DeleteLater 1%N;
       StartWorker (TWebSocketWorker_opening "ws-0" (mk_session "s-42" []));
       DeleteSendData (TSendData.new_header TSendData.SwitchToWebSocket "conn-a"
                         Demo.upgrade_header)].
Proof.
  eexists. split; [vm_compute; reflexivity |].
  repeat split; vm_compute; reflexivity.
Qed.

(** ** The frame worker (twebsocketworker.cpp) *)
Section WorkerProps.
Context {P : Platform} {F : Framework}.
Implicit Types (w v : World) (wk : TWebSocketWorker) (ep : TWebSocketEndpoint).

Lemma enqueued_nil w : enqueued [] w = w.
Proof. unfold enqueued. rewrite app_nil_r. by destruct w as [[] ? ? ? ?]. Qed.

Lemma enqueued_app (l1 l2 : list TSendData.t) w :
  enqueued l2 (enqueued l1 w) = enqueued (l1 ++ l2) w.
Proof. unfold enqueued. simpl. by rewrite app_assoc. Qed.

(** The drain loop on entries put on the list by the endpoint's methods. *)
Lemma sendPayload_directive (uuid : QByteArray) (d : Directive) w :
  sendPayload uuid (toVariant d) w = Some (tt, enqueued [actionOf uuid d] w).
Proof. destruct d; reflexivity. Qed.

Lemma sendPayloads_directives (uuid : QByteArray) (ds : list Directive) w :
  sendPayloads uuid (map toVariant ds) w =
    Some (tt, enqueued (map (actionOf uuid) ds) w).
Proof.
  revert w. induction ds as [| d ds IH]; intros w; simpl.
  - by rewrite enqueued_nil.
  - unfold mbind, M_bind, bind. rewrite sendPayload_directive, IH.
    by rewrite enqueued_app.
Qed.

(** The drain loop on an entry of any other kind: an error is logged and
    nothing is enqueued. *)
Lemma sendPayload_invalid (uuid : QByteArray) (var : QVariant) w :
  (forall d, var <> toVariant d) ->
  sendPayload uuid var w =
    Some (tt, set_trace (trace w ++ [Log AppError "Invalid logic  [%s:%d]"]) w).
Proof.
  intros Hvar. destruct var as [text | binary | n |]; simpl.
  - destruct (Hvar (SendText text)). reflexivity.
  - destruct (Hvar (SendBinary binary)). reflexivity.
  - destruct (Z.eqb_spec n TWebSocketFrame.Close) as [-> | _];
      [destruct (Hvar CloseWebSocket); reflexivity |].
    destruct (Z.eqb_spec n TWebSocketFrame.Ping) as [-> | _];
      [destruct (Hvar SendPing); reflexivity |].
    destruct (Z.eqb_spec n TWebSocketFrame.Pong) as [-> | _];
      [destruct (Hvar SendPong); reflexivity |].
    reflexivity.
  - reflexivity.
Qed.

Lemma translates_directives (uuid : QByteArray) (ds : list Directive) :
  Forall2 (translates uuid) (map toVariant ds) (map (actionOf uuid) ds).
Proof.
  induction ds as [| d ds IH]; simpl; constructor; [| exact IH].
  destruct d; constructor.
Qed.

(** The first switch: it leaves on [payloadList] what endpoint methods put
    there, and touches nothing but the trace. *)
Lemma handleOpcode_spec wk ep :
  exists (ds : list Directive) (tr : list Effect),
    forall v, handleOpcode wk ep v =
                Some (map toVariant ds, set_trace (trace v ++ tr) v).
Proof.
  unfold handleOpcode.
  destruct (opcode wk =? TWebSocketFrame.Continuation).
  { destruct (String.eqb _ _).
    - eexists _, _; intros v. reflexivity.
    - exists [], [Log AppError "Invalid logic  [%s:%d]"]. intros v.
      reflexivity. }
  destruct (opcode wk =? TWebSocketFrame.TextFrame);
    [eexists _, _; intros v; reflexivity |].
  destruct (opcode wk =? TWebSocketFrame.BinaryFrame);
    [eexists _, _; intros v; reflexivity |].
  destruct (opcode wk =? TWebSocketFrame.Close).
  { exists (onClose ep ++ [CloseWebSocket]), [Invoke OnClose]. intros v.
    rewrite map_app. reflexivity. }
  destruct (opcode wk =? TWebSocketFrame.Ping).
  { exists (onPing ep ++ [SendPong]), [Invoke OnPing]. intros v.
    rewrite map_app. reflexivity. }
  destruct (opcode wk =? TWebSocketFrame.Pong);
    [eexists _, _; intros v; reflexivity |].
  exists [], [Log AppWarn "Invalid opcode: 0x%x  [%s:%d]"]. intros v.
  reflexivity.
Qed.

Lemma run_resolved wk ep (ds : list Directive) (tr : list Effect) w :
  dispatcherObject (endpointName wk) = Some ep ->
  (forall v, handleOpcode wk ep v =
               Some (map toVariant ds, set_trace (trace v ++ tr) v)) ->
  run wk w =
    Some (tt, enqueued (map (actionOf (socketUuid wk)) ds)
                (set_trace (trace w ++ found_endpoint ++ tr) w)).
Proof.
  intros Hep Hsw. unfold run. rewrite Hep.
  unfold mbind, M_bind, bind. simpl. rewrite Hsw.
  rewrite sendPayloads_directives. simpl.
  by rewrite <- !app_assoc.
Qed.

(** The guard of the opening case (lines 49-55), both ways. *)
Lemma opening_session_guard wk ep w :
  dispatcherObject (endpointName wk) = Some ep ->
  opcode wk = TWebSocketFrame.Continuation ->
  (session_id (sessionStore wk) = EmptyString ->
   run wk w =
     Some (tt, enqueued (map (actionOf (socketUuid wk))
                             (onOpen ep (sessionStore wk)))
                 (set_trace (trace w ++ found_endpoint ++
                             [Invoke (OnOpen (sessionStore wk))]) w))) /\
  (session_id (sessionStore wk) <> EmptyString ->
   run wk w =
     Some (tt, set_trace (trace w ++ found_endpoint ++
                          [Log AppError "Invalid logic  [%s:%d]"]) w)).
Proof.
  intros Hep Hop. split; intros Hid.
  - apply (run_resolved wk ep); [exact Hep |].
    intros v. unfold handleOpcode. rewrite Hop, Hid. reflexivity.
  - rewrite (run_resolved wk ep [] [Log AppError "Invalid logic  [%s:%d]"] w Hep).
    + simpl. by rewrite enqueued_nil.
    + intros v. unfold handleOpcode. rewrite Hop. simpl.
      destruct (String.eqb_spec (session_id (sessionStore wk)) EmptyString);
        [done | reflexivity].
Qed.

(** C7, as amended. For a frame whose opcode is outside the set the first
    switch has cases for, delivered to a worker whose endpoint resolves:
    the worker returns, its trace is the two debug lines and the
    "Invalid opcode" warning, so no callback is invoked; and the reactor
    (registry and send queue), the heap and the kernel are as they were, so
    nothing is enqueued for the connection and it stays registered and
    open. *)
Theorem unknown_opcode_logged_and_dropped wk ep w :
  dispatcherObject (endpointName wk) = Some ep ->
  ~ known_opcode (opcode wk) ->
  exists w',
    run wk w = Some (tt, w') /\
    trace w' = trace w ++ found_endpoint ++
               [Log AppWarn "Invalid opcode: 0x%x  [%s:%d]"] /\
    reactor w' = reactor w /\
    heap w' = heap w /\
    kernel w' = kernel w.
Proof.
  intros Hep Hunknown.
  eexists. split.
  - rewrite (run_resolved wk ep []
               [Log AppWarn "Invalid opcode: 0x%x  [%s:%d]"] w Hep).
    + simpl. rewrite enqueued_nil. reflexivity.
    + intros v. unfold handleOpcode, known_opcode in *.
      repeat match goal with
             | |- context [opcode wk =? ?c] =>
                 destruct (Z.eqb_spec (opcode wk) c); [tauto |]
             end.
      reflexivity.
  - simpl. auto.
Qed.

(** C8. When the endpoint resolves, the list the first switch leaves on
    the endpoint is drained front to back: the worker returns, and what it
    appends to the send queue is, entry by entry and in list order, the
    translation of the list, one action for each entry. *)
Theorem payload_list_translated_in_order wk ep w :
  dispatcherObject (endpointName wk) = Some ep ->
  exists (payloadList : list QVariant) (actions : list TSendData.t)
         (tr : list Effect),
    (forall v, handleOpcode wk ep v =
                 Some (payloadList, set_trace (trace v ++ tr) v)) /\
    run wk w =
      Some (tt, enqueued actions (set_trace (trace w ++ found_endpoint ++ tr) w)) /\
    Forall2 (translates (socketUuid wk)) payloadList actions.
Proof.
  intros Hep.
  destruct (handleOpcode_spec wk ep) as (ds & tr & Hsw).
  exists (map toVariant ds), (map (actionOf (socketUuid wk)) ds), tr.
  split; [exact Hsw |]. split.
  - apply (run_resolved wk ep ds tr w Hep Hsw).
  - apply translates_directives.
Qed.

(** C9. When the endpoint resolves: for a Ping frame the list after the
    first switch is what [onPing] put on it followed by the Pong
    directive, and the last action the worker enqueues is the Send of the
    Pong frame, also when [onPing] puts nothing on the list; for a Close
    frame the list is what [onClose] put on it followed by the close
    directive, and the last action enqueued is the Disconnect. *)
Theorem ping_answered_and_close_closed wk ep w :
  dispatcherObject (endpointName wk) = Some ep ->
  (opcode wk = TWebSocketFrame.Ping ->
   (forall v, handleOpcode wk ep v =
      Some (map toVariant (onPing ep) ++ [QVInt TWebSocketFrame.Pong],
            set_trace (trace v ++ [Invoke OnPing]) v)) /\
   run wk w =
     Some (tt, enqueued
                 (map (actionOf (socketUuid wk)) (onPing ep) ++
                  [sendAction (socketUuid wk) TWebSocketFrame.Pong EmptyString])
                 (set_trace (trace w ++ found_endpoint ++ [Invoke OnPing]) w))) /\
  (opcode wk = TWebSocketFrame.Close ->
   (forall v, handleOpcode wk ep v =
      Some (map toVariant (onClose ep) ++ [QVInt TWebSocketFrame.Close],
            set_trace (trace v ++ [Invoke OnClose]) v)) /\
   run wk w =
     Some (tt, enqueued
                 (map (actionOf (socketUuid wk)) (onClose ep) ++
                  [disconnectAction (socketUuid wk)])
                 (set_trace (trace w ++ found_endpoint ++ [Invoke OnClose]) w))).
Proof.
  intros Hep. split; intros Hop.
  - assert (Hsw : forall v, handleOpcode wk ep v =
              Some (map toVariant (onPing ep ++ [SendPong]),
                    set_trace (trace v ++ [Invoke OnPing]) v)).
    { intros v. unfold handleOpcode. rewrite Hop, map_app. reflexivity. }
    split.
    + intros v. rewrite Hsw, map_app. reflexivity.
    + rewrite (run_resolved wk ep _ _ w Hep Hsw), map_app. reflexivity.
  - assert (Hsw : forall v, handleOpcode wk ep v =
              Some (map toVariant (onClose ep ++ [CloseWebSocket]),
                    set_trace (trace v ++ [Invoke OnClose]) v)).
    { intros v. unfold handleOpcode. rewrite Hop, map_app. reflexivity. }
    split.
    + intros v. rewrite Hsw, map_app. reflexivity.
    + rewrite (run_resolved wk ep _ _ w Hep Hsw), map_app. reflexivity.
Qed.

End WorkerProps.

(** C6, the code at the failing input. The upgrade of a connection whose
    request carries the session cookie starts the opening worker with the
    session found for the cookie, whose id is not empty; the endpoint of
    that worker resolves; and the worker logs "Invalid logic" and returns:
    [onOpen] is not invoked and nothing is enqueued. *)
Theorem opening_with_resolved_session_skips_onOpen :
  (exists w',
     dispatchOne (TSendData.new_header TSendData.SwitchToWebSocket "conn-a"
                    Demo.upgrade_header) Demo.world1 = Some (tt, w') /\
     StartWorker Demo.opening_worker ∈ trace w') /\
  session_id (sessionStore Demo.opening_worker) = "s-42" /\
  dispatcherObject (endpointName Demo.opening_worker) = Some Demo.echo /\
  run Demo.opening_worker Demo.world1 =
    Some (tt, set_trace (found_endpoint ++
                         [Log AppError "Invalid logic  [%s:%d]"]) Demo.world1).
Proof.
  split.
  { eexists. split; [vm_compute; reflexivity |].
    apply list_elem_of_In. vm_compute. tauto. }
  split; [reflexivity |]. split; [reflexivity |].
  vm_compute. reflexivity.
Qed.


Lemma unknown_opcode_logged_and_dropped_witness :
  dispatcherObject (endpointName Demo.reserved_frame) = Some Demo.echo /\
  ~ known_opcode (opcode Demo.reserved_frame) /\
  exists w',
    run Demo.reserved_frame Demo.world1 = Some (tt, w') /\
    trace w' = trace Demo.world1 ++ found_endpoint ++
               [Log AppWarn "Invalid opcode: 0x%x  [%s:%d]"] /\
    reactor w' = reactor Demo.world1 /\
    heap w' = heap Demo.world1 /\
    kernel w' = kernel Demo.world1.
Proof.
  assert (H1 : dispatcherObject (endpointName Demo.reserved_frame)
               = Some Demo.echo) by reflexivity.
  assert (H2 : ~ known_opcode (opcode Demo.reserved_frame)).
  { unfold known_opcode. simpl.
    unfold TWebSocketFrame.Continuation, TWebSocketFrame.TextFrame,
      TWebSocketFrame.BinaryFrame, TWebSocketFrame.Close, TWebSocketFrame.Ping,
      TWebSocketFrame.Pong. lia. }
  split; [exact H1 |]. split; [exact H2 |].
  exact (unknown_opcode_logged_and_dropped Demo.reserved_frame Demo.echo
           Demo.world1 H1 H2).
Defined.

(** C7 as stated fails: a frame with an unknown opcode for a path whose
    endpoint does not resolve leaves no line in the log. *)
Lemma unknown_opcode_counterexample :
  ~ unknown_opcode_is_logged Demo.world1 Demo.stray_frame.
Proof.
  intros Hclaim.
  destruct Hclaim as (w' & tr & lvl & fmt & Hrun & Htr & Hin).
  { unfold known_opcode. simpl.
    unfold TWebSocketFrame.Continuation, TWebSocketFrame.TextFrame,
      TWebSocketFrame.BinaryFrame, TWebSocketFrame.Close, TWebSocketFrame.Ping,
      TWebSocketFrame.Pong. lia. }
  assert (Hw : run Demo.stray_frame Demo.world1 = Some (tt, Demo.world1))
    by reflexivity.
  rewrite Hw in Hrun. injection Hrun as <-.
  simpl in Htr. subst tr. by apply elem_of_nil in Hin.
Qed.

Lemma payload_list_translated_in_order_witness :
  dispatcherObject (endpointName Demo.text_frame) = Some Demo.echo /\
  exists (payloadList : list QVariant) (actions : list TSendData.t)
         (tr : list Effect),
    (forall v, handleOpcode Demo.text_frame Demo.echo v =
                 Some (payloadList, set_trace (trace v ++ tr) v)) /\
    run Demo.text_frame Demo.world1 =
      Some (tt, enqueued actions
                  (set_trace (trace Demo.world1 ++ found_endpoint ++ tr)
                             Demo.world1)) /\
    Forall2 (translates (socketUuid Demo.text_frame)) payloadList actions.
Proof.
  assert (H1 : dispatcherObject (endpointName Demo.text_frame)
               = Some Demo.echo) by reflexivity.
  split; [exact H1 |].
  exact (payload_list_translated_in_order Demo.text_frame Demo.echo
           Demo.world1 H1).
Defined.

(** The echo endpoint on a text frame: one text frame goes on the queue. *)
Example text_frame_run :
  exists w',
    run Demo.text_frame Demo.world1 = Some (tt, w') /\
    sendRequests (reactor w') =
      [sendAction "conn-a" TWebSocketFrame.TextFrame "hi"] /\
    filter (fun e => is_invoke e = true) (trace w') =
      [Invoke (OnTextReceived "hi")].
Proof.
  eexists. split; [vm_compute; reflexivity |].
  split; vm_compute; reflexivity.
Qed.

Lemma ping_answered_and_close_closed_witness :
  dispatcherObject (endpointName Demo.ping_frame) = Some Demo.echo /\
  opcode Demo.ping_frame = TWebSocketFrame.Ping /\
  onPing Demo.echo = [] /\
  run Demo.ping_frame Demo.world1 =
    Some (tt, enqueued
                (map (actionOf "conn-a") (onPing Demo.echo) ++
                 [sendAction "conn-a" TWebSocketFrame.Pong EmptyString])
                (set_trace (trace Demo.world1 ++ found_endpoint ++
                            [Invoke OnPing]) Demo.world1)) /\
  dispatcherObject (endpointName Demo.close_frame) = Some Demo.echo /\
  opcode Demo.close_frame = TWebSocketFrame.Close /\
  run Demo.close_frame Demo.world1 =
    Some (tt, enqueued
                (map (actionOf "conn-a") (onClose Demo.echo) ++
                 [disconnectAction "conn-a"])
                (set_trace (trace Demo.world1 ++ found_endpoint ++
                            [Invoke OnClose]) Demo.world1)).
Proof.
  assert (H1 : dispatcherObject (endpointName Demo.ping_frame)
               = Some Demo.echo) by reflexivity.
  assert (H2 : opcode Demo.ping_frame = TWebSocketFrame.Ping) by reflexivity.
  assert (H3 : dispatcherObject (endpointName Demo.close_frame)
               = Some Demo.echo) by reflexivity.
  assert (H4 : opcode Demo.close_frame = TWebSocketFrame.Close) by reflexivity.
  split; [exact H1 |]. split; [exact H2 |]. split; [reflexivity |].
  split.
  { exact (proj2 (proj1 (ping_answered_and_close_closed Demo.ping_frame
                           Demo.echo Demo.world1 H1) H2)). }
  split; [exact H3 |]. split; [exact H4 |].
  exact (proj2 (proj2 (ping_answered_and_close_closed Demo.close_frame
                         Demo.echo Demo.world1 H3) H4)).
Defined.

(** * Further properties of the code *)

(** ** The event loop: [wait], [next] and the queries (lines 53-109) *)
Section EventLoopMore.
Context {P : Platform} {F : Framework}.
Implicit Types (w : World) (e : TEpoll).

(** What [wait] leaves behind, in full. *)
Lemma wait_exact w (timeout n err : Z) (evs : list epoll_event) (k : Kernel) :
  tf_epoll_wait (kernel w) (epollFd (reactor w)) MaxEvents timeout
    = (n, err, evs, k) ->
  wait timeout w =
    Some (n, mk_World
               (mk_TEpoll (epollFd (reactor w))
                          (evs ++ drop (length evs) (events (reactor w)))
                          false n 0 (pollingSockets (reactor w))
                          (sendRequests (reactor w)))
               (heap w) k
               (trace w ++ SysEpollWait timeout n err ::
                  (if n <? 0
                   then [Log SystemError "Failed epoll_wait() : errno:%d"]
                   else []))
               (uuidsIssued w)).
Proof.
  intros Hwait. unfold wait, mbind, M_bind, bind. simpl. rewrite Hwait. simpl.
  destruct (n <? 0); simpl; unfold set_trace; simpl;
    by rewrite <- ?app_assoc.
Qed.

Lemma nextTimes_spec (k i : nat) w :
  eventIterator (reactor w) = Z.of_nat i ->
  Z.of_nat (i + k) <= numEvents (reactor w) ->
  (i + k <= length (events (reactor w)))%nat ->
  nextTimes k w =
    Some (map ev_data_ptr (take k (drop i (events (reactor w)))),
          set_reactor (set_eventIterator (Z.of_nat (i + k)) (reactor w)) w).
Proof.
  revert i w. induction k as [| k IH]; intros i w Hit Hn Hlen; simpl.
  - rewrite Nat.add_0_r, <- Hit. by destruct w as [[] ? ? ? ?].
  - destruct (lookup_lt_is_Some_2 (events (reactor w)) i) as [ev Hev]; [lia |].
    unfold mbind, M_bind, bind, nextM.
    rewrite next_nonneg by (rewrite Hit; lia). rewrite Hit.
    destruct (Z.ltb_spec (Z.of_nat i) (numEvents (reactor w))) as [_ | ?];
      [| lia].
    rewrite Nat2Z.id, Hev. simpl.
    rewrite (IH (S i)); simpl; [| lia | lia | lia].
    rewrite (drop_S _ _ _ Hev). simpl.
    replace (i + S k)%nat with (S (i + k)) by lia. reflexivity.
Qed.

(** The events of one [wait] are handed out by [next], each once and in
    the order the kernel reported them, and then [next] returns null: after
    a [wait] that returned [n >= 0] with the events [evs], [n] calls of
    [next] return the sockets of [evs] in order and the call after them
    returns null; no call reads outside the array. *)
Theorem wait_then_next_enumerates w (timeout n err : Z)
    (evs : list epoll_event) (k : Kernel) :
  length (events (reactor w)) = Z.to_nat MaxEvents ->
  tf_epoll_wait (kernel w) (epollFd (reactor w)) MaxEvents timeout
    = (n, err, evs, k) ->
  0 <= n ->
  exists w',
    (m ← wait timeout; ps ← nextTimes (Z.to_nat m); q ← nextM; ret (m, ps, q)) w
      = Some ((n, map ev_data_ptr evs, NULL), w') /\
    eventIterator (reactor w') = n /\
    numEvents (reactor w') = n /\
    heap w' = heap w /\
    pollingSockets (reactor w') = pollingSockets (reactor w).
Proof.
  intros Hlen Hwait Hn.
  pose proof (tf_epoll_wait_bound (kernel w) (epollFd (reactor w)) MaxEvents
                timeout) as Hbound.
  rewrite Hwait in Hbound. destruct Hbound as [Hmax Hevs]; [reflexivity |].
  assert (Hlevs : length evs = Z.to_nat n) by lia.
  unfold mbind at 1, M_bind, bind. rewrite (wait_exact w _ _ _ _ _ Hwait).
  unfold mbind at 1, M_bind, bind.
  rewrite (nextTimes_spec (Z.to_nat n) 0); simpl;
    [| reflexivity | lia
     | rewrite length_app, length_drop, Hlen; unfold MaxEvents in *; lia].
  rewrite drop_0, <- Hlevs, take_app_length.
  unfold mbind, M_bind, bind, nextM.
  rewrite next_nonneg by (simpl; lia). simpl.
  destruct (Z.ltb_spec (Z.of_nat (length evs)) n) as [? | _]; [lia |].
  simpl. eexists. split; [reflexivity |]. simpl. repeat split. lia.
Qed.

(** A [wait] that fails hands out nothing: it returns the negative count,
    logs the failure, leaves the event array as it was, and afterwards
    [next] returns null and both queries answer [false]. *)
Theorem failed_wait_hands_out_nothing w (timeout n err : Z)
    (evs : list epoll_event) (k : Kernel) :
  tf_epoll_wait (kernel w) (epollFd (reactor w)) MaxEvents timeout
    = (n, err, evs, k) ->
  n < 0 ->
  exists w',
    (m ← wait timeout; q ← nextM; ret (m, q)) w = Some ((n, NULL), w') /\
    canReceive (reactor w') = Some false /\
    canSend (reactor w') = Some false /\
    events (reactor w') = events (reactor w) /\
    trace w' = trace w ++
      [SysEpollWait timeout n err;
       Log SystemError "Failed epoll_wait() : errno:%d"].
Proof.
  intros Hwait Hn.
  pose proof (tf_epoll_wait_bound (kernel w) (epollFd (reactor w)) MaxEvents
                timeout) as Hbound.
  rewrite Hwait in Hbound. destruct Hbound as [_ Hevs]; [reflexivity |].
  assert (evs = []) as -> by (destruct evs; [reflexivity | simpl in Hevs; lia]).
  unfold mbind at 1, M_bind, bind. rewrite (wait_exact w _ _ _ _ _ Hwait).
  destruct (Z.ltb_spec n 0) as [_ | ?]; [| lia].
  unfold mbind, M_bind, bind, nextM.
  rewrite next_nonneg by (simpl; lia). simpl.
  destruct (Z.ltb_spec 0 n) as [? | _]; [lia |].
  simpl. eexists. split; [reflexivity |]. simpl.
  rewrite drop_0. auto.
Qed.

(** After [next] has returned an event's socket, [canReceive] and
    [canSend] answer for that event: they test [EPOLLIN] and [EPOLLOUT] in
    the mask of the entry [next] has just stepped over. *)
Theorem queries_answer_for_the_event_of_next e :
  iterator_ok e ->
  eventIterator e < numEvents e ->
  exists ev e',
    events e !! Z.to_nat (eventIterator e) = Some ev /\
    next e = Some (ev_data_ptr ev, e') /\
    canReceive e' = Some (to_bool (Z.land (ev_events ev) EPOLLIN)) /\
    canSend e' = Some (to_bool (Z.land (ev_events ev) EPOLLOUT)) /\
    iterator_ok e'.
Proof.
  intros (Hlen & H0 & Hit & Hn) Hlt.
  destruct (lookup_lt_is_Some_2 (events e) (Z.to_nat (eventIterator e)))
    as [ev Hev].
  { rewrite Hlen. unfold MaxEvents in *. lia. }
  exists ev, (set_eventIterator (eventIterator e + 1) e).
  split; [exact Hev |]. split.
  { rewrite (next_nonneg e H0).
    destruct (Z.ltb_spec (eventIterator e) (numEvents e)); [| lia].
    by rewrite Hev. }
  unfold canReceive, canSend. simpl.
  destruct (Z.leb_spec (eventIterator e + 1) 0); [lia |].
  replace (eventIterator e + 1 - 1) with (eventIterator e) by lia.
  rewrite Hev. simpl. do 2 (split; [reflexivity |]).
  unfold iterator_ok. simpl. repeat split; [exact Hlen | lia | lia | exact Hn].
Qed.

Lemma loop_reachable_iterator_ok w :
  loop_reachable w -> iterator_ok (reactor w).
Proof.
  induction 1 as [created arr h k tr n Hlen
                 | w timeout m w' _ IH Hwait
                 | w p w' _ IH Hnext
                 | w w' _ IH Hev Hn Hit].
  - unfold iterator_ok. simpl. unfold MaxEvents. repeat split; [exact Hlen | lia..].
  - destruct (wait_iterator_ok w timeout (proj1 IH))
      as (m' & w'' & Hrun & Hok & _).
    rewrite Hwait in Hrun. by injection Hrun as <- <-.
  - unfold nextM in Hnext.
    destruct (next_iterator_ok (reactor w) IH) as (q & e' & Hn & Hok).
    rewrite Hn in Hnext. by injection Hnext as <- <-.
  - unfold iterator_ok in *. by rewrite Hev, Hn, Hit.
Qed.

(** No access outside the event array: in every state the event loop's
    interface reaches from the constructor (with an array of [MaxEvents]
    entries), [canReceive], [canSend] and [next] read inside the array and
    [wait] returns. *)
Theorem loop_reachable_in_bounds w :
  loop_reachable w ->
  is_Some (canReceive (reactor w)) /\
  is_Some (canSend (reactor w)) /\
  is_Some (nextM w) /\
  forall timeout, is_Some (wait timeout w).
Proof.
  intros Hreach. pose proof (loop_reachable_iterator_ok w Hreach) as Hok.
  destruct (canReceive_in_bounds _ Hok) as [Hr Hs].
  split; [exact Hr |]. split; [exact Hs |]. split.
  - destruct (next_iterator_ok _ Hok) as (p & e' & Hn & _).
    unfold nextM. rewrite Hn. eauto.
  - intros timeout.
    destruct (wait_iterator_ok w timeout (proj1 Hok)) as (m & w' & Hrun & _).
    rewrite Hrun. eauto.
Qed.

End EventLoopMore.

Lemma wait_then_next_enumerates_witness :
  length (events (reactor Scenario.ready_world)) = Z.to_nat MaxEvents /\
  0 <= 2 /\
  exists w',
    (m ← @wait Scenario.ready 0; ps ← nextTimes (Z.to_nat m); q ← nextM;
     ret (m, ps, q)) Scenario.ready_world
      = Some ((2, [1%N; 2%N], NULL), w') /\
    eventIterator (reactor w') = 2 /\
    numEvents (reactor w') = 2 /\
    heap w' = heap Scenario.ready_world /\
    pollingSockets (reactor w') = pollingSockets (reactor Scenario.ready_world).
Proof.
  assert (H1 : length (events (reactor Scenario.ready_world))
               = Z.to_nat MaxEvents) by reflexivity.
  assert (H2 : 0 <= 2) by lia.
  split; [exact H1 |]. split; [exact H2 |].
  exact (@wait_then_next_enumerates Scenario.ready Scenario.ready_world 0 2 0
           [mk_epoll_event EPOLLIN 1%N;
            mk_epoll_event (Z.lor EPOLLIN EPOLLOUT) 2%N]
           (kernel Scenario.ready_world) H1 eq_refl H2).
Defined.

Lemma failed_wait_hands_out_nothing_witness :
  -1 < 0 /\
  exists w',
    (m ← @wait Scenario.failing 100; q ← nextM; ret (m, q)) Scenario.failing_world
      = Some ((-1, NULL), w') /\
    canReceive (reactor w') = Some false /\
    canSend (reactor w') = Some false /\
    events (reactor w') = events (reactor Scenario.failing_world) /\
    trace w' = trace Scenario.failing_world ++
      [SysEpollWait 100 (-1) 9;
       Log SystemError "Failed epoll_wait() : errno:%d"].
Proof.
  assert (H : -1 < 0) by lia.
  split; [exact H |].
  exact (@failed_wait_hands_out_nothing Scenario.failing Scenario.failing_world
           100 (-1) 9 [] tt eq_refl H).
Defined.

Lemma queries_answer_for_the_event_of_next_witness :
  iterator_ok Scenario.after_wait /\
  eventIterator Scenario.after_wait < numEvents Scenario.after_wait /\
  exists ev e',
    events Scenario.after_wait !! Z.to_nat (eventIterator Scenario.after_wait)
      = Some ev /\
    next Scenario.after_wait = Some (ev_data_ptr ev, e') /\
    canReceive e' = Some (to_bool (Z.land (ev_events ev) EPOLLIN)) /\
    canSend e' = Some (to_bool (Z.land (ev_events ev) EPOLLOUT)) /\
    iterator_ok e'.
Proof.
  assert (H1 : iterator_ok Scenario.after_wait).
  { unfold iterator_ok. simpl. unfold MaxEvents. repeat split; lia. }
  assert (H2 : eventIterator Scenario.after_wait < numEvents Scenario.after_wait)
    by (simpl; lia).
  split; [exact H1 |]. split; [exact H2 |].
  exact (queries_answer_for_the_event_of_next Scenario.after_wait H1 H2).
Defined.

(** The first event of [Scenario.after_wait] is readable and not writable. *)
Example first_event_readable_only :
  exists e',
    next Scenario.after_wait = Some (1%N, e') /\
    canReceive e' = Some true /\ canSend e' = Some false.
Proof. eexists. repeat split; reflexivity. Qed.

Lemma loop_reachable_in_bounds_witness :
  loop_reachable Scenario.waited_world /\
  is_Some (canReceive (reactor Scenario.waited_world)) /\
  is_Some (canSend (reactor Scenario.waited_world)) /\
  is_Some (nextM Scenario.waited_world) /\
  forall timeout, is_Some (wait timeout Scenario.waited_world).
Proof.
  assert (Hreach : loop_reachable Scenario.waited_world).
  { apply (@reach_wait Scenario.ready Scenario.new_world 0 2).
    - apply (@reach_new Scenario.ready). reflexivity.
    - reflexivity. }
  split; [exact Hreach |].
  exact (loop_reachable_in_bounds Scenario.waited_world Hreach).
Defined.

(** ** Registration, case by case (lines 133-194) *)
Section RegistrationMore.
Context {P : Platform} {F : Framework}.
Implicit Types (w : World) (p : N) (s : TEpollSocket).

(** [addPoll] registers exactly when the kernel accepts: with a non-empty
    mask and the kernel's answer [(r, err)], the result is [!r]; the
    registry files the socket under its UUID (so that a lookup of the UUID
    yields the socket) exactly when [r >= 0] and is unchanged otherwise;
    and the one line logged after the system call is an error exactly when
    [r < 0] with an [errno] other than [EEXIST]. *)
Theorem addPoll_registers_iff_accepted w p s (evmask r err : Z) (k : Kernel) :
  heap w !! p = Some s ->
  evmask <> 0 ->
  tf_epoll_ctl (kernel w) (epollFd (reactor w)) EPOLL_CTL_ADD (sd s)
    (Some (mk_epoll_event evmask p)) = (r, err, k) ->
  exists w' lg,
    addPoll p evmask w = Some (lnot r, w') /\
    heap w' = heap w /\ kernel w' = k /\
    trace w' = trace w ++
      SysEpollCtl EPOLL_CTL_ADD (sd s) (Some (mk_epoll_event evmask p)) r err
      :: lg /\
    (0 <= r ->
     pollingSockets (reactor w') = <[sock_uuid s := p]> (pollingSockets (reactor w)) /\
     sockOf (pollingSockets (reactor w')) (sock_uuid s) = p /\
     Forall (fun e => is_error e = false) lg) /\
    (r < 0 ->
     pollingSockets (reactor w') = pollingSockets (reactor w) /\
     (Exists (fun e => is_error e = true) lg <-> err <> EEXIST)).
Proof.
  intros Hp Hev Hctl.
  unfold addPoll, lnot.
  destruct (Z.eqb_spec evmask 0) as [-> | _]; [done |].
  unfold mbind, M_bind, bind, deref, epoll_ctl. rewrite Hp, Hctl. simpl.
  destruct (Z.ltb_spec r 0) as [Hlt | Hge].
  - destruct (Z.eqb_spec err EEXIST) as [He | He]; simpl;
      eexists _, _; (split; [reflexivity |]); simpl;
      (split; [reflexivity |]); (split; [reflexivity |]).
    + split; [by instantiate (1 := []) |].
      split; [lia |]. intros _. split; [reflexivity |].
      split; [intros Hex; inversion Hex | done].
    + split; [by rewrite <- app_assoc |].
      split; [lia |]. intros _. split; [reflexivity |].
      split; [done | intros _; by apply Exists_cons_hd].
  - simpl. eexists _, _. split; [reflexivity |]. simpl.
    split; [reflexivity |]. split; [reflexivity |].
    split; [by rewrite <- app_assoc |].
    split; [| lia]. intros _. split; [reflexivity |].
    split; [unfold sockOf; by rewrite lookup_insert_eq |].
    by repeat constructor.
Qed.

Lemma addPoll_accepted w p s (evmask err : Z) (k : Kernel) :
  heap w !! p = Some s ->
  evmask <> 0 ->
  tf_epoll_ctl (kernel w) (epollFd (reactor w)) EPOLL_CTL_ADD (sd s)
    (Some (mk_epoll_event evmask p)) = (0, err, k) ->
  exists w' lg,
    addPoll p evmask w = Some (true, w') /\
    heap w' = heap w /\
    pollingSockets (reactor w') = <[sock_uuid s := p]> (pollingSockets (reactor w)) /\
    trace w' = trace w ++
      SysEpollCtl EPOLL_CTL_ADD (sd s) (Some (mk_epoll_event evmask p)) 0 err
      :: lg.
Proof.
  intros Hp Hev Hctl.
  unfold addPoll, lnot.
  destruct (Z.eqb_spec evmask 0) as [-> | _]; [done |].
  unfold mbind, M_bind, bind, deref, epoll_ctl. rewrite Hp, Hctl. simpl.
  eexists _, _. split; [reflexivity |]. simpl.
  split; [reflexivity |]. split; [reflexivity |]. by rewrite <- app_assoc.
Qed.

Lemma deletePoll_absent w p s :
  heap w !! p = Some s ->
  pollingSockets (reactor w) !! sock_uuid s = None ->
  deletePoll p w = Some (false, w).
Proof.
  intros Hp Hreg. unfold deletePoll, mbind, M_bind, bind, deref, getReactor.
  by rewrite Hp, Hreg.
Qed.

(** Unregistering twice: whatever the kernel answers to the first
    [deletePoll], the socket's UUID is out of the registry afterwards, and
    a second [deletePoll] returns [false] and changes nothing: no system
    call, no log line. *)
Theorem deletePoll_twice w p s :
  heap w !! p = Some s ->
  exists r w1,
    deletePoll p w = Some (r, w1) /\
    pollingSockets (reactor w1) !! sock_uuid s = None /\
    deletePoll p w1 = Some (false, w1).
Proof.
  intros Hp.
  destruct (deletePoll_spec w p s Hp) as (r & w1 & Hrun & (Hh & _) & Hreg & _).
  exists r, w1. split; [exact Hrun |].
  assert (Hgone : pollingSockets (reactor w1) !! sock_uuid s = None)
    by (rewrite Hreg; apply lookup_delete_eq).
  split; [exact Hgone |].
  apply (deletePoll_absent w1 p s); [by rewrite Hh | exact Hgone].
Qed.

(** Registering and then unregistering a socket: when the kernel accepts
    the registration, the pair leaves the registry as it was with the
    socket's key removed, in particular as it was when the key was not
    there, and the trace starts with the [EPOLL_CTL_ADD] and holds the
    [EPOLL_CTL_DEL] after it. *)
Theorem addPoll_then_deletePoll w p s (evmask err : Z) (k : Kernel) :
  heap w !! p = Some s ->
  evmask <> 0 ->
  tf_epoll_ctl (kernel w) (epollFd (reactor w)) EPOLL_CTL_ADD (sd s)
    (Some (mk_epoll_event evmask p)) = (0, err, k) ->
  exists res w' r' err' tr1 tr2,
    (addPoll p evmask ;; deletePoll p) w = Some (res, w') /\
    pollingSockets (reactor w') = delete (sock_uuid s) (pollingSockets (reactor w)) /\
    (pollingSockets (reactor w) !! sock_uuid s = None ->
     pollingSockets (reactor w') = pollingSockets (reactor w)) /\
    heap w' = heap w /\
    trace w' = trace w ++
      SysEpollCtl EPOLL_CTL_ADD (sd s) (Some (mk_epoll_event evmask p)) 0 err
      :: tr1 ++ SysEpollCtl EPOLL_CTL_DEL (sd s) None r' err' :: tr2.
Proof.
  intros Hp Hev Hctl.
  destruct (addPoll_accepted w p s evmask err k Hp Hev Hctl)
    as (w1 & lg & Hadd & Hh1 & Hreg1 & Htr1).
  assert (Hp1 : heap w1 !! p = Some s) by (by rewrite Hh1).
  destruct (deletePoll_spec w1 p s Hp1)
    as (res & w2 & Hdel & (Hh2 & _) & Hreg2 & Hsys).
  destruct Hsys as (r' & err' & tr2 & Htr2).
  { rewrite Hreg1, lookup_insert_eq. eauto. }
  exists res, w2, r', err', lg, tr2.
  split; [unfold mbind, M_bind, bind; by rewrite Hadd |].
  assert (Hfinal : pollingSockets (reactor w2)
                   = delete (sock_uuid s) (pollingSockets (reactor w)))
    by (by rewrite Hreg2, Hreg1, delete_insert_eq).
  split; [exact Hfinal |].
  split; [intros Hnone; by rewrite Hfinal, delete_id |].
  split; [congruence |].
  rewrite Htr2, Htr1. by rewrite <- app_assoc.
Qed.

End RegistrationMore.

Lemma addPoll_registers_iff_accepted_witness :
  heap Scenario.fresh_world !! 1%N = Some Demo.http7 /\
  EPOLL_RESET <> 0 /\
  exists w' lg,
    addPoll 1%N EPOLL_RESET Scenario.fresh_world = Some (lnot 0, w') /\
    heap w' = heap Scenario.fresh_world /\
    kernel w' = {[ 7 := mk_epoll_event EPOLL_RESET 1%N ]} /\
    trace w' = trace Scenario.fresh_world ++
      SysEpollCtl EPOLL_CTL_ADD (sd Demo.http7)
        (Some (mk_epoll_event EPOLL_RESET 1%N)) 0 0 :: lg /\
    (0 <= 0 ->
     pollingSockets (reactor w') =
       <[sock_uuid Demo.http7 := 1%N]>
         (pollingSockets (reactor Scenario.fresh_world)) /\
     sockOf (pollingSockets (reactor w')) (sock_uuid Demo.http7) = 1%N /\
     Forall (fun e => is_error e = false) lg) /\
    (0 < 0 ->
     pollingSockets (reactor w') = pollingSockets (reactor Scenario.fresh_world) /\
     (Exists (fun e => is_error e = true) lg <-> 0 <> EEXIST)).
Proof.
  assert (H1 : heap Scenario.fresh_world !! 1%N = Some Demo.http7)
    by reflexivity.
  assert (H2 : EPOLL_RESET <> 0) by (vm_compute; discriminate).
  split; [exact H1 |]. split; [exact H2 |].
  exact (addPoll_registers_iff_accepted Scenario.fresh_world 1%N Demo.http7
           EPOLL_RESET 0 0 {[ 7 := mk_epoll_event EPOLL_RESET 1%N ]}
           H1 H2 eq_refl).
Defined.

Lemma deletePoll_twice_witness :
  heap Demo.world1 !! 1%N = Some Demo.http7 /\
  exists r w1,
    deletePoll 1%N Demo.world1 = Some (r, w1) /\
    pollingSockets (reactor w1) !! sock_uuid Demo.http7 = None /\
    deletePoll 1%N w1 = Some (false, w1).
Proof.
  assert (H1 : heap Demo.world1 !! 1%N = Some Demo.http7) by reflexivity.
  split; [exact H1 |].
  exact (deletePoll_twice Demo.world1 1%N Demo.http7 H1).
Defined.

Lemma addPoll_then_deletePoll_witness :
  heap Scenario.fresh_world !! 1%N = Some Demo.http7 /\
  EPOLL_RESET <> 0 /\
  exists res w' r' err' tr1 tr2,
    (addPoll 1%N EPOLL_RESET ;; deletePoll 1%N) Scenario.fresh_world
      = Some (res, w') /\
    pollingSockets (reactor w') =
      delete (sock_uuid Demo.http7)
             (pollingSockets (reactor Scenario.fresh_world)) /\
    (pollingSockets (reactor Scenario.fresh_world) !! sock_uuid Demo.http7 = None ->
     pollingSockets (reactor w') = pollingSockets (reactor Scenario.fresh_world)) /\
    heap w' = heap Scenario.fresh_world /\
    trace w' = trace Scenario.fresh_world ++
      SysEpollCtl EPOLL_CTL_ADD (sd Demo.http7)
        (Some (mk_epoll_event EPOLL_RESET 1%N)) 0 0
      :: tr1 ++ SysEpollCtl EPOLL_CTL_DEL (sd Demo.http7) None r' err' :: tr2.
Proof.
  assert (H1 : heap Scenario.fresh_world !! 1%N = Some Demo.http7)
    by reflexivity.
  assert (H2 : EPOLL_RESET <> 0) by (vm_compute; discriminate).
  split; [exact H1 |]. split; [exact H2 |].
  exact (addPoll_then_deletePoll Scenario.fresh_world 1%N Demo.http7
           EPOLL_RESET 0 {[ 7 := mk_epoll_event EPOLL_RESET 1%N ]}
           H1 H2 eq_refl).
Defined.

(** ** The actions of the send queue, one by one (lines 203-262) *)
Section DispatchMore.
Context {P : Platform} {F : Framework}.
Implicit Types (w : World) (p : N) (s : TEpollSocket) (d : TSendData.t).

Lemma modifyPoll_exact w p s (evmask r err : Z) (k : Kernel) :
  heap w !! p = Some s ->
  evmask <> 0 ->
  tf_epoll_ctl (kernel w) (epollFd (reactor w)) EPOLL_CTL_MOD (sd s)
    (Some (mk_epoll_event evmask p)) = (r, err, k) ->
  modifyPoll p evmask w =
    Some (lnot r,
          set_trace (trace w ++
                     [SysEpollCtl EPOLL_CTL_MOD (sd s)
                        (Some (mk_epoll_event evmask p)) r err;
                      modifyPoll_log r])
                    (set_kernel k w)).
Proof.
  intros Hp Hev Hctl. unfold modifyPoll, lnot, modifyPoll_log.
  destruct (Z.eqb_spec evmask 0) as [-> | _]; [done |].
  unfold mbind, M_bind, bind, deref, epoll_ctl. rewrite Hp, Hctl. simpl.
  destruct (r <? 0); simpl; unfold set_trace; simpl; by rewrite <- app_assoc.
Qed.

(** From [setSendData] to the connection's buffer queue. For a registered
    connection with an open descriptor and an empty send queue, the bytes
    handed to [setSendData] are, after the next drain, the last buffer of
    that connection's outgoing queue; the registry is as it was, the send
    queue is empty, and the drain made exactly one system call, the
    re-arming [EPOLL_CTL_MOD] with [EPOLLIN | EPOLLOUT | EPOLLET]. The
    buffer is appended whether or not the re-arming succeeds. *)
Theorem setSendData_reaches_buffer_queue w (u data : QByteArray) p s
    (r err : Z) (k : Kernel) :
  pollingSockets (reactor w) !! u = Some p ->
  p <> NULL ->
  heap w !! p = Some s ->
  0 < sd s ->
  sendRequests (reactor w) = [] ->
  tf_epoll_ctl (kernel w) (epollFd (reactor w)) EPOLL_CTL_MOD (sd s)
    (Some (mk_epoll_event EPOLL_RESET p)) = (r, err, k) ->
  exists w',
    (setSendData u data ;; dispatchSendData) w = Some (tt, w') /\
    heap w' = <[p := pushAll [Some (createSendBuffer data)] s]> (heap w) /\
    pollingSockets (reactor w') = pollingSockets (reactor w) /\
    sendRequests (reactor w') = [] /\
    kernel w' = k /\
    trace w' = trace w ++
      [SysEpollCtl EPOLL_CTL_MOD (sd s) (Some (mk_epoll_event EPOLL_RESET p))
         r err;
       modifyPoll_log r;
       DeleteSendData (TSendData.new_buf TSendData.Send u
                         (Some (createSendBuffer data)))].
Proof.
  intros Hreg Hne Hp Hopen Hq Hctl.
  set (d := TSendData.new_buf TSendData.Send u (Some (createSendBuffer data))).
  assert (Hwp : wp (setSendData u data ;; dispatchSendData)
    (fun _ w' =>
       heap w' = <[p := pushAll [Some (createSendBuffer data)] s]> (heap w) /\
       pollingSockets (reactor w') = pollingSockets (reactor w) /\
       sendRequests (reactor w') = [] /\
       kernel w' = k /\
       trace w' = trace w ++
         [SysEpollCtl EPOLL_CTL_MOD (sd s)
            (Some (mk_epoll_event EPOLL_RESET p)) r err;
          modifyPoll_log r; DeleteSendData d]) w).
  { apply wp_bind. unfold setSendData, enqueue. apply wp_modifyReactor.
    unfold dispatchSendData, dequeue.
    apply wp_bind, wp_bind, wp_getReactor, wp_bind, wp_modifyReactor, wp_ret.
    simpl. rewrite Hq. simpl. fold d.
    apply wp_bind.
    match goal with |- wp _ _ ?w0 =>
      unfold wp at 1; rewrite (dispatchOne_live w0 d p s Hreg Hne Hp Hopen)
    end.
    apply wp_bind. unfold applySendData. simpl.
    apply wp_bind. unfold enqueueSendData.
    apply (wp_update p _ s); [exact Hp |].
    apply wp_bind.
    match goal with |- wp _ _ ?w1 =>
      unfold wp at 1;
      rewrite (modifyPoll_exact w1 p
                 (push_sendBuf (Some (createSendBuffer data)) s)
                 EPOLL_RESET r err k
                 (lookup_insert_eq _ _ _) EPOLL_RESET_nonzero Hctl)
    end.
    eexists _, _. split; [reflexivity |].
    apply wp_ret, wp_emit, wp_ret. simpl.
    repeat split. by rewrite <- app_assoc. }
  destruct Hwp as ([] & w' & Hrun & Hpost). exists w'. by split.
Qed.

(** The guard on the descriptor: an entry for a registered connection
    whose descriptor field is not positive is discarded, whatever its
    method. A [Disconnect] for such a connection therefore leaves it in the
    registry and on the heap as it was, not scheduled for deletion. *)
Theorem entry_for_closed_descriptor_is_discarded w d p s :
  pollingSockets (reactor w) !! TSendData.uuid d = Some p ->
  heap w !! p = Some s ->
  sd s <= 0 ->
  exists w',
    dispatchOne d w = Some (tt, w') /\
    reactor w' = reactor w /\
    heap w' = heap w /\
    kernel w' = kernel w /\
    trace w' = trace w ++ [DeleteSendData d].
Proof.
  intros Hreg Hp Hsd.
  unfold dispatchOne, pollingSockets_index, mbind, M_bind, bind, getReactor.
  rewrite Hreg. simpl.
  destruct (N.eqb_spec p NULL) as [-> | _].
  - eexists. split; [reflexivity |]. simpl. auto.
  - unfold deref. rewrite Hp. simpl.
    destruct (Z.ltb_spec 0 (sd s)) as [? | _]; [lia |].
    eexists. split; [reflexivity |]. simpl. auto.
Qed.

Lemma filter_close_benign (tr : list Effect) :
  Forall (fun e => benign e = true) tr ->
  filter (fun e => is_close e = true) tr = [].
Proof.
  induction 1 as [| e tr He _ IH]; [reflexivity |].
  rewrite filter_cons, IH. destruct e; simpl in *; try done.
Qed.

Lemma applyDisconnect_full w d p s :
  heap w !! p = Some s ->
  TSendData.method d = TSendData.Disconnect ->
  0 < sd s ->
  is_Some (pollingSockets (reactor w) !! sock_uuid s) ->
  wp (applySendData d p)
     (fun _ w' =>
        heap w' = <[p := mark_deleteLater (set_sd 0 s)]> (heap w) /\
        pollingSockets (reactor w') =
          delete (sock_uuid s) (pollingSockets (reactor w)) /\
        sendRequests (reactor w') = sendRequests (reactor w) /\
        exists r err tr,
          trace w' = trace w ++
            (SysEpollCtl EPOLL_CTL_DEL (sd s) None r err :: tr) ++
            [SysClose (sd s); DeleteLater p] /\
          Forall (fun e => benign e = true) tr) w.
Proof.
  intros Hp Hm Hopen Hsome. unfold applySendData. rewrite Hm. simpl.
  apply wp_bind.
  eapply wp_mono; [apply (deletePoll_spec _ p s); exact Hp |].
  intros _ w1 ((Hh & Hu & Hq & tr & Htr & Hben) & Hreg & Hdel).
  destruct (Hdel Hsome) as (r & err & tr' & Htr').
  assert (tr = SysEpollCtl EPOLL_CTL_DEL (sd s) None r err :: tr') as ->.
  { rewrite Htr in Htr'. by apply app_inv_head in Htr'. }
  assert (Hp1 : heap w1 !! p = Some s) by (rewrite Hh; exact Hp).
  apply wp_bind. unfold close.
  apply wp_bind, (wp_deref p s); [exact Hp1 |].
  apply Z.ltb_lt in Hopen. rewrite Hopen. simpl.
  apply wp_bind, wp_bind, wp_modify, wp_emit.
  apply (wp_update p _ s); [exact Hp1 |].
  unfold deleteLater. apply wp_bind.
  apply (wp_update p _ (set_sd 0 s)); [simpl; apply lookup_insert_eq |].
  apply wp_emit. simpl. rewrite Hh, Htr, insert_insert_eq.
  repeat split; try assumption.
  exists r, err, tr'. split; [by rewrite <- !app_assoc |].
  by inversion Hben.
Qed.

Lemma filter_close_marks (l : list TSendData.t) :
  filter (fun e => is_close e = true) (map DeleteSendData l) = [].
Proof.
  induction l as [| d l IH]; [reflexivity |].
  simpl. rewrite filter_cons. simpl. exact IH.
Qed.

(** A [Disconnect] applied: for a registered connection with an open
    descriptor the loop body returns; the connection is in no entry of the
    registry any more; [EPOLL_CTL_DEL] is issued first and then the
    descriptor is closed, once; the descriptor field is cleared and the
    object is scheduled for deletion, not destroyed; every other object on
    the heap is as it was. *)
Theorem disconnect_retires_connection w (u : QByteArray) p s :
  wf w ->
  pollingSockets (reactor w) !! u = Some p ->
  heap w !! p = Some s ->
  0 < sd s ->
  let d := TSendData.new_buf TSendData.Disconnect u None in
  exists w' r err tr,
    dispatchOne d w = Some (tt, w') /\
    heap w' = <[p := mark_deleteLater (set_sd 0 s)]> (heap w) /\
    pollingSockets (reactor w') = delete u (pollingSockets (reactor w)) /\
    (forall k, pollingSockets (reactor w') !! k <> Some p) /\
    trace w' = trace w ++
      (SysEpollCtl EPOLL_CTL_DEL (sd s) None r err :: tr) ++
      [SysClose (sd s); DeleteLater p; DeleteSendData d] /\
    Forall (fun e => benign e = true) tr.
Proof.
  intros Hwf Hreg Hp Hopen d.
  assert (Hne : p <> NULL) by (intros ->; destruct Hwf; congruence).
  assert (Hu : sock_uuid s = u).
  { destruct (proj2 Hwf _ _ Hreg) as [-> | (t & Ht & Hu)]; [done | congruence]. }
  destruct (applyDisconnect_full w d p s Hp eq_refl Hopen)
    as ([] & w1 & Hrun & Hh & Hreg1 & _ & r & err & tr & Htr & Hben).
  { rewrite Hu. eauto. }
  exists (set_trace (trace w1 ++ [DeleteSendData d]) w1), r, err, tr.
  split.
  { rewrite (dispatchOne_live w d p s Hreg Hne Hp Hopen).
    unfold mbind, M_bind, bind. by rewrite Hrun. }
  simpl. split; [exact Hh |]. split; [by rewrite Hreg1, Hu |].
  split; [rewrite Hreg1; by apply (wf_of_delete_gone (heap w)) |].
  split; [| exact Hben].
  rewrite Htr. by rewrite <- !app_assoc.
Qed.

(** Entries for a UUID under which the registry holds no connection are
    discarded one after the other. *)
Lemma dispatchList_discards (u : QByteArray) (rest : list TSendData.t) w :
  sockOf (pollingSockets (reactor w)) u = NULL ->
  Forall (fun d => TSendData.uuid d = u) rest ->
  exists w',
    dispatchList rest w = Some (tt, w') /\
    heap w' = heap w /\
    kernel w' = kernel w /\
    sendRequests (reactor w') = sendRequests (reactor w) /\
    trace w' = trace w ++ map DeleteSendData rest /\
    (forall k q, pollingSockets (reactor w') !! k = Some q -> q <> NULL ->
                 pollingSockets (reactor w) !! k = Some q).
Proof.
  intros Hnull Hall. revert w Hnull.
  induction Hall as [| d rest Hd _ IH]; intros w Hnull; simpl.
  - exists w. rewrite app_nil_r. by repeat split.
  - unfold sockOf in Hnull.
    destruct (pollingSockets (reactor w) !! u) as [q |] eqn:Hreg.
    + simpl in Hnull. subst q. rewrite <- Hd in Hreg.
      unfold mbind, M_bind, bind. rewrite (dispatchOne_null w d Hreg).
      destruct (IH (set_trace (trace w ++ [DeleteSendData d]) w))
        as (w' & Hrun & Hh & Hk & Hq & Htr & Hmono).
      { unfold sockOf. simpl. rewrite <- Hd, Hreg. reflexivity. }
      exists w'. split; [exact Hrun |]. simpl in *.
      repeat split; try assumption.
      by rewrite Htr, <- app_assoc.
    + rewrite <- Hd in Hreg.
      unfold mbind, M_bind, bind. rewrite (dispatchOne_absent w d Hreg).
      match goal with |- context [dispatchList rest ?w1] =>
        destruct (IH w1) as (w' & Hrun & Hh & Hk & Hq & Htr & Hmono)
      end.
      { unfold sockOf. simpl. rewrite Hd, lookup_insert_eq. reflexivity. }
      exists w'. split; [exact Hrun |]. simpl in *.
      repeat split; try assumption.
      * by rewrite Htr, <- app_assoc.
      * intros k q Hk' Hq'. specialize (Hmono k q Hk' Hq').
        apply lookup_insert_Some in Hmono as [[_ <-] | [_ Hm]]; [done | exact Hm].
Qed.

(** A run of [Send] entries for one registered, open connection. *)
Lemma dispatchList_sends (u : QByteArray) p (sends : list TSendData.t) w s :
  pollingSockets (reactor w) !! u = Some p ->
  p <> NULL ->
  heap w !! p = Some s ->
  0 < sd s ->
  Forall (fun d => TSendData.uuid d = u /\ TSendData.method d = TSendData.Send)
         sends ->
  exists w' tr,
    dispatchList sends w = Some (tt, w') /\
    heap w' = <[p := pushAll (map TSendData.buffer sends) s]> (heap w) /\
    pollingSockets (reactor w') = pollingSockets (reactor w) /\
    sendRequests (reactor w') = sendRequests (reactor w) /\
    trace w' = trace w ++ tr /\
    filter (fun e => is_close e = true) tr = [].
Proof.
  intros Hreg Hne Hp Hopen Hall. revert w s Hreg Hp Hopen.
  induction Hall as [| d sends [Hd Hm] _ IH]; intros w s Hreg Hp Hopen; simpl.
  - exists w, []. rewrite pushAll_nil, insert_id, app_nil_r by exact Hp.
    by repeat split.
  - rewrite <- Hd in Hreg.
    unfold mbind at 1, M_bind, bind.
    rewrite (dispatchOne_live w d p s Hreg Hne Hp Hopen).
    destruct (applySend_spec w d p s Hp Hm)
      as ([] & w1 & Hrun & Hh1 & Hreg1 & _ & Hq1 & tr1 & Htr1 & Hben1).
    unfold mbind at 1, M_bind, bind. rewrite Hrun.
    unfold emit, modify.
    destruct (IH (set_trace (trace w1 ++ [DeleteSendData d]) w1)
                 (push_sendBuf (TSendData.buffer d) s))
      as (w' & tr & Hloop & Hh & Hreg' & Hq' & Htr & Hcl).
    { simpl. rewrite Hreg1, <- Hd. exact Hreg. }
    { simpl. rewrite Hh1. apply lookup_insert_eq. }
    { exact Hopen. }
    exists w', (tr1 ++ [DeleteSendData d] ++ tr).
    split; [exact Hloop |]. simpl in *.
    split; [by rewrite Hh, Hh1, insert_insert_eq, pushAll_push |].
    split; [congruence |]. split; [congruence |].
    split; [rewrite Htr, Htr1; by rewrite <- !app_assoc |].
    rewrite filter_app, (filter_close_benign tr1 Hben1). simpl.
    rewrite filter_cons. simpl. exact Hcl.
Qed.

(** A [Disconnect] is final. Of the entries queued for one registered,
    open connection, the [Send]s ahead of the first [Disconnect] append
    their buffers to the connection's queue in order; the [Disconnect]
    retires the connection; and whatever follows for that UUID, further
    [Send]s, [Disconnect]s or an upgrade, is discarded. Over the whole run
    the descriptor is closed exactly once, the connection is in no entry
    of the registry at the end, and no other object on the heap changes. *)
Theorem disconnect_is_final w (u : QByteArray) p s
    (sends rest : list TSendData.t) :
  wf w ->
  pollingSockets (reactor w) !! u = Some p ->
  heap w !! p = Some s ->
  0 < sd s ->
  Forall (fun d => TSendData.uuid d = u /\ TSendData.method d = TSendData.Send)
         sends ->
  Forall (fun d => TSendData.uuid d = u) rest ->
  exists w' tr,
    dispatchList
      (sends ++ TSendData.new_buf TSendData.Disconnect u None :: rest) w
      = Some (tt, w') /\
    heap w' = <[p := mark_deleteLater
                       (set_sd 0 (pushAll (map TSendData.buffer sends) s))]>
                (heap w) /\
    sockOf (pollingSockets (reactor w')) u = NULL /\
    (forall k, pollingSockets (reactor w') !! k <> Some p) /\
    trace w' = trace w ++ tr /\
    filter (fun e => is_close e = true) tr = [SysClose (sd s)].
Proof.
  intros Hwf Hreg Hp Hopen Hsends Hrest.
  set (d := TSendData.new_buf TSendData.Disconnect u None).
  assert (Hne : p <> NULL) by (intros ->; destruct Hwf; congruence).
  assert (Hu : sock_uuid s = u).
  { destruct (proj2 Hwf _ _ Hreg) as [-> | (t & Ht & Hu)]; [done | congruence]. }
  destruct (dispatchList_sends u p sends w s Hreg Hne Hp Hopen Hsends)
    as (w1 & tr1 & Hrun1 & Hh1 & Hreg1 & _ & Htr1 & Hcl1).
  set (s1 := pushAll (map TSendData.buffer sends) s) in *.
  assert (Hp1 : heap w1 !! p = Some s1) by (rewrite Hh1; apply lookup_insert_eq).
  assert (Hregw1 : pollingSockets (reactor w1) !! TSendData.uuid d = Some p)
    by (rewrite Hreg1; exact Hreg).
  assert (Hwf1 : wf_of (heap w1) (pollingSockets (reactor w1))).
  { rewrite Hh1, Hreg1. by apply (wf_of_update _ _ p s). }
  destruct (applyDisconnect_full w1 d p s1 Hp1 eq_refl Hopen)
    as ([] & w2 & Hrun2 & Hh2 & Hreg2 & _ & r & err & tr2 & Htr2 & Hben2).
  { simpl. rewrite Hu, Hreg1. eauto. }
  set (w2' := set_trace (trace w2 ++ [DeleteSendData d]) w2).
  assert (Hgone : forall k, pollingSockets (reactor w2') !! k <> Some p).
  { simpl. rewrite Hreg2. by apply (wf_of_delete_gone (heap w1)). }
  destruct (dispatchList_discards u rest w2')
    as (w3 & Hrun3 & Hh3 & _ & _ & Htr3 & Hmono); [| exact Hrest |].
  { unfold sockOf. simpl. rewrite Hreg2. simpl. fold s1.
    replace (sock_uuid s) with u. by rewrite lookup_delete_eq. }
  exists w3,
    (tr1 ++ (SysEpollCtl EPOLL_CTL_DEL (sd s) None r err :: tr2) ++
     [SysClose (sd s); DeleteLater p; DeleteSendData d] ++
     map DeleteSendData rest).
  split.
  { rewrite dispatchList_app. unfold mbind at 1, M_bind, bind.
    rewrite Hrun1. simpl. unfold mbind at 1, M_bind, bind.
    rewrite (dispatchOne_live w1 d p s1 Hregw1 Hne Hp1 Hopen).
    unfold mbind at 1, M_bind, bind. rewrite Hrun2. exact Hrun3. }
  split; [rewrite Hh3; simpl; by rewrite Hh2, Hh1, insert_insert_eq |].
  split.
  { unfold sockOf.
    destruct (pollingSockets (reactor w3) !! u) as [q |] eqn:Hq; [| done].
    simpl. destruct (decide (q = NULL)) as [-> | Hqn]; [done |].
    pose proof (Hmono u q Hq Hqn) as Hold. simpl in Hold.
    rewrite Hreg2 in Hold. simpl in Hold.
    replace (sock_uuid s) with u in Hold. by rewrite lookup_delete_eq in Hold. }
  split.
  { intros k Hk. apply (Hgone k). by apply Hmono. }
  split.
  { rewrite Htr3. simpl. rewrite Htr2, Htr1. rewrite <- !app_assoc.
    reflexivity. }
  rewrite filter_app, Hcl1. simpl.
  rewrite filter_cons. simpl.
  rewrite filter_app, (filter_close_benign tr2 Hben2). simpl.
  rewrite !filter_cons. simpl.
  by rewrite filter_close_marks.
Qed.

(** After an upgrade, entries still addressed to the UUID of the HTTP
    connection are dropped: the WebSocket connection has a UUID of its own,
    and when that differs from the old one, the drain of any entries for
    the old UUID changes neither the heap nor the kernel and makes no
    system call. *)
Theorem late_entries_for_upgraded_uuid_are_dropped w (u : QByteArray)
    (header : THttpRequestHeader) p s (late : list TSendData.t) :
  wf w ->
  pollingSockets (reactor w) !! u = Some p ->
  heap w !! p = Some s ->
  0 < sd s ->
  createUuid (uuidsIssued w) <> u ->
  Forall (fun d => TSendData.uuid d = u) late ->
  exists w1 w',
    dispatchOne (TSendData.new_header TSendData.SwitchToWebSocket u header) w
      = Some (tt, w1) /\
    dispatchList late w1 = Some (tt, w') /\
    heap w' = heap w1 /\
    kernel w' = kernel w1 /\
    trace w' = trace w1 ++ map DeleteSendData late.
Proof.
  intros Hwf Hreg Hp Hopen Hfresh Hlate.
  set (d := TSendData.new_header TSendData.SwitchToWebSocket u header).
  assert (Hne : p <> NULL) by (intros ->; destruct Hwf; congruence).
  assert (Hu : sock_uuid s = u).
  { destruct (proj2 Hwf _ _ Hreg) as [-> | (t & Ht & Hu)]; [done | congruence]. }
  destruct (applySwitch_spec w d p s Hp eq_refl)
    as ([] & w1 & Hrun & ws & tr1 & tr2 & _ & _ & _ & Hreg1 & _).
  set (w1' := set_trace (trace w1 ++ [DeleteSendData d]) w1).
  destruct (dispatchList_discards u late w1')
    as (w' & Hloop & Hh & Hk & _ & Htr & _); [| exact Hlate |].
  { unfold sockOf. simpl.
    destruct Hreg1 as [-> | ->]; simpl; rewrite ?Hu.
    - by rewrite lookup_delete_eq.
    - rewrite lookup_insert_ne by exact Hfresh. by rewrite lookup_delete_eq. }
  exists w1', w'. split.
  { rewrite (dispatchOne_live w d p s Hreg Hne Hp Hopen).
    unfold mbind, M_bind, bind. by rewrite Hrun. }
  by repeat split.
Qed.

Lemma dispatchSendData_empty w :
  sendRequests (reactor w) = [] -> dispatchSendData w = Some (tt, w).
Proof.
  intros Hq. unfold dispatchSendData, dequeue, mbind, M_bind, bind. simpl.
  rewrite Hq. simpl. destruct w as [[] ? ? ? ?]. simpl in *. by subst.
Qed.

(** Draining twice is draining once: under the registry invariant a drain
    returns with the send queue empty, having consumed every entry that
    was queued, in order, and a second drain right after it changes
    nothing at all. *)
Theorem drain_twice w :
  wf w ->
  exists w',
    dispatchSendData w = Some (tt, w') /\
    wf w' /\
    sendRequests (reactor w') = [] /\
    consumed (trace w') = consumed (trace w) ++ sendRequests (reactor w) /\
    dispatchSendData w' = Some (tt, w').
Proof.
  intros Hwf.
  set (w0 := set_reactor (set_sendRequests [] (reactor w)) w).
  destruct (dispatchList_spec (sendRequests (reactor w)) w0 Hwf)
    as ([] & w' & Hloop & Hwf' & Hq & Hc).
  exists w'. split; [exact Hloop |]. split; [exact Hwf' |].
  split; [exact Hq |]. split; [exact Hc |].
  apply dispatchSendData_empty. exact Hq.
Qed.

End DispatchMore.

Lemma setSendData_reaches_buffer_queue_witness :
  pollingSockets (reactor Demo.world1) !! "conn-a" = Some 1%N /\
  1%N <> NULL /\
  heap Demo.world1 !! 1%N = Some Demo.http7 /\
  0 < sd Demo.http7 /\
  sendRequests (reactor Demo.world1) = [] /\
  exists w',
    (setSendData "conn-a" "b1" ;; dispatchSendData) Demo.world1 = Some (tt, w') /\
    heap w' = <[1%N := pushAll [Some (createSendBuffer "b1")] Demo.http7]>
                (heap Demo.world1) /\
    pollingSockets (reactor w') = pollingSockets (reactor Demo.world1) /\
    sendRequests (reactor w') = [] /\
    kernel w' = <[7 := mk_epoll_event EPOLL_RESET 1%N]> (kernel Demo.world1) /\
    trace w' = trace Demo.world1 ++
      [SysEpollCtl EPOLL_CTL_MOD (sd Demo.http7)
         (Some (mk_epoll_event EPOLL_RESET 1%N)) 0 0;
       modifyPoll_log 0;
       DeleteSendData (TSendData.new_buf TSendData.Send "conn-a"
                         (Some (createSendBuffer "b1")))].
Proof.
  assert (H1 : pollingSockets (reactor Demo.world1) !! "conn-a" = Some 1%N)
    by reflexivity.
  assert (H2 : 1%N <> NULL) by discriminate.
  assert (H3 : heap Demo.world1 !! 1%N = Some Demo.http7) by reflexivity.
  assert (H4 : 0 < sd Demo.http7) by (simpl; lia).
  assert (H5 : sendRequests (reactor Demo.world1) = []) by reflexivity.
  do 5 (split; [assumption |]).
  exact (setSendData_reaches_buffer_queue Demo.world1 "conn-a" "b1" 1%N
           Demo.http7 0 0
           (<[7 := mk_epoll_event EPOLL_RESET 1%N]> (kernel Demo.world1))
           H1 H2 H3 H4 H5 eq_refl).
Defined.

Lemma entry_for_closed_descriptor_is_discarded_witness :
  pollingSockets (reactor Scenario.closed_world) !! "conn-a" = Some 1%N /\
  heap Scenario.closed_world !! 1%N = Some Scenario.closed0 /\
  sd Scenario.closed0 <= 0 /\
  exists w',
    dispatchOne (TSendData.new_buf TSendData.Disconnect "conn-a" None)
                Scenario.closed_world = Some (tt, w') /\
    reactor w' = reactor Scenario.closed_world /\
    heap w' = heap Scenario.closed_world /\
    kernel w' = kernel Scenario.closed_world /\
    trace w' = trace Scenario.closed_world ++
      [DeleteSendData (TSendData.new_buf TSendData.Disconnect "conn-a" None)].
Proof.
  assert (H1 : pollingSockets (reactor Scenario.closed_world) !! "conn-a"
               = Some 1%N) by reflexivity.
  assert (H2 : heap Scenario.closed_world !! 1%N = Some Scenario.closed0)
    by reflexivity.
  assert (H3 : sd Scenario.closed0 <= 0) by (simpl; lia).
  do 3 (split; [assumption |]).
  exact (entry_for_closed_descriptor_is_discarded Scenario.closed_world
           (TSendData.new_buf TSendData.Disconnect "conn-a" None) 1%N
           Scenario.closed0 H1 H2 H3).
Defined.

Lemma disconnect_retires_connection_witness :
  wf Demo.world1 /\
  pollingSockets (reactor Demo.world1) !! "conn-a" = Some 1%N /\
  heap Demo.world1 !! 1%N = Some Demo.http7 /\
  0 < sd Demo.http7 /\
  exists w' r err tr,
    dispatchOne (TSendData.new_buf TSendData.Disconnect "conn-a" None)
                Demo.world1 = Some (tt, w') /\
    heap w' = <[1%N := mark_deleteLater (set_sd 0 Demo.http7)]>
                (heap Demo.world1) /\
    pollingSockets (reactor w') =
      delete "conn-a" (pollingSockets (reactor Demo.world1)) /\
    (forall k, pollingSockets (reactor w') !! k <> Some 1%N) /\
    trace w' = trace Demo.world1 ++
      (SysEpollCtl EPOLL_CTL_DEL (sd Demo.http7) None r err :: tr) ++
      [SysClose (sd Demo.http7); DeleteLater 1%N;
       DeleteSendData (TSendData.new_buf TSendData.Disconnect "conn-a" None)] /\
    Forall (fun e => benign e = true) tr.
Proof.
  assert (H1 : pollingSockets (reactor Demo.world1) !! "conn-a" = Some 1%N)
    by reflexivity.
  assert (H2 : heap Demo.world1 !! 1%N = Some Demo.http7) by reflexivity.
  assert (H3 : 0 < sd Demo.http7) by (simpl; lia).
  split; [exact world1_wf |]. do 3 (split; [assumption |]).
  exact (disconnect_retires_connection Demo.world1 "conn-a" 1%N Demo.http7
           world1_wf H1 H2 H3).
Defined.

Lemma disconnect_is_final_witness :
  wf Demo.world1 /\
  pollingSockets (reactor Demo.world1) !! "conn-a" = Some 1%N /\
  heap Demo.world1 !! 1%N = Some Demo.http7 /\
  0 < sd Demo.http7 /\
  Forall (fun d => TSendData.uuid d = "conn-a" /\
                   TSendData.method d = TSendData.Send)
         Scenario.two_sends /\
  Forall (fun d => TSendData.uuid d = "conn-a") Scenario.afterwards /\
  exists w' tr,
    dispatchList
      (Scenario.two_sends ++
       TSendData.new_buf TSendData.Disconnect "conn-a" None ::
       Scenario.afterwards) Demo.world1 = Some (tt, w') /\
    heap w' = <[1%N := mark_deleteLater
                         (set_sd 0 (pushAll (map TSendData.buffer
                                                 Scenario.two_sends)
                                            Demo.http7))]>
                (heap Demo.world1) /\
    sockOf (pollingSockets (reactor w')) "conn-a" = NULL /\
    (forall k, pollingSockets (reactor w') !! k <> Some 1%N) /\
    trace w' = trace Demo.world1 ++ tr /\
    filter (fun e => is_close e = true) tr = [SysClose (sd Demo.http7)].
Proof.
  assert (H1 : pollingSockets (reactor Demo.world1) !! "conn-a" = Some 1%N)
    by reflexivity.
  assert (H2 : heap Demo.world1 !! 1%N = Some Demo.http7) by reflexivity.
  assert (H3 : 0 < sd Demo.http7) by (simpl; lia).
  assert (H4 : Forall (fun d => TSendData.uuid d = "conn-a" /\
                                TSendData.method d = TSendData.Send)
                      Scenario.two_sends)
    by (repeat constructor).
  assert (H5 : Forall (fun d => TSendData.uuid d = "conn-a") Scenario.afterwards)
    by (repeat constructor).
  split; [exact world1_wf |]. do 5 (split; [assumption |]).
  exact (disconnect_is_final Demo.world1 "conn-a" 1%N Demo.http7
           Scenario.two_sends Scenario.afterwards world1_wf H1 H2 H3 H4 H5).
Defined.

Lemma late_entries_for_upgraded_uuid_are_dropped_witness :
  wf Demo.world1 /\
  pollingSockets (reactor Demo.world1) !! "conn-a" = Some 1%N /\
  heap Demo.world1 !! 1%N = Some Demo.http7 /\
  0 < sd Demo.http7 /\
  createUuid (uuidsIssued Demo.world1) <> "conn-a" /\
  Forall (fun d => TSendData.uuid d = "conn-a") Scenario.afterwards /\
  exists w1 w',
    dispatchOne (TSendData.new_header TSendData.SwitchToWebSocket "conn-a"
                   Demo.upgrade_header) Demo.world1 = Some (tt, w1) /\
    dispatchList Scenario.afterwards w1 = Some (tt, w') /\
    heap w' = heap w1 /\
    kernel w' = kernel w1 /\
    trace w' = trace w1 ++ map DeleteSendData Scenario.afterwards.
Proof.
  assert (H1 : pollingSockets (reactor Demo.world1) !! "conn-a" = Some 1%N)
    by reflexivity.
  assert (H2 : heap Demo.world1 !! 1%N = Some Demo.http7) by reflexivity.
  assert (H3 : 0 < sd Demo.http7) by (simpl; lia).
  assert (H4 : createUuid (uuidsIssued Demo.world1) <> "conn-a")
    by (vm_compute; discriminate).
  assert (H5 : Forall (fun d => TSendData.uuid d = "conn-a") Scenario.afterwards)
    by (repeat constructor).
  split; [exact world1_wf |]. do 5 (split; [assumption |]).
  exact (late_entries_for_upgraded_uuid_are_dropped Demo.world1 "conn-a"
           Demo.upgrade_header 1%N Demo.http7 Scenario.afterwards
           world1_wf H1 H2 H3 H4 H5).
Defined.

Lemma drain_twice_witness :
  wf (enqueued Demo.send_send_disconnect Demo.world1) /\
  sendRequests (reactor (enqueued Demo.send_send_disconnect Demo.world1))
    = Demo.send_send_disconnect /\
  exists w',
    dispatchSendData (enqueued Demo.send_send_disconnect Demo.world1)
      = Some (tt, w') /\
    wf w' /\
    sendRequests (reactor w') = [] /\
    consumed (trace w') = Demo.send_send_disconnect /\
    dispatchSendData w' = Some (tt, w').
Proof.
  split; [exact world1_wf |]. split; [reflexivity |].
  exact (drain_twice (enqueued Demo.send_send_disconnect Demo.world1)
           world1_wf).
Defined.

(** The two drains, run: the first one appends the two buffers and closes
    the connection, the second one finds the queue empty and leaves the
    state, trace included, as it is. *)
Example drain_twice_run :
  exists w',
    dispatchSendData (enqueued Demo.send_send_disconnect Demo.world1)
      = Some (tt, w') /\
    heap w' !! 1%N =
      Some (mk_socket 0 "conn-a" "10.0.0.1" HTTP
              [Some (createSendBuffer "b1"); Some (createSendBuffer "b2")]
              empty_header true) /\
    length (trace w') = 11%nat /\
    dispatchSendData w' = Some (tt, w').
Proof.
  eexists. split; [vm_compute; reflexivity |].
  repeat split; vm_compute; reflexivity.
Qed.

(** ** [releaseAllPollingSockets] (lines 265-272) *)
Section Release.
Context {P : Platform} {F : Framework}.
Implicit Types (w : World) (p q : N) (s : TEpollSocket).

Lemma registryEntries_elem (reg : gmap string N) (k : string) p :
  (k, p) ∈ registryEntries reg <-> reg !! k = Some p.
Proof.
  unfold registryEntries. rewrite merge_sort_Permutation.
  apply elem_of_map_to_list.
Qed.

Lemma registryEntries_registered (reg : gmap string N) p :
  p ∈ (registryEntries reg).*2 <-> registered reg p.
Proof.
  rewrite list_elem_of_fmap. split.
  - intros ([k q] & -> & Hin). exists k. by apply registryEntries_elem.
  - intros (k & Hk). exists (k, p). split; [reflexivity |].
    by apply registryEntries_elem.
Qed.

Lemma deleteLaterEach_spec (l : list (string * N)) w :
  (forall q, q ∈ l.*2 -> is_Some (heap w !! q)) ->
  exists w',
    deleteLaterEach l w = Some (tt, w') /\
    reactor w' = reactor w /\
    kernel w' = kernel w /\
    trace w' = trace w ++ map (fun it => DeleteLater it.2) l /\
    (forall q s, heap w !! q = Some s ->
       (q ∈ l.*2 -> heap w' !! q = Some (mark_deleteLater s)) /\
       (q ∉ l.*2 -> heap w' !! q = Some s)).
Proof.
  revert w. induction l as [| [k p] l IH]; intros w Hlive; simpl.
  - exists w. rewrite app_nil_r. repeat split; try done.
    intros Hin. by apply elem_of_nil in Hin.
  - destruct (Hlive p) as [s Hp]; [apply list_elem_of_here |].
    unfold mbind at 1, M_bind, bind.
    unfold deleteLater, mbind at 1, M_bind, bind, update, mbind at 1,
      M_bind, bind, deref. rewrite Hp. simpl.
    match goal with |- context [deleteLaterEach l ?w1] =>
      destruct (IH w1) as (w' & Hrun & Hr & Hk & Htr & Hheap)
    end.
    { intros q Hq. simpl. destruct (decide (p = q)) as [<- | Hne].
      - rewrite lookup_insert_eq. eauto.
      - rewrite lookup_insert_ne by exact Hne. apply Hlive.
        by apply list_elem_of_further. }
    exists w'. split; [exact Hrun |]. simpl in *.
    split; [exact Hr |]. split; [exact Hk |].
    split; [by rewrite Htr, <- app_assoc |].
    intros q s' Hq. destruct (decide (p = q)) as [<- | Hne].
    + rewrite Hp in Hq. injection Hq as <-.
      destruct (Hheap p (mark_deleteLater s)) as [Hin Hout];
        [apply lookup_insert_eq |].
      split; [| intros Hnot; destruct Hnot; apply list_elem_of_here].
      intros _. destruct (decide (p ∈ l.*2)) as [Hpl | Hpl].
      * by rewrite (Hin Hpl).
      * by rewrite (Hout Hpl).
    + destruct (Hheap q s') as [Hin Hout];
        [by rewrite lookup_insert_ne |].
      split.
      * intros Hmem. apply Hin.
        apply elem_of_cons in Hmem as [Heq | Hmem]; [| exact Hmem].
        simpl in Heq. congruence.
      * intros Hnot. apply Hout. intros Hmem. apply Hnot.
        by apply list_elem_of_further.
Qed.

Lemma deleteLaterEach_dangling (l : list (string * N)) w q :
  q ∈ l.*2 -> heap w !! q = None -> deleteLaterEach l w = None.
Proof.
  revert w. induction l as [| [k p] l IH]; intros w Hin Hq; simpl.
  - by apply elem_of_nil in Hin.
  - unfold mbind at 1, M_bind, bind.
    unfold deleteLater, mbind at 1, M_bind, bind, update, mbind at 1,
      M_bind, bind, deref.
    destruct (heap w !! p) as [s |] eqn:Hp; [| reflexivity]. simpl.
    apply IH.
    + apply elem_of_cons in Hin as [Heq | Hin]; [| exact Hin].
      simpl in Heq. congruence.
    + simpl. rewrite lookup_insert_ne; [exact Hq |]. intros ->. congruence.
Qed.

(** Releasing all polling sockets: when the registry holds no null entry
    (and its entries point to live sockets), the call returns with the
    registry empty; every connection that was registered is scheduled for
    deletion and is otherwise as it was, the others are untouched; and the
    trace grows by the [deleteLater] marks alone, in key order: no
    descriptor is closed and the kernel's interest list is not touched. *)
Theorem releaseAll_schedules_every_registered_connection w :
  wf w ->
  no_null_entry (pollingSockets (reactor w)) ->
  exists w',
    releaseAllPollingSockets w = Some (tt, w') /\
    pollingSockets (reactor w') = ∅ /\
    sendRequests (reactor w') = sendRequests (reactor w) /\
    kernel w' = kernel w /\
    trace w' = trace w ++
      map (fun it => DeleteLater it.2)
          (registryEntries (pollingSockets (reactor w))) /\
    (forall q s, heap w !! q = Some s ->
       (registered (pollingSockets (reactor w)) q ->
        heap w' !! q = Some (mark_deleteLater s)) /\
       (~ registered (pollingSockets (reactor w)) q ->
        heap w' !! q = Some s)).
Proof.
  intros [Hnull Hreg] Hnn.
  destruct (deleteLaterEach_spec
              (registryEntries (pollingSockets (reactor w))) w)
    as (w1 & Hrun & Hr & Hk & Htr & Hheap).
  { intros q Hq. apply registryEntries_registered in Hq as (k & Hk).
    destruct (Hreg k q Hk) as [-> | (s & Hs & _)]; [| eauto].
    by destruct (Hnn k NULL Hk). }
  exists (set_reactor (set_pollingSockets ∅ (reactor w1)) w1).
  split.
  { unfold releaseAllPollingSockets, mbind, M_bind, bind, getReactor. simpl.
    rewrite Hrun. reflexivity. }
  simpl. rewrite Hr.
  repeat split; try assumption.
  - intros Hq. apply (Hheap q s H). by apply registryEntries_registered.
  - intros Hq. apply (Hheap q s H). by rewrite registryEntries_registered.
Qed.

Lemma releaseAll_null_entry w (k : string) :
  heap w !! NULL = None ->
  pollingSockets (reactor w) !! k = Some NULL ->
  releaseAllPollingSockets w = None.
Proof.
  intros Hnull Hk.
  unfold releaseAllPollingSockets, mbind, M_bind, bind, getReactor. simpl.
  rewrite (deleteLaterEach_dangling _ w NULL); [reflexivity | | exact Hnull].
  apply registryEntries_registered. by exists k.
Qed.

(** A discarded entry poisons the release. After the drain has discarded
    an entry for a UUID the registry had no entry for, the registry holds
    the null pointer under that UUID (left there by [pollingSockets[uuid]]),
    and [releaseAllPollingSockets], which calls [deleteLater] through every
    value of the registry, calls it through that null pointer: the model
    reports the failure. *)
Theorem release_after_discarded_entry_fails w (d : TSendData.t) :
  heap w !! NULL = None ->
  pollingSockets (reactor w) !! TSendData.uuid d = None ->
  exists w1,
    dispatchOne d w = Some (tt, w1) /\
    pollingSockets (reactor w1) !! TSendData.uuid d = Some NULL /\
    releaseAllPollingSockets w1 = None.
Proof.
  intros Hnull Hreg. eexists. split; [apply dispatchOne_absent; exact Hreg |].
  simpl. split; [apply lookup_insert_eq |].
  apply (releaseAll_null_entry _ (TSendData.uuid d)); simpl;
    [exact Hnull | apply lookup_insert_eq].
Qed.

End Release.

(** [Scenario.ready_world] satisfies the registry invariant and has no
    null entry. *)
Lemma ready_world_wf : wf Scenario.ready_world.
Proof.
  split; [reflexivity |].
  intros k p Hk.
  change (({["conn-a" := 1%N; "conn-b" := 2%N]} : gmap string N) !! k = Some p)
    in Hk.
  apply lookup_insert_Some in Hk as [[<- <-] | [_ Hk]].
  - right. exists Demo.http7. split; reflexivity.
  - apply lookup_singleton_Some in Hk as [<- <-].
    right. exists Scenario.ws9. split; reflexivity.
Defined.

Lemma ready_world_no_null :
  no_null_entry (pollingSockets (reactor Scenario.ready_world)).
Proof.
  intros k p Hk.
  change (({["conn-a" := 1%N; "conn-b" := 2%N]} : gmap string N) !! k = Some p)
    in Hk.
  apply lookup_insert_Some in Hk as [[_ <-] | [_ Hk]]; [discriminate |].
  apply lookup_singleton_Some in Hk as [_ <-]. discriminate.
Defined.

Lemma releaseAll_schedules_every_registered_connection_witness :
  wf Scenario.ready_world /\
  no_null_entry (pollingSockets (reactor Scenario.ready_world)) /\
  exists w',
    releaseAllPollingSockets Scenario.ready_world = Some (tt, w') /\
    pollingSockets (reactor w') = ∅ /\
    sendRequests (reactor w') = sendRequests (reactor Scenario.ready_world) /\
    kernel w' = kernel Scenario.ready_world /\
    trace w' = trace Scenario.ready_world ++
      map (fun it => DeleteLater it.2)
          (registryEntries (pollingSockets (reactor Scenario.ready_world))) /\
    (forall q s, heap Scenario.ready_world !! q = Some s ->
       (registered (pollingSockets (reactor Scenario.ready_world)) q ->
        heap w' !! q = Some (mark_deleteLater s)) /\
       (~ registered (pollingSockets (reactor Scenario.ready_world)) q ->
        heap w' !! q = Some s)).
Proof.
  split; [exact ready_world_wf |]. split; [exact ready_world_no_null |].
  exact (releaseAll_schedules_every_registered_connection Scenario.ready_world
           ready_world_wf ready_world_no_null).
Defined.

(** The release of [Scenario.ready_world], run: the two connections are
    marked in the order of their keys, and their descriptors stay open. *)
Example releaseAll_run :
  exists w',
    releaseAllPollingSockets Scenario.ready_world = Some (tt, w') /\
    trace w' = [DeleteLater 1%N; DeleteLater 2%N] /\
    (sd <$> heap w' !! 1%N) = Some 7 /\
    (sd <$> heap w' !! 2%N) = Some 9 /\
    kernel w' = kernel Scenario.ready_world.
Proof.
  eexists. split; [vm_compute; reflexivity |].
  repeat split; vm_compute; reflexivity.
Qed.

Lemma release_after_discarded_entry_fails_witness :
  heap Demo.world1 !! NULL = None /\
  pollingSockets (reactor Demo.world1) !! "gone" = None /\
  exists w1,
    dispatchOne (TSendData.new_buf TSendData.Send "gone"
                   (Some (createSendBuffer "late"))) Demo.world1
      = Some (tt, w1) /\
    pollingSockets (reactor w1) !! "gone" = Some NULL /\
    releaseAllPollingSockets w1 = None.
Proof.
  assert (H1 : heap Demo.world1 !! NULL = None) by reflexivity.
  assert (H2 : pollingSockets (reactor Demo.world1) !! "gone" = None)
    by reflexivity.
  split; [exact H1 |]. split; [exact H2 |].
  exact (release_after_discarded_entry_fails Demo.world1
           (TSendData.new_buf TSendData.Send "gone"
              (Some (createSendBuffer "late"))) H1 H2).
Defined.

(** ** The frame worker, for every frame (twebsocketworker.cpp) *)
Section WorkerMore.
Context {P : Platform} {F : Framework}.
Implicit Types (w v : World) (wk : TWebSocketWorker) (ep : TWebSocketEndpoint).

Lemma enqueued_trace_swap (acts : list TSendData.t) (tr : list Effect) w :
  set_trace (trace (enqueued acts w) ++ tr) (enqueued acts w) =
  enqueued acts (set_trace (trace w ++ tr) w).
Proof. reflexivity. Qed.

Lemma sendPayload_cases (uuid : QByteArray) (var : QVariant) w :
  sendPayload uuid var w =
    Some (tt, enqueued (option_list (variantAction uuid var))
                (set_trace (trace w ++ option_list (variantError uuid var)) w)).
Proof.
  assert (Hw : forall a, enqueued [a] w
                         = enqueued [a] (set_trace (trace w ++ []) w)).
  { intros a. rewrite app_nil_r. by destruct w as [[] ? ? ? ?]. }
  assert (Hn : forall e, set_trace (trace w ++ [e]) w
                         = enqueued [] (set_trace (trace w ++ [e]) w)).
  { intros e. unfold enqueued. simpl. rewrite app_nil_r.
    by destruct w as [[] ? ? ? ?]. }
  unfold variantError.
  destruct var as [text | binary | n |]; simpl.
  - apply (f_equal (fun x => Some (tt, x))), Hw.
  - apply (f_equal (fun x => Some (tt, x))), Hw.
  - destruct (n =? TWebSocketFrame.Close);
      [apply (f_equal (fun x => Some (tt, x))), Hw |].
    destruct (n =? TWebSocketFrame.Ping);
      [apply (f_equal (fun x => Some (tt, x))), Hw |].
    destruct (n =? TWebSocketFrame.Pong);
      [apply (f_equal (fun x => Some (tt, x))), Hw |].
    apply (f_equal (fun x => Some (tt, x))), Hn.
  - apply (f_equal (fun x => Some (tt, x))), Hn.
Qed.

(** The loop over the payload list, on any list of variants: it returns; it
    enqueues, in list order, one action for every entry it has a case for
    and nothing for the others; it logs one "Invalid logic" line for each
    of the others; and an entry it has no case for does not stop it, the
    entries after it are still sent. Nothing but the send queue and the
    log changes. *)
Theorem sendPayloads_skips_invalid_entries (uuid : QByteArray)
    (l : list QVariant) w :
  sendPayloads uuid l w =
    Some (tt, enqueued (omap (variantAction uuid) l)
                (set_trace (trace w ++ omap (variantError uuid) l) w)).
Proof.
  revert w. induction l as [| var l IH]; intros w; simpl.
  - rewrite app_nil_r. unfold enqueued. simpl. rewrite app_nil_r.
    by destruct w as [[] ? ? ? ?].
  - unfold mbind at 1, M_bind, bind. rewrite sendPayload_cases, IH.
    unfold variantError.
    destruct (variantAction uuid var) as [a |]; simpl;
      unfold enqueued; simpl; rewrite <- ?app_assoc; reflexivity.
Qed.

Ltac quiet_trace :=
  repeat (apply Forall_cons_2;
          [first [left; reflexivity | right; do 2 eexists; reflexivity] |]);
  apply Forall_nil_2.

(** What the first switch leaves, with the number of callbacks it made. *)
Lemma handleOpcode_one_call wk ep :
  exists (ds : list Directive) (tr : list Effect),
    (forall v, handleOpcode wk ep v =
                 Some (map toVariant ds, set_trace (trace v ++ tr) v)) /\
    (length (filter (fun e => is_invoke e = true) tr) <= 1)%nat /\
    Forall (fun e => is_invoke e = true \/ exists lvl fmt, e = Log lvl fmt) tr.
Proof.
  unfold handleOpcode.
  destruct (opcode wk =? TWebSocketFrame.Continuation).
  { destruct (String.eqb _ _).
    - eexists _, [_]. split; [intros v; reflexivity |].
      split; [simpl; lia | quiet_trace].
    - exists [], [Log AppError "Invalid logic  [%s:%d]"].
      split; [intros v; reflexivity |].
      split; [simpl; lia | quiet_trace]. }
  destruct (opcode wk =? TWebSocketFrame.TextFrame).
  { eexists _, [_]. split; [intros v; reflexivity |].
    split; [simpl; lia | quiet_trace]. }
  destruct (opcode wk =? TWebSocketFrame.BinaryFrame).
  { eexists _, [_]. split; [intros v; reflexivity |].
    split; [simpl; lia | quiet_trace]. }
  destruct (opcode wk =? TWebSocketFrame.Close).
  { exists (onClose ep ++ [CloseWebSocket]), [Invoke OnClose].
    split; [intros v; by rewrite map_app |].
    split; [simpl; lia | quiet_trace]. }
  destruct (opcode wk =? TWebSocketFrame.Ping).
  { exists (onPing ep ++ [SendPong]), [Invoke OnPing].
    split; [intros v; by rewrite map_app |].
    split; [simpl; lia | quiet_trace]. }
  destruct (opcode wk =? TWebSocketFrame.Pong).
  { eexists _, [_]. split; [intros v; reflexivity |].
    split; [simpl; lia | quiet_trace]. }
  exists [], [Log AppWarn "Invalid opcode: 0x%x  [%s:%d]"].
  split; [intros v; reflexivity |].
  split; [simpl; lia | quiet_trace].
Qed.

Lemma actionOf_own wk (d : Directive) :
  own_action wk (actionOf (socketUuid wk) d).
Proof. destruct d; split; simpl; auto. Qed.

(** A worker stays within its own connection. Whatever the frame, the
    endpoint and its callbacks, [run] returns, and all it does to the
    process is to append to the send queue and to the log: the registry,
    the heap (every connection's descriptor and buffer queue) and the
    kernel are as they were. Every action it enqueues carries the worker's
    own socket UUID and is a Send or a Disconnect, never an upgrade; it
    invokes at most one callback; and it makes no system call. *)
Theorem run_stays_within_its_connection wk w :
  exists (acts : list TSendData.t) (tr : list Effect),
    run wk w = Some (tt, enqueued acts (set_trace (trace w ++ tr) w)) /\
    Forall (own_action wk) acts /\
    (length (filter (fun e => is_invoke e = true) tr) <= 1)%nat /\
    Forall (fun e => is_invoke e = true \/ exists lvl fmt, e = Log lvl fmt) tr.
Proof.
  destruct (dispatcherObject (endpointName wk)) as [ep |] eqn:Hep.
  - destruct (handleOpcode_one_call wk ep) as (ds & tr & Hsw & Hone & Hlog).
    exists (map (actionOf (socketUuid wk)) ds), (found_endpoint ++ tr).
    split; [apply (run_resolved wk ep ds tr w Hep Hsw) |].
    split.
    { apply Forall_forall. intros d Hd.
      apply list_elem_of_fmap in Hd as (dir & -> & _). apply actionOf_own. }
    split.
    { rewrite filter_app. simpl. exact Hone. }
    apply Forall_app. split; [| exact Hlog].
    unfold found_endpoint. quiet_trace.
  - exists [], []. split.
    + unfold run. rewrite Hep. rewrite app_nil_r.
      unfold enqueued. simpl. rewrite app_nil_r.
      by destruct w as [[] ? ? ? ?].
    + split; [constructor |]. split; [simpl; lia | constructor].
Qed.

(** A continuation frame is taken for the opening event. A worker built
    for a received frame has a default session, whose id is empty, so for
    a frame with opcode 0 (the tag the worker uses for the opening) and a
    resolving endpoint, [run] invokes [onOpen] with the default session;
    the payload of the frame reaches no callback. *)
Theorem continuation_frame_invokes_onOpen (socket path data : QByteArray) ep w :
  let wk := TWebSocketWorker_frame socket path TWebSocketFrame.Continuation
                                   data in
  dispatcherObject (endpointName wk) = Some ep ->
  run wk w =
    Some (tt, enqueued (map (actionOf socket) (onOpen ep TSession_default))
                (set_trace (trace w ++ found_endpoint ++
                            [Invoke (OnOpen TSession_default)]) w)).
Proof.
  intros wk Hep.
  exact (proj1 (opening_session_guard wk ep w Hep eq_refl) eq_refl).
Qed.

(** [onOpen] at an upgrade, exactly when no session is found. For the
    worker the reactor starts at an upgrade (the session is the one found
    for the cookie, or the default one when the request has no session
    cookie), with its endpoint resolving: [onOpen] is invoked, with that
    session, exactly when the session's id is empty. *)
Theorem opening_invokes_onOpen_iff_no_session (socket : QByteArray)
    (header : THttpRequestHeader) ep w :
  let wk := TWebSocketWorker_opening socket (openingSession header) in
  dispatcherObject (endpointName wk) = Some ep ->
  exists acts tr,
    run wk w = Some (tt, enqueued acts (set_trace (trace w ++ tr) w)) /\
    (Invoke (OnOpen (openingSession header)) ∈ tr <->
     session_id (openingSession header) = EmptyString) /\
    (cookie header sessionName = EmptyString ->
     Invoke (OnOpen TSession_default) ∈ tr).
Proof.
  intros wk Hep.
  destruct (opening_session_guard wk ep w Hep eq_refl) as [Hempty Hfull].
  destruct (String.eqb_spec (session_id (openingSession header)) EmptyString)
    as [Hid | Hid].
  - eexists _, _. split; [exact (Hempty Hid) |]. split.
    + split; [done |]. intros _. rewrite elem_of_app. right.
      apply list_elem_of_here.
    + intros Hc.
      assert (Hdef : openingSession header = TSession_default)
        by (unfold openingSession; rewrite Hc; reflexivity).
      change (sessionStore wk) with (openingSession header).
      rewrite Hdef, elem_of_app. right. apply list_elem_of_here.
  - exists [], (found_endpoint ++ [Log AppError "Invalid logic  [%s:%d]"]).
    split.
    { rewrite (Hfull Hid). unfold enqueued. simpl. rewrite app_nil_r.
      by destruct w as [[] ? ? ? ?]. }
    split.
    + split; [| done]. intros Hin.
      unfold found_endpoint in Hin. simpl in Hin.
      repeat (apply elem_of_cons in Hin as [Hin | Hin]; [discriminate |]).
      by apply elem_of_nil in Hin.
    + intros Hc. exfalso. apply Hid. unfold openingSession.
      by rewrite Hc.
Qed.

End WorkerMore.

Lemma continuation_frame_invokes_onOpen_witness :
  dispatcherObject
    (endpointName (TWebSocketWorker_frame "conn-a" "chat"
                     TWebSocketFrame.Continuation "payload")) = Some Demo.echo /\
  run (TWebSocketWorker_frame "conn-a" "chat" TWebSocketFrame.Continuation
         "payload") Demo.world1 =
    Some (tt, enqueued (map (actionOf "conn-a")
                            (onOpen Demo.echo TSession_default))
                (set_trace (trace Demo.world1 ++ found_endpoint ++
                            [Invoke (OnOpen TSession_default)]) Demo.world1)).
Proof.
  split; [reflexivity |].
  apply (continuation_frame_invokes_onOpen "conn-a" "chat" "payload"
           Demo.echo Demo.world1).
  reflexivity.
Defined.

Lemma opening_invokes_onOpen_iff_no_session_witness :
  dispatcherObject
    (endpointName (TWebSocketWorker_opening "ws-0"
                     (openingSession Demo.upgrade_header))) = Some Demo.echo /\
  exists acts tr,
    run (TWebSocketWorker_opening "ws-0" (openingSession Demo.upgrade_header))
        Demo.world1
      = Some (tt, enqueued acts
                    (set_trace (trace Demo.world1 ++ tr) Demo.world1)) /\
    (Invoke (OnOpen (openingSession Demo.upgrade_header)) ∈ tr <->
     session_id (openingSession Demo.upgrade_header) = EmptyString) /\
    (cookie Demo.upgrade_header sessionName = EmptyString ->
     Invoke (OnOpen TSession_default) ∈ tr).
Proof.
  split; [reflexivity |].
  apply (opening_invokes_onOpen_iff_no_session "ws-0" Demo.upgrade_header
           Demo.echo Demo.world1).
  reflexivity.
Defined.

(** ** Loading the application libraries (tapplicationserverbase.cpp) *)
Section LoadLibraries.
Import TApplicationServerBase.

Lemma attempts_app (es fs : list Event) :
  attempts (es ++ fs) = attempts es ++ attempts fs.
Proof. apply omap_app. Qed.

(** The loop tries every name once, in order, and raises the flag when a
    load succeeds; it never lowers it. *)
Lemma loadEach_spec (env : Env) (names : list QString) (st : Process) :
  exists es,
    events (loadEach env names st) = events st ++ es /\
    attempts es = map (fun n => (n, load env n)) names /\
    libLoaded (loadEach env names st)
      = libLoaded st || existsb (load env) names /\
    (forall e, e ∈ es -> (exists n ok, e = LibraryLoad n ok)
                          \/ exists lvl fmt, e = Logged lvl fmt).
Proof.
  revert st. induction names as [| n names IH]; intros st; simpl.
  - exists []. rewrite app_nil_r, orb_false_r. repeat split. intros e He.
    by apply elem_of_nil in He.
  - destruct (load env n) eqn:Hn;
      match goal with |- context [loadEach env names ?s] =>
        destruct (IH s) as (es & Hev & Hatt & Hflag & Hshape) end;
      eexists (_ :: _ :: es); simpl in *;
      (split; [rewrite Hev, <- app_assoc; reflexivity |]);
      (split; [rewrite Hatt; reflexivity |]);
      (split; [rewrite Hflag; by rewrite ?orb_true_r |]);
      intros e He;
      apply elem_of_cons in He as [-> | He]; [left; eauto | |left; eauto |];
      (apply elem_of_cons in He as [-> | He]; [right; eauto | by apply Hshape]).
Qed.

(** The one way to fail. [loadLibraries] returns false exactly when no
    library has been loaded so far and the lib directory does not exist;
    it then logs one error and does nothing else (no change of directory,
    no load attempt, no instantiation, and the flag stays down). In every
    other case it returns true, also when no library could be loaded, and
    the call ends with the change to the web root and the three
    instantiations, URL routes, then SQL pool, then KVS pool. *)
Theorem loadLibraries_fails_only_without_lib_directory (env : Env)
    (st : Process) :
  ((loadLibraries env st).1 = false <->
   libLoaded st = false /\ dirExists env (libPath env) = false) /\
  ((loadLibraries env st).1 = false ->
   (loadLibraries env st).2
     = note [Logged SystemError "lib directory not found"] st) /\
  ((loadLibraries env st).1 = true ->
   exists es, events (loadLibraries env st).2
              = events st ++ es ++ enterWebRoot env).
Proof.
  unfold loadLibraries.
  destruct (libLoaded st) eqn:Hflag; simpl.
  { split; [split; [done | intros [? _]; done] |].
    split; [done |]. intros _. exists []. reflexivity. }
  destruct (dirExists env (libPath env)) eqn:Hdir; simpl.
  - split; [split; [done | intros [_ ?]; done] |].
    split; [done |]. intros _.
    destruct (loadEach_spec env (libs (os env))
                (note [SetCurrent (libPath env)] st)) as (es & Hev & _).
    exists ([SetCurrent (libPath env)] ++ es
            ++ [Logged SystemDebug "Available controllers: %s"]).
    rewrite Hev. simpl. rewrite <- !app_assoc. reflexivity.
  - split; [done |]. split; [done | discriminate].
Qed.

(** The first call of a process whose lib directory exists. It returns
    true whatever the loads do; it changes to the lib directory before the
    first load; it tries the controller library and then the view library
    of the platform, each once; and the flag is up afterwards exactly when
    at least one of them loaded. *)
Theorem loadLibraries_first_call (env : Env) (st : Process) :
  libLoaded st = false ->
  dirExists env (libPath env) = true ->
  (loadLibraries env st).1 = true /\
  (exists es, events (loadLibraries env st).2
              = events st ++ SetCurrent (libPath env) :: es /\
              attempts es = map (fun n => (n, load env n)) (libs (os env))) /\
  (libLoaded (loadLibraries env st).2 = true <->
   exists n, n ∈ libs (os env) /\ load env n = true).
Proof.
  intros Hflag Hdir. unfold loadLibraries. rewrite Hflag, Hdir. simpl.
  destruct (loadEach_spec env (libs (os env))
              (note [SetCurrent (libPath env)] st))
    as (es & Hev & Hatt & Hfl & _).
  split; [reflexivity |]. split.
  - exists (es ++ Logged SystemDebug "Available controllers: %s"
                :: enterWebRoot env).
    split.
    + rewrite Hev. simpl. rewrite <- !app_assoc. reflexivity.
    + rewrite attempts_app, Hatt. simpl. by rewrite app_nil_r.
  - rewrite Hfl. simpl. rewrite Hflag. simpl.
    rewrite existsb_exists. split.
    + intros (n & Hin & Hn). exists n. split; [| exact Hn].
      by apply list_elem_of_In.
    + intros (n & Hin & Hn). exists n. split; [| exact Hn].
      by apply list_elem_of_In.
Qed.

Lemma loadLibraries_loaded (env : Env) (st : Process) :
  libLoaded st = true ->
  loadLibraries env st = (true, note (enterWebRoot env) st).
Proof. intros Hflag. unfold loadLibraries. by rewrite Hflag. Qed.

Lemma loadLibrariesEach_loaded (envs : list Env) (st : Process) :
  libLoaded st = true ->
  loadLibrariesEach envs st =
    (map (fun _ => true) envs,
     note (flat_map enterWebRoot envs) st).
Proof.
  revert st. induction envs as [| env envs IH]; intros st Hflag; simpl.
  - unfold note. rewrite app_nil_r. by destruct st.
  - rewrite (loadLibraries_loaded env st Hflag).
    rewrite (IH (note (enterWebRoot env) st) Hflag).
    unfold note. simpl. by rewrite <- app_assoc.
Qed.

(** Once a library is loaded, loading is over for the process. From a
    state with the flag up, any number of later calls, whatever each of
    them finds outside, all return true (a missing lib directory no
    longer matters), make no load attempt and never enter the lib
    directory: each one only changes to its web root and instantiates the
    three pools. *)
Theorem loaded_once_never_again (envs : list Env) (st : Process) :
  libLoaded st = true ->
  (loadLibrariesEach envs st).1 = map (fun _ => true) envs /\
  libLoaded (loadLibrariesEach envs st).2 = true /\
  events (loadLibrariesEach envs st).2
    = events st ++ flat_map enterWebRoot envs /\
  attempts (flat_map enterWebRoot envs) = [].
Proof.
  intros Hflag. rewrite (loadLibrariesEach_loaded envs st Hflag). simpl.
  repeat split; [exact Hflag |].
  induction envs as [| env envs IH]; [reflexivity | exact IH].
Qed.

(** A partial load is never completed. When, at the first call, one
    library loads and another one fails, the flag goes up all the same,
    so no later call tries the failed library again, whatever has changed
    outside by then: over the whole run it is attempted once, and that
    attempt failed. *)
Theorem partial_load_is_never_completed (env : Env) (envs : list Env)
    (st : Process) (good bad : QString) :
  libLoaded st = false ->
  attempts (events st) = [] ->
  dirExists env (libPath env) = true ->
  good ∈ libs (os env) -> load env good = true ->
  bad ∈ libs (os env) -> load env bad = false ->
  let final := (loadLibrariesEach (env :: envs) st).2 in
  (loadLibrariesEach (env :: envs) st).1 = map (fun _ => true) (env :: envs) /\
  (bad, false) ∈ attempts (events final) /\
  (bad, true) ∉ attempts (events final).
Proof.
  intros Hflag Hnone Hdir Hgood Hload Hbad Hfail. simpl.
  assert (Hup : libLoaded (loadLibraries env st).2 = true).
  { unfold loadLibraries. rewrite Hflag, Hdir. simpl.
    destruct (loadEach_spec env (libs (os env))
                (note [SetCurrent (libPath env)] st)) as (es & _ & _ & Hfl & _).
    rewrite Hfl. apply orb_true_iff. right.
    apply existsb_exists. exists good. split; [| exact Hload].
    by apply list_elem_of_In. }
  assert (Hatt : attempts (events (loadLibraries env st).2)
                 = map (fun n => (n, load env n)) (libs (os env))).
  { unfold loadLibraries. rewrite Hflag, Hdir. simpl.
    destruct (loadEach_spec env (libs (os env))
                (note [SetCurrent (libPath env)] st)) as (es & Hev & Ha & _).
    rewrite Hev. simpl. rewrite !attempts_app, Hnone, Ha. simpl.
    by rewrite !app_nil_r. }
  assert (Hret : (loadLibraries env st).1 = true).
  { unfold loadLibraries. by rewrite Hflag, Hdir. }
  destruct (loadLibraries env st) as [r st1] eqn:Hcall. simpl in *.
  rewrite (loadLibrariesEach_loaded envs st1 Hup). simpl.
  split; [by rewrite Hret |].
  assert (Hquiet : attempts (flat_map enterWebRoot envs) = []).
  { clear. induction envs as [| e envs IH]; [reflexivity | exact IH]. }
  rewrite attempts_app, Hquiet, app_nil_r, Hatt. split.
  - apply list_elem_of_fmap. exists bad. by rewrite Hfail.
  - intros Hin. apply list_elem_of_fmap in Hin as (n & Heq & _).
    injection Heq as <- Hl. congruence.
Qed.

End LoadLibraries.

Lemma loadLibraries_first_call_witness :
  (TApplicationServerBase.loadLibraries
     TApplicationServerBase.controller_only TApplicationServerBase.start).1
    = true /\
  (TApplicationServerBase.libLoaded
     (TApplicationServerBase.loadLibraries
        TApplicationServerBase.controller_only
        TApplicationServerBase.start).2 = true <->
   exists n,
     n ∈ TApplicationServerBase.libs
           (TApplicationServerBase.os TApplicationServerBase.controller_only) /\
     TApplicationServerBase.load TApplicationServerBase.controller_only n
       = true).
Proof.
  destruct (loadLibraries_first_call TApplicationServerBase.controller_only
              TApplicationServerBase.start eq_refl eq_refl)
    as (Hret & _ & Hflag).
  exact (conj Hret Hflag).
Defined.

Lemma loaded_once_never_again_witness :
  (TApplicationServerBase.loadLibrariesEach
     [TApplicationServerBase.no_lib_dir; TApplicationServerBase.complete]
     (TApplicationServerBase.mk_Process true [])).1 = [true; true] /\
  TApplicationServerBase.attempts
    (TApplicationServerBase.events
       (TApplicationServerBase.loadLibrariesEach
          [TApplicationServerBase.no_lib_dir; TApplicationServerBase.complete]
          (TApplicationServerBase.mk_Process true [])).2) = [].
Proof.
  destruct (loaded_once_never_again
              [TApplicationServerBase.no_lib_dir;
               TApplicationServerBase.complete]
              (TApplicationServerBase.mk_Process true []) eq_refl)
    as (Hret & _ & Hev & Hquiet).
  split; [exact Hret |]. rewrite Hev. exact Hquiet.
Defined.

Lemma partial_load_is_never_completed_witness :
  ("libview.so", false) ∈
    TApplicationServerBase.attempts
      (TApplicationServerBase.events
         (TApplicationServerBase.loadLibrariesEach
            [TApplicationServerBase.controller_only;
             TApplicationServerBase.complete]
            TApplicationServerBase.start).2) /\
  ("libview.so", true) ∉
    TApplicationServerBase.attempts
      (TApplicationServerBase.events
         (TApplicationServerBase.loadLibrariesEach
            [TApplicationServerBase.controller_only;
             TApplicationServerBase.complete]
            TApplicationServerBase.start).2).
Proof.
  assert (Hgood : "libcontroller.so" ∈
                  TApplicationServerBase.libs
                    (TApplicationServerBase.os
                       TApplicationServerBase.controller_only))
    by apply list_elem_of_here.
  assert (Hbad : "libview.so" ∈
                 TApplicationServerBase.libs
                   (TApplicationServerBase.os
                      TApplicationServerBase.controller_only))
    by (apply list_elem_of_further, list_elem_of_here).
  destruct (partial_load_is_never_completed
              TApplicationServerBase.controller_only
              [TApplicationServerBase.complete]
              TApplicationServerBase.start
              "libcontroller.so" "libview.so"
              eq_refl eq_refl eq_refl Hgood eq_refl Hbad eq_refl)
    as (_ & Hin & Hnot).
  exact (conj Hin Hnot).
Defined.
